(** * Crossword leaderboard processor: parser, record builder and gateways

    A shallow embedding of the two Streamlit scripts of the repository
    (the hosted-OCR script [imagetoleader.py] and the local-OCR script) and
    the properties their specification states about them.

    Python [str] values that come from outside (OCR text, captured groups)
    are sequences of Unicode code points; string literals of the program
    and dictionary keys are ASCII and written as Rocq strings.

    The library functions the parser rests on are part of the model:
    [re.search] with [re.IGNORECASE] on the fragment of the pattern syntax
    the program uses, [float] on strings, [str] on floats and integers and
    [int] on the values a row can hold, as CPython 3.11 (Unicode 14.0)
    computes them.  The collaborators outside the program (the store
    client, the OCR provider reached over HTTP, the clock, the settings of
    the side bar) are parameters: records of functions that may raise.
    Functions that show messages or read these parameters run in the monad
    [ui]; the parser is a plain function into [result]. *)

From Stdlib Require Import ZArith NArith String Ascii Strings.Byte List SpecFloat Lia.
From stdpp Require Import base option list gmap strings.

Local Open Scope N_scope.

(** ** Unicode text *)

Abbreviation codepoint := N.
Abbreviation text := (list N).

Definition cp (a : ascii) : codepoint := N_of_ascii a.

Fixpoint text_of (s : string) : text :=
  match s with
  | EmptyString => []
  | String a s' => cp a :: text_of s'
  end.

(** Runs of code points with the Unicode decimal-digit property (general
    category Nd, Unicode 14.0, the table of CPython 3.11): first code point
    and length of each run.  Inside a run the digit value is the offset
    modulo ten.  This is what [\d] matches in a [str] pattern and what
    [float] and [int] translate to ASCII digits before parsing. *)
Definition decimal_runs : list (N * N) :=
  [ (0x30, 10); (0x660, 10); (0x6f0, 10); (0x7c0, 10); (0x966, 10);
    (0x9e6, 10); (0xa66, 10); (0xae6, 10); (0xb66, 10); (0xbe6, 10);
    (0xc66, 10); (0xce6, 10); (0xd66, 10); (0xde6, 10); (0xe50, 10);
    (0xed0, 10); (0xf20, 10); (0x1040, 10); (0x1090, 10); (0x17e0, 10);
    (0x1810, 10); (0x1946, 10); (0x19d0, 10); (0x1a80, 10); (0x1a90, 10);
    (0x1b50, 10); (0x1bb0, 10); (0x1c40, 10); (0x1c50, 10); (0xa620, 10);
    (0xa8d0, 10); (0xa900, 10); (0xa9d0, 10); (0xa9f0, 10); (0xaa50, 10);
    (0xabf0, 10); (0xff10, 10); (0x104a0, 10); (0x10d30, 10); (0x11066, 10);
    (0x110f0, 10); (0x11136, 10); (0x111d0, 10); (0x112f0, 10);
    (0x11450, 10); (0x114d0, 10); (0x11650, 10); (0x116c0, 10);
    (0x11730, 10); (0x118e0, 10); (0x11950, 10); (0x11c50, 10);
    (0x11d50, 10); (0x11da0, 10); (0x16a60, 10); (0x16ac0, 10);
    (0x16b50, 10); (0x1d7ce, 50); (0x1e140, 10); (0x1e2f0, 10);
    (0x1e950, 10); (0x1fbf0, 10) ].

Fixpoint decimal_in (runs : list (N * N)) (c : codepoint) : option N :=
  match runs with
  | [] => None
  | (start, len) :: runs' =>
      if (start <=? c) && (c <? start + len)
      then Some ((c - start) mod 10)
      else decimal_in runs' c
  end.

(** [Py_UNICODE_TODECIMAL]: the digit value, when there is one. *)
Definition unicode_decimal (c : codepoint) : option N :=
  decimal_in decimal_runs c.

(** [Py_UNICODE_ISDECIMAL], the class [\d]. *)
Definition is_decimal (c : codepoint) : bool :=
  match unicode_decimal c with Some _ => true | None => false end.

(** [Py_UNICODE_ISSPACE], the class [\s]. *)
Definition unicode_spaces : list codepoint :=
  [ 0x9; 0xa; 0xb; 0xc; 0xd; 0x1c; 0x1d; 0x1e; 0x1f; 0x20; 0x85; 0xa0;
    0x1680; 0x2000; 0x2001; 0x2002; 0x2003; 0x2004; 0x2005; 0x2006;
    0x2007; 0x2008; 0x2009; 0x200a; 0x2028; 0x2029; 0x202f; 0x205f;
    0x3000 ].

Definition is_space (c : codepoint) : bool :=
  existsb (N.eqb c) unicode_spaces.

Definition is_upper_ascii (c : codepoint) : bool := (0x41 <=? c) && (c <=? 0x5a).
Definition is_lower_ascii (c : codepoint) : bool := (0x61 <=? c) && (c <=? 0x7a).

Definition lower_ascii (c : codepoint) : codepoint :=
  if is_upper_ascii c then c + 32 else c.

(** Code points outside ASCII that [re.IGNORECASE] identifies with an ASCII
    letter: those whose lower case is the letter (KELVIN SIGN, capital I
    with dot) and the equivalents the compiler of [re] adds (dotless i,
    long s). *)
Definition ignorecase_extra (lo : codepoint) : list codepoint :=
  if lo =? 0x69 then [0x130; 0x131]
  else if lo =? 0x6b then [0x212a]
  else if lo =? 0x73 then [0x17f]
  else [].

(** Does text character [c] match the pattern literal [p] under
    [re.IGNORECASE]?  The literals of this program's patterns are ASCII; a
    literal that is not a letter matches itself only. *)
Definition literal_matches (p c : codepoint) : bool :=
  let lo := lower_ascii p in
  if is_lower_ascii lo
  then (lower_ascii c =? lo) || existsb (N.eqb c) (ignorecase_extra lo)
  else c =? p.

(** ** Regular expressions

    The fragment of Python's [re] syntax the program's patterns are written
    in: literal characters, the escapes [\d], [\s] and escaped punctuation,
    the greedy quantifiers [*] and [+] on a single character, and one
    capturing group.  A pattern using anything else is refused by
    [re_compile], as an invalid pattern is by [re.compile]. *)

Inductive atom : Set :=
  | ALit (c : codepoint)
  | ADigit
  | ASpace.

Inductive node : Set :=
  | NOne (a : atom)
  | NStar (a : atom)
  | NPlus (a : atom)
  | NOpen
  | NClose.

Definition is_meta (a : ascii) : bool :=
  existsb (Ascii.eqb a)
    ["."; "^"; "$"; "*"; "+"; "?"; "{"; "}"; "["; "]"; "|"; "("; ")"; "\"]%char.

Definition is_alnum_ascii (c : codepoint) : bool :=
  is_upper_ascii c || is_lower_ascii c || ((0x30 <=? c) && (c <=? 0x39)).

Definition escape_atom (a : ascii) : option atom :=
  if Ascii.eqb a "d" then Some ADigit
  else if Ascii.eqb a "s" then Some ASpace
  else if is_alnum_ascii (cp a) || negb (cp a <? 128) then None
  else Some (ALit (cp a)).

Fixpoint re_compile (p : string) : option (list node) :=
  match p with
  | EmptyString => Some []
  | String "("%char rest => cons NOpen <$> re_compile rest
  | String ")"%char rest => cons NClose <$> re_compile rest
  | String "\"%char EmptyString => None
  | String "\"%char (String e rest) =>
      a ← escape_atom e;
      match rest with
      | String "*"%char rest' => cons (NStar a) <$> re_compile rest'
      | String "+"%char rest' => cons (NPlus a) <$> re_compile rest'
      | _ => cons (NOne a) <$> re_compile rest
      end
  | String c rest =>
      if is_meta c || negb (cp c <? 128) then None
      else
        match rest with
        | String "*"%char rest' => cons (NStar (ALit (cp c))) <$> re_compile rest'
        | String "+"%char rest' => cons (NPlus (ALit (cp c))) <$> re_compile rest'
        | _ => cons (NOne (ALit (cp c))) <$> re_compile rest
        end
  end.

(** One character against one atom, under [re.IGNORECASE]. *)
Definition atom_matches (a : atom) (c : codepoint) : bool :=
  match a with
  | ALit p => literal_matches p c
  | ADigit => is_decimal c
  | ASpace => is_space c
  end.

(** The positions (as remaining input) where group 1 was opened and closed. *)
Record marks : Set := { m_open : option text; m_close : option text }.

Definition no_marks : marks := {| m_open := None; m_close := None |}.

(** A greedy repetition of one atom followed by the continuation [k]: the
    longest repetition is tried first and characters are given back one at a
    time, as the backtracking engine of [re] does. *)
Fixpoint greedy (a : atom) (k : text -> option marks) (s : text) : option marks :=
  match s with
  | c :: s' =>
      if atom_matches a c
      then match greedy a k s' with
           | Some r => Some r
           | None => k s
           end
      else k s
  | [] => k []
  end.

(** The matcher anchored at the head of [s]. *)
Fixpoint re_match_here (ns : list node) (mk : marks) (s : text) : option marks :=
  match ns with
  | [] => Some mk
  | NOne a :: ns' =>
      match s with
      | c :: s' => if atom_matches a c then re_match_here ns' mk s' else None
      | [] => None
      end
  | NStar a :: ns' => greedy a (re_match_here ns' mk) s
  | NPlus a :: ns' =>
      match s with
      | c :: s' => if atom_matches a c then greedy a (re_match_here ns' mk) s' else None
      | [] => None
      end
  | NOpen :: ns' => re_match_here ns' {| m_open := Some s; m_close := m_close mk |} s
  | NClose :: ns' => re_match_here ns' {| m_open := m_open mk; m_close := Some s |} s
  end.

(** A match object, reduced to what the program reads from it. *)
Record re_match : Set := { group1 : option text }.

Definition match_of_marks (mk : marks) : re_match :=
  {| group1 :=
       match m_open mk, m_close mk with
       | Some a, Some b => Some (take (length a - length b) a)
       | _, _ => None
       end |}.

(** [re.search]: the first start position, from the left, with a match. *)
Fixpoint search_from (ns : list node) (s : text) : option re_match :=
  match re_match_here ns no_marks s with
  | Some mk => Some (match_of_marks mk)
  | None =>
      match s with
      | [] => None
      | _ :: s' => search_from ns s'
      end
  end.

(** [re.search(pattern, text, re.IGNORECASE)]; an invalid pattern raises
    [re.error], modelled by the outer [None]. *)
Definition re_search (pattern : string) (s : text) : option (option re_match) :=
  ns ← re_compile pattern; Some (search_from ns s).

(** ** Floating-point numbers: [float(str)] and [str(float)]

    A Python float is an IEEE 754 binary64 number, here a [spec_float] of
    the Standard Library with precision 53 and maximal exponent 1024. *)

Definition prec : Z := 53.
Definition emax : Z := 1024.

(** The binary64 number nearest to [m * 10^e10] (ties to even), with the
    rounding of the Standard Library's specification of IEEE arithmetic;
    beyond the range it is an infinity. *)
Definition decimal_to_float (neg : bool) (m : Z) (e10 : Z) : spec_float :=
  match m with
  | Z0 => S754_zero neg
  | Zpos p =>
      match e10 with
      | Zneg k => SFdiv prec emax (S754_finite neg p 0) (S754_finite false (10 ^ k) 0)
      | _ => binary_round prec emax neg (p * Z.to_pos (10 ^ e10)) 0
      end
  | Zneg _ => S754_nan
  end.

Definition is_ascii_digit (c : codepoint) : bool := (0x30 <=? c) && (c <=? 0x39).

(** [Py_ISSPACE]: the ASCII white space [float] strips. *)
Definition is_ascii_space (c : codepoint) : bool :=
  ((0x9 <=? c) && (c <=? 0xd)) || (c =? 0x20).

(** [_PyUnicode_TransformDecimalAndSpaceToASCII]: code points below 127 are
    kept, other white space becomes a blank, other decimal digits become
    ASCII digits, and the first character that is none of these becomes a
    question mark that ends the string. *)
Fixpoint transform_decimal_and_space (s : text) : text :=
  match s with
  | [] => []
  | c :: s' =>
      if c <? 127 then c :: transform_decimal_and_space s'
      else if is_space c then 0x20 :: transform_decimal_and_space s'
      else match unicode_decimal c with
           | Some d => (0x30 + d) :: transform_decimal_and_space s'
           | None => [0x3f]
           end
  end.

Fixpoint lstrip (s : text) : text :=
  match s with
  | c :: s' => if is_ascii_space c then lstrip s' else s
  | [] => []
  end.

Definition strip (s : text) : text := rev (lstrip (rev (lstrip s))).

(** [_Py_string_to_number_with_underscores]: an underscore is dropped when
    it stands between two digits and is an error anywhere else. *)
Fixpoint remove_underscores (prev : codepoint) (s : text) : option text :=
  match s with
  | [] => if prev =? 0x5f then None else Some []
  | c :: s' =>
      if c =? 0x5f
      then if is_ascii_digit prev then remove_underscores c s' else None
      else if (prev =? 0x5f) && negb (is_ascii_digit c) then None
      else cons c <$> remove_underscores c s'
  end.

(** The longest prefix of ASCII digits, and the rest. *)
Fixpoint span_digits (s : text) : text * text :=
  match s with
  | c :: s' =>
      if is_ascii_digit c
      then let '(ds, rest) := span_digits s' in (c :: ds, rest)
      else ([], s)
  | [] => ([], [])
  end.

Fixpoint digits_value (acc : Z) (ds : text) : Z :=
  match ds with
  | [] => acc
  | c :: ds' => digits_value (acc * 10 + (Z.of_N c - 0x30)) ds'
  end.

(** The optional sign of a numeric literal. *)
Definition split_sign (s : text) : bool * text :=
  match s with
  | c :: s' =>
      if c =? 0x2d then (true, s')
      else if c =? 0x2b then (false, s')
      else (false, s)
  | [] => (false, [])
  end.

(** The exponent part after the mantissa: nothing, or [e] or [E], an
    optional sign and at least one digit, up to the end of the string. *)
Definition parse_exponent (s : text) : option Z :=
  match s with
  | [] => Some 0%Z
  | c :: s' =>
      if (c =? 0x65) || (c =? 0x45)
      then let '(neg, s'') := split_sign s' in
           match span_digits s'' with
           | ((_ :: _) as ds, []) =>
               Some (if neg then (- digits_value 0 ds)%Z else digits_value 0 ds)
           | _ => None
           end
      else None
  end.

(** The most digits the conversion accepts ([MAX_DIGITS] of [dtoa.c]). *)
Definition max_float_digits : Z := 1000000000.

Fixpoint drop_zeros (ds : text) : text :=
  match ds with
  | c :: ds' => if c =? 0x30 then drop_zeros ds' else ds
  | [] => []
  end.

(** The range check of [_Py_dg_strtod]: the digits are counted without the
    leading zeros (those of the fraction too when the integer part has no
    other digit), and neither this count nor the number of digits after the
    point may exceed [MAX_DIGITS]; beyond it the literal is refused. *)
Definition digits_within_limit (int_part frac_part : text) : bool :=
  let significant :=
    match drop_zeros int_part with
    | [] => drop_zeros frac_part
    | ds => ds ++ frac_part
    end in
  (Z.of_nat (length significant) <=? max_float_digits)%Z
  && (Z.of_nat (length frac_part) <=? max_float_digits)%Z.

(** The literal after white space and underscores are dealt with: a sign,
    then [inf], [infinity] or [nan] in any case, or a decimal number with
    at least one digit, no more digits than the limit, and an optional
    exponent. *)
Definition parse_float_literal (s : text) : option spec_float :=
  let '(neg, s1) := split_sign s in
  let word := map lower_ascii s1 in
  if bool_decide (word = text_of "inf") || bool_decide (word = text_of "infinity")
  then Some (S754_infinity neg)
  else if bool_decide (word = text_of "nan") then Some S754_nan
  else
    let '(int_part, s2) := span_digits s1 in
    let '(frac_part, s3) :=
      match s2 with
      | c :: s2' => if c =? 0x2e then span_digits s2' else ([], s2)
      | [] => ([], s2)
      end in
    match int_part ++ frac_part with
    | [] => None
    | ds =>
        if digits_within_limit int_part frac_part then
          e ← parse_exponent s3;
          Some (decimal_to_float neg (digits_value 0 ds) (e - Z.of_nat (length frac_part)))
        else None
    end.

(** [float(s)] for a [str] argument; [None] stands for [ValueError]. *)
Definition py_float (s : text) : option spec_float :=
  s' ← remove_underscores 0 (transform_decimal_and_space s);
  parse_float_literal (strip s').

(** *** Printing *)

Local Open Scope Z_scope.

Definition digit_char (d : Z) : ascii := ascii_of_N (0x30 + Z.to_N d).

Fixpoint decimal_digits (fuel : nat) (n : Z) (acc : string) : string :=
  match fuel with
  | O => acc
  | S fuel' =>
      let acc' := String (digit_char (n mod 10)) acc in
      if n <? 10 then acc' else decimal_digits fuel' (n / 10) acc'
  end.

(** The decimal digits of a natural number, most significant first. *)
Definition decimal_of (n : Z) : string :=
  decimal_digits (S (Z.to_nat (Z.log2 n))) n "".

(** The decimal numeral of an integer, with its sign. *)
Definition decimal_repr (n : Z) : string :=
  if n <? 0 then "-" +:+ decimal_of (- n) else decimal_of n.

Fixpoint zeros (n : nat) : string :=
  match n with
  | O => ""
  | S n' => String "0" (zeros n')
  end.

Fixpoint strip_trailing_zeros_rev (r : list ascii) : list ascii :=
  match r with
  | "0"%char :: r' => strip_trailing_zeros_rev r'
  | _ => r
  end.

Definition strip_trailing_zeros (ds : string) : string :=
  string_of_list_ascii
    (rev (strip_trailing_zeros_rev (rev (list_ascii_of_string ds)))).

(** [floor (num / den * 10^k)] with the comparison of the discarded part to
    one half. *)
Definition scale10 (num den k : Z) : Z * comparison :=
  let '(a, b) := if 0 <=? k then (num * 10 ^ k, den) else (num, den * 10 ^ (- k)) in
  (a / b, (2 * (a mod b)) ?= b).

Fixpoint seventeen_digits (fuel : nat) (num den k : Z) : Z :=
  match fuel with
  | O => k
  | S fuel' =>
      let d := fst (scale10 num den k) in
      if d <? 10 ^ 16 then seventeen_digits fuel' num den (k + 1)
      else if 10 ^ 17 <=? d then seventeen_digits fuel' num den (k - 1)
      else k
  end.

#[global] Instance spec_float_eq_dec : EqDecision spec_float.
Proof. solve_decision. Defined.

(** The shortest decimal [d * 10^(-k)] that [float] reads back as [x],
    looking at [n], [n+1], ... 17 significant digits; of the two [n]-digit
    neighbours of [x] the nearer one that reads back is taken (the even one
    on a tie); at seventeen digits the nearest decimal is taken. *)
Fixpoint shortest_from (todo : nat) (x : spec_float) (num den k : Z) : Z * Z :=
  let '(d, half) := scale10 num den k in
  let lo := bool_decide (decimal_to_float false d (- k) = x) in
  let hi := bool_decide (decimal_to_float false (d + 1) (- k) = x) in
  let nearest :=
    match half with
    | Lt => d
    | Gt => d + 1
    | Eq => if Z.even d then d else d + 1
    end in
  match todo with
  | O => (nearest, k)
  | S todo' =>
      if lo && hi then (nearest, k)
      else if lo then (d, k)
      else if hi then (d + 1, k)
      else shortest_from todo' x num den (k + 1)
  end.

(** The digits of the shortest representation of the positive number
    [m * 2^e], without trailing zeros, and the position of the decimal
    point relative to their start. *)
Definition shortest_digits (m : positive) (e : Z) : string * Z :=
  let '(num, den) :=
    match e with
    | Zneg q => (Zpos m, 2 ^ Zpos q)
    | _ => (Zpos m * 2 ^ e, 1)
    end in
  let est := ((Zpos (digits2_pos m) + e - 1) * 30103) / 100000 in
  let k17 := seventeen_digits 4 num den (16 - est) in
  let '(d, k) := shortest_from 16 (S754_finite false m e) num den (k17 - 16) in
  let ds := decimal_of d in
  (strip_trailing_zeros ds, Z.of_nat (String.length ds) - k).

(** [repr] of the digits [ds] with the decimal point at [decpt]: scientific
    notation when the point falls more than three places to the left of the
    digits or more than sixteen places into them, plain notation with a
    fractional part otherwise. *)
Definition format_repr (ds : string) (decpt : Z) : string :=
  let n := Z.of_nat (String.length ds) in
  if (decpt <=? -4) || (16 <? decpt) then
    let e := decpt - 1 in
    let mant :=
      match ds with
      | String d1 EmptyString => String d1 ""
      | String d1 rest => String d1 ("." +:+ rest)
      | EmptyString => ""
      end in
    let ed := decimal_of (Z.abs e) in
    mant +:+ "e" +:+ (if e <? 0 then "-" else "+")
         +:+ (if Z.abs e <? 10 then "0" +:+ ed else ed)
  else if decpt <=? 0 then "0." +:+ zeros (Z.to_nat (- decpt)) +:+ ds
  else if n <=? decpt then ds +:+ zeros (Z.to_nat (decpt - n)) +:+ ".0"
  else substring 0 (Z.to_nat decpt) ds +:+ "."
       +:+ substring (Z.to_nat decpt) (Z.to_nat (n - decpt)) ds.

(** [str(x)] for a [float]. *)
Definition py_str_float (x : spec_float) : string :=
  match x with
  | S754_nan => "nan"
  | S754_infinity neg => if neg then "-inf" else "inf"
  | S754_zero neg => if neg then "-0.0" else "0.0"
  | S754_finite neg m e =>
      let '(ds, decpt) := shortest_digits m e in
      (if neg then "-" else "") +:+ format_repr ds decpt
  end.

(** ** Exceptions

    A computation that may raise returns a [result]; [try]/[except] is a
    case analysis on it. *)

Inductive exn : Set :=
  | ValueError
  | TypeError
  | KeyError
  | AttributeError
  | OverflowError
  | ReError
  | ExternalError (msg : string).

Inductive result (A : Type) : Type :=
  | Ok (a : A)
  | Raise (e : exn).
Arguments Ok {A} a.
Arguments Raise {A} e.

#[global] Instance result_ret : MRet result := λ A, @Ok A.
#[global] Instance result_bind : MBind result := λ A B f m,
  match m with
  | Ok a => f a
  | Raise e => Raise e
  end.

(** [float(x)] where [x] is what [match.group(1)] returned: [None] when the
    group did not take part in the match, a [str] otherwise.  The
    conversion of strings is a parameter of the loops below, so that their
    handling of a failed conversion can be stated for every outcome. *)
Definition float_of_group (to_float : text -> option spec_float)
    (g : option text) : result spec_float :=
  match g with
  | None => Raise TypeError
  | Some s =>
      match to_float s with
      | Some x => Ok x
      | None => Raise ValueError
      end
  end.

(** The roster, as both scripts list it inside [parse_leaderboard_data]. *)
Definition player_names : list string :=
  ["Merrick"; "Moi"; "Sidney"; "John"; "Lauren"; "Vy"; "Marcus"; "Chris"; "Leslie"].

(** ** The parser of the hosted-OCR script ([imagetoleader.py]) *)

Module Hosted.

Definition patterns (name : string) : list string :=
  [ name +:+ ":\s*(\d+\.\d+)";
    name +:+ "\s*-\s*(\d+\.\d+)";
    name +:+ "\s+(\d+\.\d+)";
    name +:+ "'s time:\s*(\d+\.\d+)";
    name +:+ "\s*=\s*(\d+\.\d+)" ].

Section Parse.
Variable to_float : text -> option spec_float.

(** The inner [for pattern in patterns] loop for one name: [break] after
    the first match that converts, [continue] on [ValueError]; any other
    exception leaves the function. *)
Fixpoint try_patterns (pats : list string) (s : text) (name : string)
    (data : gmap string string) : result (gmap string string) :=
  match pats with
  | [] => Ok data
  | pattern :: pats' =>
      match re_search pattern s with
      | None => Raise ReError
      | Some None => try_patterns pats' s name data
      | Some (Some m) =>
          match float_of_group to_float (group1 m) with
          | Ok time_value => Ok (<[name := py_str_float time_value]> data)
          | Raise ValueError => try_patterns pats' s name data
          | Raise e => Raise e
          end
      end
  end.

(** The outer [for name in player_names] loop. *)
Fixpoint for_names (names : list string) (s : text)
    (data : gmap string string) : result (gmap string string) :=
  match names with
  | [] => Ok data
  | name :: names' =>
      data' ← try_patterns (patterns name) s name data;
      for_names names' s data'
  end.

Definition parse_leaderboard_data_with (s : text) : result (gmap string string) :=
  for_names player_names s ∅.
End Parse.

Definition parse_leaderboard_data : text -> result (gmap string string) :=
  parse_leaderboard_data_with py_float.

End Hosted.

(** ** The parser of the local-OCR script *)

Module Base.

Definition patterns (name : string) : list string :=
  [ name +:+ ":\s*(\d+\.\d+)";
    name +:+ "\s*-\s*(\d+\.\d+)";
    name +:+ "\s+(\d+\.\d+)" ].

Section Parse.
Variable to_float : text -> option spec_float.

(** The inner loop: [break] after the first match; the conversion is not
    guarded, an exception it raises leaves the function. *)
Fixpoint try_patterns (pats : list string) (s : text) (name : string)
    (data : gmap string string) : result (gmap string string) :=
  match pats with
  | [] => Ok data
  | pattern :: pats' =>
      match re_search pattern s with
      | None => Raise ReError
      | Some None => try_patterns pats' s name data
      | Some (Some m) =>
          time_value ← float_of_group to_float (group1 m);
          Ok (<[name := py_str_float time_value]> data)
      end
  end.

Fixpoint for_names (names : list string) (s : text)
    (data : gmap string string) : result (gmap string string) :=
  match names with
  | [] => Ok data
  | name :: names' =>
      data' ← try_patterns (patterns name) s name data;
      for_names names' s data'
  end.

Definition parse_leaderboard_data_with (s : text) : result (gmap string string) :=
  for_names player_names s ∅.
End Parse.

Definition parse_leaderboard_data : text -> result (gmap string string) :=
  parse_leaderboard_data_with py_float.

End Base.

(** ** JSON values and the dynamic operations the scripts apply to them *)

#[warnings="-register-all"]
Inductive json : Type :=
  | JNull
  | JBool (b : bool)
  | JInt (n : Z)
  | JFloat (x : spec_float)
  | JStr (s : text)
  | JList (l : list json)
  | JDict (d : list (text * json)).

(** A [dict] with string keys is an association list in which the first
    binding of a key counts. *)
Fixpoint dict_lookup (key : text) (d : list (text * json)) : option json :=
  match d with
  | [] => None
  | (k, v) :: d' => if bool_decide (k = key) then Some v else dict_lookup key d'
  end.

(** [x[key]] for a string key. *)
Definition py_getitem (x : json) (key : string) : result json :=
  match x with
  | JDict d =>
      match dict_lookup (text_of key) d with
      | Some v => Ok v
      | None => Raise KeyError
      end
  | _ => Raise TypeError
  end.

(** [x.get(key, default)]: only a [dict] has the method. *)
Definition py_get (x : json) (key : string) (default : json) : result json :=
  match x with
  | JDict d =>
      match dict_lookup (text_of key) d with
      | Some v => Ok v
      | None => Ok default
      end
  | _ => Raise AttributeError
  end.

(** The elements a [for] loop over [x] visits. *)
Definition py_iter (x : json) : result (list json) :=
  match x with
  | JList l => Ok l
  | JDict d => Ok (map (λ kv, JStr (fst kv)) d)
  | JStr s => Ok (map (λ c, JStr [c]) s)
  | _ => Raise TypeError
  end.

(** [s += x] for a [str] [s]. *)
Definition py_str_add (s : text) (x : json) : result text :=
  match x with
  | JStr t => Ok (s ++ t)%list
  | _ => Raise TypeError
  end.

(** [x != 1]. *)
Definition py_ne_one (x : json) : bool :=
  match x with
  | JInt n => negb (n =? 1)%Z
  | JBool b => negb b
  | JFloat y => negb (SFeqb y (S754_finite false 4503599627370496 (-52)))
  | _ => true
  end.

Definition int_max_str_digits : nat := 4300.

(** [str(n)] for an [int]: the decimal numeral; an integer with more
    digits than the interpreter's limit for conversions raises
    [ValueError]. *)
Definition py_str_int (n : Z) : result string :=
  if (String.length (decimal_of (Z.abs n)) <=? int_max_str_digits)%nat
  then Ok (decimal_repr n)
  else Raise ValueError.

(** [int(s)] for a [str]: white space around, a sign, decimal digits of any
    script with single underscores between them, and no more digits than
    the interpreter's limit for conversions. *)
Definition py_int_str (s : text) : option Z :=
  s' ← remove_underscores 0 (strip (transform_decimal_and_space s));
  let '(neg, ds) := split_sign s' in
  match span_digits ds with
  | (_ :: _, []) =>
      if (length ds <=? int_max_str_digits)%nat
      then Some (if neg then - digits_value 0 ds else digits_value 0 ds)
      else None
  | _ => None
  end.

(** [int(x)] for a [float]: truncation towards zero. *)
Definition py_int_float (x : spec_float) : result Z :=
  match x with
  | S754_zero _ => Ok 0
  | S754_finite neg m e =>
      let a := match e with
               | Zneg k => Z.shiftr (Zpos m) (Zpos k)
               | _ => Z.shiftl (Zpos m) e
               end in
      Ok (if neg then - a else a)
  | S754_infinity _ => Raise OverflowError
  | S754_nan => Raise ValueError
  end.

(** [int(x)]. *)
Definition py_int (x : json) : result Z :=
  match x with
  | JInt n => Ok n
  | JBool b => Ok (if b then 1 else 0)
  | JFloat y => py_int_float y
  | JStr s =>
      match py_int_str s with
      | Some n => Ok n
      | None => Raise ValueError
      end
  | _ => Raise TypeError
  end.

(** ** The page: messages, settings and the outside world

    A function of the scripts runs against the settings typed into the side
    bar, the clock and the network, and may show messages on the page. *)

Inductive detail : Type :=
  | NoDetail
  | ExnDetail (e : exn)
  | TextDetail (t : text)
  | JsonDetail (j : json).

(** [st.error(f"...{x}")]: the literal part and the value formatted into it. *)
Record message : Type := StError { msg_text : string; msg_detail : detail }.

Record http_response : Type := {
  status_code : Z;
  response_text : text;
  response_json : result json   (* [response.json()] *)
}.

Record env : Type := {
  ocr_api_key : string;
  now_isoformat : string;       (* [datetime.now().isoformat()] *)
  requests_post : string -> list (string * string) -> result http_response
}.

Definition ui (A : Type) : Type := env -> list message -> result A * list message.

Definition ui_ret {A} (a : A) : ui A := λ _ log, (Ok a, log).

Definition ui_bind {A B} (m : ui A) (k : A -> ui B) : ui B := λ e log,
  match m e log with
  | (Ok a, log') => k a e log'
  | (Raise x, log') => (Raise x, log')
  end.

#[global] Instance ui_mret : MRet ui := @ui_ret.
#[global] Instance ui_mbind : MBind ui := λ A B k m, ui_bind m k.

Definition lift {A} (r : result A) : ui A := λ _ log, (r, log).

Definition ask : ui env := λ e log, (Ok e, log).

Definition st_error (t : string) (d : detail) : ui unit := λ _ log,
  (Ok tt, (log ++ [StError t d])%list).

(** [try: body except Exception as e: handler(e)]. *)
Definition try_except {A} (body : ui A) (handler : exn -> ui A) : ui A := λ e log,
  match body e log with
  | (Ok a, log') => (Ok a, log')
  | (Raise x, log') => handler x e log'
  end.

(** ** The store gateway (both scripts) *)

(** What [execute()] returns: [response.data], the rows of the answer. *)
Record api_response : Type := { response_data : list json }.

(** The Supabase client, as far as the scripts use it: the query
    [table(t).select(c).order(o).limit(n).execute()] and
    [table(t).insert(record).execute()], each of which may raise. *)
Record Client : Type := {
  select_execute : string -> string -> string -> Z -> result api_response;
  insert_execute : string -> gmap string string -> result api_response
}.

Definition get_next_id (supabase : Client) : ui Z :=
  try_except
    (response ← lift (select_execute supabase "crossword_times" "id" "id.desc" 1);
     match response_data response with
     | row :: _ =>
         v ← lift (py_getitem row "id");
         n ← lift (py_int v);
         mret (n + 1)
     | [] => mret 1
     end)
    (λ e, st_error "Error getting next ID: " (ExnDetail e);; mret 1).

(** The record with the three fixed fields, then [record[player] = time]
    for every item of [data]. *)
Definition record_with (id date now : string)
    (data : gmap string string) : gmap string string :=
  map_fold (λ player time record, <[player := time]> record)
    (<["created_at" := now]> (<["date" := date]> {["id" := id]}))
    data.

(** The record [update_database] builds before the insertion; its [id] is
    [str(next_id)], which may raise. *)
Definition insertion_record (next_id : Z) (date now : string)
    (data : gmap string string) : result (gmap string string) :=
  id ← py_str_int next_id;
  Ok (record_with id date now data).

Definition update_database (supabase : Client) (data : gmap string string)
    (date : string) : ui (bool * option Z) :=
  try_except
    (next_id ← get_next_id supabase;
     e ← ask;
     record ← lift (insertion_record next_id date (now_isoformat e) data);
     response ← lift (insert_execute supabase "crossword_times" record);
     match response_data response with
     | _ :: _ => mret (true, Some next_id)
     | [] => mret (false, None)
     end)
    (λ e, st_error "Error updating database: " (ExnDetail e);; mret (false, None)).

(** ** The hosted text extractor ([imagetoleader.py]) *)

Definition b64_alphabet : string :=
  "ABCDEFGHIJKLMNOPQRSTUVWXYZabcdefghijklmnopqrstuvwxyz0123456789+/".

Definition b64_char (n : N) : ascii :=
  match String.get (N.to_nat n) b64_alphabet with
  | Some a => a
  | None => "="%char
  end.

(** [base64.b64encode(bs).decode('utf-8')]. *)
Fixpoint b64encode (bs : list byte) : string :=
  match bs with
  | [] => ""
  | [a] =>
      let a := Byte.to_N a in
      String (b64_char (a / 4)) (String (b64_char (a mod 4 * 16)) "==")
  | [a; b] =>
      let a := Byte.to_N a in
      let b := Byte.to_N b in
      String (b64_char (a / 4)) (String (b64_char (a mod 4 * 16 + b / 16))
        (String (b64_char (b mod 16 * 4)) "="))
  | a :: b :: c :: rest =>
      let a := Byte.to_N a in
      let b := Byte.to_N b in
      let c := Byte.to_N c in
      String (b64_char (a / 4)) (String (b64_char (a mod 4 * 16 + b / 16))
        (String (b64_char (b mod 16 * 4 + c / 64)) (String (b64_char (c mod 64))
          (b64encode rest))))
  end%N.

Definition ocr_url : string := "https://api.ocr.space/parse/image".

Definition ocr_payload (key : string) (image_bytes : list byte) : list (string * string) :=
  [ ("apikey", key);
    ("base64Image", "data:image/jpeg;base64," +:+ b64encode image_bytes);
    ("language", "eng");
    ("scale", "true");
    ("isTable", "true");
    ("OCREngine", "2") ].

(** The loop [for page in ...: extracted_text += page.get('ParsedText', '')]. *)
Fixpoint concat_pages (pages : list json) (extracted_text : text) : result text :=
  match pages with
  | [] => Ok extracted_text
  | page :: pages' =>
      t ← py_get page "ParsedText" (JStr []);
      extracted_text' ← py_str_add extracted_text t;
      concat_pages pages' extracted_text'
  end.

(** The body of the [try] block: the request and the reading of the
    answer. *)
Definition ocr_attempt (image_bytes : list byte) : ui text :=
  e ← ask;
  response ← lift (requests_post e ocr_url (ocr_payload (ocr_api_key e) image_bytes));
  if negb (status_code response =? 200) then
    st_error "OCR.space API error: " (TextDetail (response_text response));;
    mret []
  else
    result ← lift (response_json response);
    exit_code ← lift (py_getitem result "OCRExitCode");
    if py_ne_one exit_code then
      msg ← lift (py_get result "ErrorMessage" (JStr (text_of "Unknown error")));
      st_error "OCR processing failed: " (JsonDetail msg);;
      mret []
    else
      parsed ← lift (py_get result "ParsedResults" (JList []));
      pages ← lift (py_iter parsed);
      lift (concat_pages pages []).

Definition extract_text_from_image_ocrspace (image_bytes : list byte) : ui text :=
  e ← ask;
  if bool_decide (ocr_api_key e = "") then
    st_error "OCR.space API Key is required" NoDetail;; mret []
  else
    try_except
      (ocr_attempt image_bytes)
      (λ x, st_error "Error extracting text from image: " (ExnDetail x);; mret []).

(** ** Vocabulary of the statements *)

#[global] Instance atom_eq_dec : EqDecision atom.
Proof. solve_decision. Defined.

#[global] Instance node_eq_dec : EqDecision node.
Proof. solve_decision. Defined.

(** The compiled form of the group [(\d+\.\d+)] every pattern ends with. *)
Definition time_group : list node :=
  [NOpen; NPlus ADigit; NOne (ALit 0x2e); NPlus ADigit; NClose].

Definition node_plain (n : node) : bool :=
  match n with
  | NOpen | NClose => false
  | _ => true
  end.

Fixpoint ends_with_time_group (ns : list node) : bool :=
  bool_decide (ns = time_group) ||
  match ns with
  | n :: ns' => node_plain n && ends_with_time_group ns'
  | [] => false
  end.

(** The compiled form of a name: its letters, one literal each. *)
Definition name_nodes (name : string) : list node :=
  map (λ a, NOne (ALit (cp a))) (list_ascii_of_string name).

(** A pattern for [name] compiles, starts with the letters of the name and
    ends with the group. *)
Definition pattern_ok (name pattern : string) : bool :=
  match re_compile pattern with
  | Some ns =>
      ends_with_time_group ns &&
      bool_decide (take (String.length name) ns = name_nodes name)
  | None => false
  end.

(** What the group [(\d+\.\d+)] can capture: decimal digits (of any
    script), a full stop, decimal digits. *)
Definition decimal_capture (cap : text) : Prop :=
  ∃ ds1 ds2, cap = (ds1 ++ 0x2e%N :: ds2)%list ∧ ds1 ≠ [] ∧ ds2 ≠ [] ∧
             Forall (λ c, is_decimal c = true) ds1 ∧
             Forall (λ c, is_decimal c = true) ds2.

(** The name occurs at the head of the text, letter case ignored as
    [re.IGNORECASE] does. *)
Fixpoint name_at (name : string) (s : text) : bool :=
  match name with
  | EmptyString => true
  | String a name' =>
      match s with
      | c :: s' => literal_matches (cp a) c && name_at name' s'
      | [] => false
      end
  end.

(** The name occurs somewhere in the text. *)
Fixpoint contains_name (name : string) (s : text) : bool :=
  name_at name s ||
  match s with
  | [] => false
  | _ :: s' => contains_name name s'
  end.

(** The number is +0, a positive finite number or +infinity. *)
Definition float_nonneg (x : spec_float) : bool :=
  match x with
  | S754_zero false | S754_infinity false | S754_finite false _ _ => true
  | _ => false
  end.


(** The number a pattern yields on a text: its capture, converted. *)
Definition pattern_hit (to_float : text -> option spec_float) (s : text)
    (pattern : string) : option spec_float :=
  match re_search pattern s with
  | Some (Some m) => group1 m ≫= to_float
  | _ => None
  end.

(** The number of the first pattern, in the order of the list, that yields
    one. *)
Definition first_hit (to_float : text -> option spec_float) (s : text)
    (pats : list string) : option spec_float :=
  head (omap (pattern_hit to_float s) pats).

(** The match object of the first pattern, in the order of the list, that
    matches the text. *)
Definition first_match (s : text) (pats : list string) : option re_match :=
  head (omap (λ p, match re_search p s with Some (Some m) => Some m | _ => None end) pats).

Definition entry (data : gmap string string) (name : string)
    (hit : option spec_float) : gmap string string :=
  match hit with
  | Some x => <[name := py_str_float x]> data
  | None => data
  end.

Definition lookup_after (to_float : text -> option spec_float)
    (patterns : string -> list string) (names : list string)
    (s : text) (data : gmap string string) (name : string) : option string :=
  match (if decide (name ∈ names) then first_hit to_float s (patterns name) else None) with
  | Some x => Some (py_str_float x)
  | None => data !! name
  end.

(** The query [get_next_id] sends. *)
Abbreviation max_id_query supabase :=
  (select_execute supabase "crossword_times" "id" "id.desc" 1).

(** The request the extractor sends. *)
Abbreviation ocr_post e image_bytes :=
  (requests_post e ocr_url (ocr_payload (ocr_api_key e) image_bytes)).

(** [page.get('ParsedText', '')] is the string [t]. *)
Abbreviation page_text page t := (py_get page "ParsedText" (JStr []) = Ok (JStr t)).

(** Pattern number [i] of the list matches the text with match object [m],
    and no other pattern of the list matches. *)
Definition only_match (pats : list string) (s : text) (i : nat) (m : re_match) : Prop :=
  (∃ p, pats !! i = Some p ∧ re_search p s = Some (Some m)) ∧
  ∀ j p, j ≠ i → pats !! j = Some p → re_search p s = Some None.

(** The same character, or the same ASCII letter in its two cases. *)
Definition same_letter (c c' : codepoint) : Prop := lower_ascii c = lower_ascii c'.

(** Two texts that differ only in the case of ASCII letters. *)
Definition same_ignoring_case (s s' : text) : Prop := Forall2 same_letter s s'.

(** The same relation on the positions of the group and on captures. *)
Definition marks_alike (mk mk' : marks) : Prop :=
  option_Forall2 same_ignoring_case (m_open mk) (m_open mk') ∧
  option_Forall2 same_ignoring_case (m_close mk) (m_close mk').

Definition groups_alike (m m' : re_match) : Prop :=
  option_Forall2 same_ignoring_case (group1 m) (group1 m').

(** ** Concrete inputs of the examples *)

(** A conversion that refuses one capture, to exercise the guard. *)
Definition float_refusing (bad : text) (cap : text) : option spec_float :=
  if bool_decide (cap = bad) then None else py_float cap.

(** A time made of a one, [n] further ones and [.0], and the line that
    gives it to Vy. *)
Definition ones_capture (n : nat) : text :=
  (0x31%N :: repeat 0x31%N n ++ [0x2e%N; 0x30%N])%list.

Definition ones_time (n : nat) : text :=
  0x56%N :: 0x79%N :: 0x20%N :: ones_capture n.

(** A time with more digits than [float] accepts: a one, then as many
    ones as the limit, then [.0]. *)
Definition overlimit_capture : text := ones_capture (Z.to_nat max_float_digits).

Definition overlimit_time : text := ones_time (Z.to_nat max_float_digits).


Definition row_of_id (n : Z) : json := JDict [(text_of "id", JInt n)].

(** The greatest identifier [str] still writes: 4300 nines. *)
Definition widest_id : Z := 10 ^ 4300 - 1.

(** A client whose table answers the query with [rows] and accepts every
    insertion, answering with one row. *)
Definition client_answering (rows : list json) : Client :=
  {| select_execute := λ _ _ _ _, Ok {| response_data := rows |};
     insert_execute := λ _ _, Ok {| response_data := [JDict []] |} |}.

(** A reference table holding the rows with the identifiers [ids]: the
    query [order("id.desc").limit(n)] answers with the [n] largest, largest
    first. *)
Fixpoint insert_desc (x : Z) (l : list Z) : list Z :=
  match l with
  | [] => [x]
  | y :: l' => if y <=? x then x :: l else y :: insert_desc x l'
  end.

Definition sort_desc (l : list Z) : list Z := foldr insert_desc [] l.

Definition table_client (ids : list Z) : Client :=
  {| select_execute := λ _ _ _ limit,
       Ok {| response_data := map row_of_id (take (Z.to_nat limit) (sort_desc ids)) |};
     insert_execute := λ _ _, Ok {| response_data := [JDict []] |} |}.

(** The greatest element of a list of integers. *)
Definition greatest (ids : list Z) : option Z :=
  foldr (λ x acc, Some (match acc with Some m => Z.max x m | None => x end)) None ids.

(** No key, no network. *)
Definition offline_env : env :=
  {| ocr_api_key := "";
     now_isoformat := "2024-01-01T00:00:00";
     requests_post := λ _ _, Raise (ExternalError "offline") |}.

(** A provider that answers every request with [response]. *)
Definition env_answering (key : string) (response : http_response) : env :=
  {| ocr_api_key := key;
     now_isoformat := "2024-01-01T00:00:00";
     requests_post := λ _ _, Ok response |}.

Definition two_pages : json :=
  JDict [ (text_of "ParsedResults",
           JList [ JDict [(text_of "ParsedText", JStr (text_of "Merrick: 3.50 "))];
                   JDict [(text_of "ParsedText", JStr (text_of "Vy 4.56"))] ]);
          (text_of "OCRExitCode", JInt 1) ].

Definition ok_response : http_response :=
  {| status_code := 200; response_text := []; response_json := Ok two_pages |}.

(** ** Further functions of the scripts *)

(** The local text extractor; [image_to_string] stands for
    [pytesseract.image_to_string], which may raise. *)
Definition extract_text_from_image {Image : Type}
    (image_to_string : Image -> result text) (image : Image) : ui text :=
  try_except
    (lift (image_to_string image))
    (λ e, st_error "Error extracting text from image: " (ExnDetail e);; mret []).

(** [fetch_recent_entries(supabase, limit)], in both scripts; [main] calls it
    with the default [limit] of 10. *)
Definition fetch_recent_entries (supabase : Client) (limit : Z) : ui (list json) :=
  try_except
    (response ← lift (select_execute supabase "crossword_times" "*" "id.desc" limit);
     mret (response_data response))
    (λ e, st_error "Error fetching recent entries: " (ExnDetail e);; mret []).

(** The input widgets of the page: [st.text_input(label, key=key)] gives the
    text typed into the field. *)
Record widgets : Type := { text_input : string -> string -> text }.

(** The loop of [manual_data_entry] over the names: an empty field is
    skipped, a field [float] accepts is stored as typed, any other field is
    reported. *)
Fixpoint manual_entries (w : widgets) (names : list string)
    (manual_data : gmap string text) : ui (gmap string text) :=
  match names with
  | [] => mret manual_data
  | name :: names' =>
      let time_value :=
        text_input w (name +:+ "'s Time (e.g. 1.23)") ("manual_" +:+ name) in
      manual_data' ←
        match time_value with
        | [] => mret manual_data
        | _ :: _ =>
            match py_float time_value with
            | Some _ => mret (<[name := time_value]> manual_data)
            | None =>
                st_error ("Invalid time format for " +:+ name
                          +:+ ". Please enter a number.") NoDetail;;
                mret manual_data
            end
        end;
      manual_entries w names' manual_data'
  end.

Definition manual_data_entry (w : widgets) : ui (gmap string text) :=
  manual_entries w player_names ∅.

(** The field of the manual form for a name. *)
Definition manual_field (w : widgets) (name : string) : text :=
  text_input w (name +:+ "'s Time (e.g. 1.23)") ("manual_" +:+ name).

(** What the manual form keeps of a field: the text as typed, when it is
    not empty and [float] accepts it. *)
Definition manual_kept (w : widgets) (name : string) : option text :=
  match manual_field w name with
  | [] => None
  | t => match py_float t with Some _ => Some t | None => None end
  end.

(** The message of the manual form for a field that is not a number. *)
Definition manual_rejected (w : widgets) (name : string) : option message :=
  match manual_field w name with
  | [] => None
  | t =>
      match py_float t with
      | Some _ => None
      | None => Some (StError ("Invalid time format for " +:+ name
                               +:+ ". Please enter a number.") NoDetail)
      end
  end.

(** A reference table that honours the ordering of the query: for
    [order("id.desc")] the rows come by descending identifier, for any
    other ordering in the order they are stored; [limit(n)] keeps the
    first [n]. *)
Definition ordered_client (ids : list Z) : Client :=
  {| select_execute := λ _ _ order limit,
       Ok {| response_data :=
               map row_of_id
                 (take (Z.to_nat limit)
                    (if bool_decide (order = "id.desc"%string) then sort_desc ids else ids)) |};
     insert_execute := λ _ _, Ok {| response_data := [JDict []] |} |}.

(** Each element is at most the one before it. *)
Fixpoint descending (l : list Z) : bool :=
  match l with
  | x :: l' =>
      match l' with
      | y :: _ => (y <=? x) && descending l'
      | [] => true
      end
  | [] => true
  end.

(** A store whose queries time out and whose insertions succeed. *)
Definition client_not_answering : Client :=
  {| select_execute := λ _ _ _ _, Raise (ExternalError "timeout");
     insert_execute := λ _ _, Ok {| response_data := [JDict []] |} |}.

(** A reader of images that fails on every image. *)
Definition no_reader (image : list byte) : result text :=
  Raise (ExternalError "tesseract is not installed").

(** * Properties *)

Local Open Scope N_scope.

Ltac roster_elem := apply list_elem_of_In; simpl; tauto.

(** ** The matcher: what the group captures *)

Lemma greedy_inv a k s r :
  greedy a k s = Some r →
  ∃ pre rest, s = pre ++ rest ∧ Forall (λ c, atom_matches a c = true) pre ∧ k rest = Some r.
Proof.
  revert r. induction s as [|c s IH]; intros r; simpl.
  - intros H. exists [], []. auto.
  - destruct (atom_matches a c) eqn:Hc.
    + destruct (greedy a k s) as [r'|] eqn:Hg.
      * intros [= <-]. destruct (IH r' eq_refl) as (pre & rest & -> & Hpre & Hk).
        exists (c :: pre), rest. auto.
      * intros Hk. exists [], (c :: s). auto.
    + intros Hk. exists [], (c :: s). auto.
Qed.

Lemma literal_dot c : literal_matches 0x2e c = true → c = 0x2e.
Proof. unfold literal_matches. simpl. intros H. by apply N.eqb_eq in H. Qed.

Lemma time_group_capture mk s mk' :
  re_match_here time_group mk s = Some mk' →
  ∃ cap rest, decimal_capture cap ∧ m_open mk' = Some (cap ++ rest) ∧ m_close mk' = Some rest.
Proof.
  unfold time_group. cbn [re_match_here].
  destruct s as [|c s]; [done|]. cbn [atom_matches].
  destruct (is_decimal c) eqn:Hc; [|done].
  intros H. apply greedy_inv in H as (ds1 & s1 & -> & Hds1 & H).
  destruct s1 as [|dot s1]; [done|]. cbn [atom_matches] in H.
  destruct (literal_matches 46 dot) eqn:Hdot; [|done]. apply literal_dot in Hdot as ->.
  destruct s1 as [|d s1]; [done|].
  destruct (is_decimal d) eqn:Hd; [|done].
  apply greedy_inv in H as (ds2 & rest & -> & Hds2 & H).
  injection H as <-. cbn.
  exists ((c :: ds1) ++ 46 :: d :: ds2), rest. split_and!.
  - exists (c :: ds1), (d :: ds2). split_and!; auto.
  - f_equal. rewrite <- !app_assoc. by simpl.
  - done.
Qed.

Lemma ends_with_time_group_capture ns mk s mk' :
  ends_with_time_group ns = true →
  re_match_here ns mk s = Some mk' →
  ∃ cap rest, decimal_capture cap ∧ m_open mk' = Some (cap ++ rest) ∧ m_close mk' = Some rest.
Proof.
  revert mk s. induction ns as [|n ns IH]; intros mk s; [done|].
  cbn [ends_with_time_group]. intros Hns.
  apply orb_true_iff in Hns as [Hns|Hns].
  { apply bool_decide_eq_true in Hns. rewrite Hns. apply time_group_capture. }
  apply andb_true_iff in Hns as [Hn Hns].
  destruct n as [a|a|a| |]; try done; cbn [re_match_here].
  - destruct s as [|c s]; [done|]. destruct (atom_matches a c); [|done]. by apply IH.
  - intros H. apply greedy_inv in H as (? & rest & _ & _ & H). by eapply IH.
  - destruct s as [|c s]; [done|]. destruct (atom_matches a c); [|done].
    intros H. apply greedy_inv in H as (? & rest & _ & _ & H). by eapply IH.
Qed.

Lemma match_of_marks_capture mk cap rest :
  m_open mk = Some (cap ++ rest) → m_close mk = Some rest →
  group1 (match_of_marks mk) = Some cap.
Proof.
  intros Ho Hc. unfold match_of_marks. cbn. rewrite Ho, Hc. f_equal.
  rewrite length_app.
  replace (length cap + length rest - length rest)%nat with (length cap) by lia.
  by rewrite take_app_length.
Qed.

Lemma search_from_capture ns s m :
  ends_with_time_group ns = true →
  search_from ns s = Some m →
  ∃ cap, group1 m = Some cap ∧ decimal_capture cap.
Proof.
  intros Hns.
  assert (∀ t mk, re_match_here ns no_marks t = Some mk →
            ∃ cap, group1 (match_of_marks mk) = Some cap ∧ decimal_capture cap) as Hhere.
  { intros t mk Hm.
    destruct (ends_with_time_group_capture _ _ _ _ Hns Hm) as (cap & rest & Hcap & Ho & Hc).
    exists cap. split; [by eapply match_of_marks_capture|done]. }
  induction s as [|c s IH]; cbn [search_from].
  - destruct (re_match_here ns no_marks []) as [mk|] eqn:Hm; [|done].
    intros [= <-]. by eapply Hhere.
  - destruct (re_match_here ns no_marks (c :: s)) as [mk|] eqn:Hm; [|done].
    intros [= <-]. by eapply Hhere.
Qed.

(** The capture is a piece of the text. *)
Lemma time_group_piece mk s mk' :
  re_match_here time_group mk s = Some mk' →
  ∃ cap rest, s = cap ++ rest ∧ decimal_capture cap ∧
              m_open mk' = Some (cap ++ rest) ∧ m_close mk' = Some rest.
Proof.
  unfold time_group. cbn [re_match_here].
  destruct s as [|c s]; [done|]. cbn [atom_matches].
  destruct (is_decimal c) eqn:Hc; [|done].
  intros H. apply greedy_inv in H as (ds1 & s1 & -> & Hds1 & H).
  destruct s1 as [|dot s1]; [done|]. cbn [atom_matches] in H.
  destruct (literal_matches 46 dot) eqn:Hdot; [|done]. apply literal_dot in Hdot as ->.
  destruct s1 as [|d s1]; [done|].
  destruct (is_decimal d) eqn:Hd; [|done].
  apply greedy_inv in H as (ds2 & rest & -> & Hds2 & H).
  injection H as <-. cbn.
  exists ((c :: ds1) ++ 46 :: d :: ds2), rest. split_and!.
  - rewrite <- !app_assoc. by simpl.
  - exists (c :: ds1), (d :: ds2). split_and!; auto.
  - f_equal. rewrite <- !app_assoc. by simpl.
  - done.
Qed.

Lemma ends_with_time_group_piece ns mk s mk' :
  ends_with_time_group ns = true →
  re_match_here ns mk s = Some mk' →
  ∃ pre cap rest, s = pre ++ cap ++ rest ∧ decimal_capture cap ∧
                  m_open mk' = Some (cap ++ rest) ∧ m_close mk' = Some rest.
Proof.
  revert mk s. induction ns as [|n ns IH]; intros mk s; [done|].
  cbn [ends_with_time_group]. intros Hns.
  apply orb_true_iff in Hns as [Hns|Hns].
  { apply bool_decide_eq_true in Hns. rewrite Hns. intros H.
    apply time_group_piece in H as (cap & rest & -> & H). by exists [], cap, rest. }
  apply andb_true_iff in Hns as [Hn Hns].
  destruct n as [a|a|a| |]; try done; cbn [re_match_here].
  - destruct s as [|c s]; [done|]. destruct (atom_matches a c); [|done].
    intros H. apply IH in H as (pre & cap & rest & -> & H); [|done].
    by exists (c :: pre), cap, rest.
  - intros H. apply greedy_inv in H as (pre0 & rest0 & -> & _ & H).
    apply IH in H as (pre & cap & rest & -> & H); [|done].
    exists (pre0 ++ pre), cap, rest. by rewrite <- app_assoc.
  - destruct s as [|c s]; [done|]. destruct (atom_matches a c); [|done].
    intros H. apply greedy_inv in H as (pre0 & rest0 & -> & _ & H).
    apply IH in H as (pre & cap & rest & -> & H); [|done].
    exists (c :: pre0 ++ pre), cap, rest. simpl. by rewrite <- app_assoc.
Qed.

Lemma search_from_piece ns s m :
  ends_with_time_group ns = true →
  search_from ns s = Some m →
  ∃ pre cap rest, s = pre ++ cap ++ rest ∧ group1 m = Some cap ∧ decimal_capture cap.
Proof.
  intros Hns.
  assert (∀ t mk, re_match_here ns no_marks t = Some mk →
            ∃ pre cap rest, t = pre ++ cap ++ rest ∧
              group1 (match_of_marks mk) = Some cap ∧ decimal_capture cap) as Hhere.
  { intros t mk Hm.
    destruct (ends_with_time_group_piece _ _ _ _ Hns Hm) as (pre & cap & rest & -> & Hcap & Ho & Hc).
    exists pre, cap, rest. split_and!; [done| |done]. by eapply match_of_marks_capture. }
  induction s as [|c s IH]; cbn [search_from].
  - destruct (re_match_here ns no_marks []) as [mk|] eqn:Hm; [|done].
    intros [= <-]. by eapply Hhere.
  - destruct (re_match_here ns no_marks (c :: s)) as [mk|] eqn:Hm.
    + intros [= <-]. by eapply Hhere.
    + intros H. destruct (IH H) as (pre & cap & rest & -> & Hg & Hd).
      by exists (c :: pre), cap, rest.
Qed.

(** ** Rounding keeps the sign *)

Lemma shr_1_nonneg mrs : (0 ≤ shr_m mrs)%Z → (0 ≤ shr_m (shr_1 mrs))%Z.
Proof. destruct mrs as [[|[p|p|]|p] r s]; simpl; lia. Qed.

Lemma iter_pos_nonneg p mrs :
  (0 ≤ shr_m mrs)%Z → (0 ≤ shr_m (SpecFloat.iter_pos shr_1 p mrs))%Z.
Proof.
  revert mrs. induction p as [p IH|p IH|]; intros mrs H; simpl.
  - apply IH, IH. by apply shr_1_nonneg.
  - by apply IH, IH.
  - by apply shr_1_nonneg.
Qed.

Lemma shr_fexp_nonneg m e l :
  (0 ≤ m)%Z → (0 ≤ shr_m (fst (shr_fexp prec emax m e l)))%Z.
Proof.
  intros Hm. unfold shr_fexp, shr.
  assert (0 ≤ shr_m (shr_record_of_loc m l))%Z as H0
    by (by destruct l as [|[]]).
  destruct (fexp prec emax (Zdigits2 m + e) - e)%Z; simpl; auto.
  by apply iter_pos_nonneg.
Qed.

Lemma round_nearest_even_nonneg m l : (0 ≤ m)%Z → (0 ≤ round_nearest_even m l)%Z.
Proof. intros Hm. destruct l as [|[]]; simpl; try lia. destruct (Z.even m); lia. Qed.

Lemma binary_round_aux_nonneg m e l :
  (0 ≤ m)%Z → float_nonneg (binary_round_aux prec emax false m e l) = true.
Proof.
  intros Hm. unfold binary_round_aux.
  pose proof (shr_fexp_nonneg m e l Hm) as H1.
  destruct (shr_fexp prec emax m e l) as [mrs' e'] eqn:E1. simpl in H1.
  pose proof (shr_fexp_nonneg _ e' loc_Exact
                (round_nearest_even_nonneg _ (loc_of_shr_record mrs') H1)) as H2.
  destruct (shr_fexp prec emax _ e' loc_Exact) as [mrs'' e''] eqn:E2. simpl in H2.
  destruct (shr_m mrs''); [done| |lia].
  by destruct (_ <=? _)%Z.
Qed.

Lemma decimal_to_float_nonneg m e :
  (0 ≤ m)%Z → float_nonneg (decimal_to_float false m e) = true.
Proof.
  intros Hm. unfold decimal_to_float. destruct m as [|p|p]; [done| |lia].
  destruct e as [|k|k].
  - unfold binary_round. destruct (shl_align _ _ _) as [mz ez]. by apply binary_round_aux_nonneg.
  - unfold binary_round. destruct (shl_align _ _ _) as [mz ez]. by apply binary_round_aux_nonneg.
  - unfold SFdiv. simpl xorb.
    destruct (SFdiv_core_binary prec emax (Z.pos p) 0 (Z.pos (10 ^ k)) 0) as [[q e'] l] eqn:E.
    apply binary_round_aux_nonneg.
    unfold SFdiv_core_binary in E.
    set (m' := match _ with Z0 => _ | Zpos _ => _ | Zneg _ => _ end) in E.
    assert (0 ≤ m')%Z as Hm'.
    { subst m'. destruct (_ - _ - _)%Z; try lia. apply Z.shiftl_nonneg. lia. }
    pose proof (Z_div_mod m' (Z.pos (10 ^ k)) ltac:(lia)) as Hdiv.
    destruct (Z.div_eucl m' (Z.pos (10 ^ k))) as [q' r']. injection E as <- _ _.
    nia.
Qed.

(** ** [float] reads every capture *)

Ltac nbool :=
  repeat match goal with
    | H : (_ && _) = true |- _ => apply andb_true_iff in H as [? ?]
    | H : (_ || _) = false |- _ => apply orb_false_iff in H as [? ?]
    | H : (_ <=? _) = true |- _ => apply N.leb_le in H
    | H : (_ <=? _) = false |- _ => apply N.leb_gt in H
    | H : (_ <? _) = true |- _ => apply N.ltb_lt in H
    | H : (_ <? _) = false |- _ => apply N.ltb_ge in H
    | H : (_ =? _) = true |- _ => apply N.eqb_eq in H
    | H : (_ =? _) = false |- _ => apply N.eqb_neq in H
    end.

Lemma is_ascii_digit_spec c : is_ascii_digit c = true ↔ 0x30 ≤ c ≤ 0x39.
Proof.
  unfold is_ascii_digit. rewrite andb_true_iff, !N.leb_le. done.
Qed.

Lemma decimal_in_lt runs c d : decimal_in runs c = Some d → d < 10.
Proof.
  induction runs as [|[start len] runs IH]; simpl; [done|].
  destruct (_ && _); [|done]. intros [= <-]. by apply N.mod_lt.
Qed.

Lemma decimal_in_run runs c d :
  decimal_in runs c = Some d →
  ∃ start len, In (start, len) runs ∧ start ≤ c ∧ c < start + len.
Proof.
  induction runs as [|[start len] runs IH]; simpl; [done|].
  destruct (_ && _) eqn:E.
  - intros _. nbool. exists start, len. auto.
  - intros H. destruct (IH H) as (st & ln & ? & ?). exists st, ln. auto.
Qed.

Lemma unicode_decimal_ascii c d :
  unicode_decimal c = Some d → c < 127 → is_ascii_digit c = true.
Proof.
  intros H Hc. apply decimal_in_run in H as (start & len & Hin & Hlo & Hhi).
  assert (forallb (λ r, ((fst r =? 48) && (snd r =? 10)) || (127 <=? fst r))
            decimal_runs = true) as Hall by by vm_compute.
  rewrite forallb_forall in Hall. specialize (Hall _ Hin). simpl in Hall.
  apply orb_true_iff in Hall as [Hall|Hall]; nbool; [|lia].
  apply is_ascii_digit_spec. lia.
Qed.

Lemma space_not_decimal c : is_space c = true → unicode_decimal c = None.
Proof.
  unfold is_space. intros H. apply existsb_exists in H as (x & Hin & Hx).
  nbool. subst x.
  assert (forallb (λ x, negb (is_decimal x)) unicode_spaces = true) as Hall by by vm_compute.
  rewrite forallb_forall in Hall. specialize (Hall c Hin).
  unfold is_decimal in Hall. by destruct (unicode_decimal c).
Qed.

Lemma transform_decimal c s :
  is_decimal c = true →
  ∃ c', transform_decimal_and_space (c :: s) = c' :: transform_decimal_and_space s ∧
        is_ascii_digit c' = true.
Proof.
  unfold is_decimal. destruct (unicode_decimal c) as [d|] eqn:Hd; [intros _|done].
  cbn [transform_decimal_and_space]. destruct (c <? 127) eqn:Hc.
  - exists c. split; [done|]. nbool. by eapply unicode_decimal_ascii.
  - destruct (is_space c) eqn:Hs.
    { apply space_not_decimal in Hs. congruence. }
    rewrite Hd. exists (48 + d). split; [done|].
    apply decimal_in_lt in Hd. apply is_ascii_digit_spec. lia.
Qed.

Lemma transform_decimals ds rest :
  Forall (λ c, is_decimal c = true) ds →
  ∃ ds', transform_decimal_and_space (ds ++ rest) = ds' ++ transform_decimal_and_space rest ∧
         length ds' = length ds ∧
         Forall (λ c, is_ascii_digit c = true) ds'.
Proof.
  induction 1 as [|c ds Hc _ (ds' & IH & Hlen & Hds')].
  - by exists [].
  - destruct (transform_decimal c (ds ++ rest) Hc) as (c' & Hc' & Hd).
    exists (c' :: ds'). simpl app. rewrite Hc', IH. split_and!; simpl; auto.
Qed.

Lemma digit_not_space c : is_ascii_digit c = true → is_ascii_space c = false.
Proof.
  rewrite is_ascii_digit_spec. intros H. unfold is_ascii_space.
  apply orb_false_iff. split.
  - apply andb_false_iff. right. apply N.leb_gt. lia.
  - apply N.eqb_neq. lia.
Qed.

Lemma lstrip_digit c s : is_ascii_digit c = true → lstrip (c :: s) = c :: s.
Proof. intros H. simpl. by rewrite digit_not_space. Qed.

Lemma strip_digits c s d :
  is_ascii_digit c = true → is_ascii_digit d = true →
  strip (c :: s ++ [d]) = c :: s ++ [d].
Proof.
  intros Hc Hd. unfold strip. rewrite lstrip_digit by done.
  assert (rev (c :: s ++ [d]) = d :: rev (c :: s)) as ->
    by (change (c :: s ++ [d]) with ((c :: s) ++ [d]); by rewrite rev_app_distr).
  rewrite lstrip_digit by done.
  change (rev (d :: rev (c :: s))) with (rev (rev (c :: s)) ++ [d]).
  by rewrite rev_involutive.
Qed.

Lemma remove_underscores_none prev s :
  prev ≠ 0x5f → Forall (λ c, c ≠ 0x5f) s → remove_underscores prev s = Some s.
Proof.
  intros Hp Hs. revert prev Hp. induction Hs as [|c s Hc _ IH]; intros prev Hp; simpl.
  - apply N.eqb_neq in Hp. by rewrite Hp.
  - apply N.eqb_neq in Hc, Hp. rewrite Hc, Hp. simpl.
    rewrite IH; [done|]. by apply N.eqb_neq.
Qed.

Lemma span_digits_app ds rest :
  Forall (λ c, is_ascii_digit c = true) ds →
  match rest with c :: _ => is_ascii_digit c = false | [] => True end →
  span_digits (ds ++ rest) = (ds, rest).
Proof.
  intros Hds Hrest. induction Hds as [|c ds Hc _ IH]; simpl.
  - destruct rest as [|c rest]; [done|]. simpl. by rewrite Hrest.
  - by rewrite Hc, IH.
Qed.

Lemma digits_value_nonneg acc ds :
  (0 ≤ acc)%Z → Forall (λ c, is_ascii_digit c = true) ds → (0 ≤ digits_value acc ds)%Z.
Proof.
  intros Hacc Hds. revert acc Hacc. induction Hds as [|c ds Hc _ IH]; intros acc Hacc; simpl; [done|].
  apply IH. apply is_ascii_digit_spec in Hc. lia.
Qed.

Lemma lower_ascii_digit c : is_ascii_digit c = true → lower_ascii c = c.
Proof.
  rewrite is_ascii_digit_spec. intros H. unfold lower_ascii, is_upper_ascii.
  destruct (65 <=? c) eqn:E; nbool; [lia|done].
Qed.

(** A literal of digits, a point and digits within the limit is read as a
    non-negative number; beyond the limit it is refused. *)
Lemma parse_float_literal_decimal ds1 ds2 :
  ds1 ≠ [] →
  Forall (λ c, is_ascii_digit c = true) ds1 →
  Forall (λ c, is_ascii_digit c = true) ds2 →
  parse_float_literal (ds1 ++ 0x2e :: ds2) =
    if digits_within_limit ds1 ds2
    then Some (decimal_to_float false (digits_value 0 (ds1 ++ ds2)) (0 - Z.of_nat (length ds2)))
    else None.
Proof.
  intros Hne H1 H2. destruct ds1 as [|c ds1]; [done|].
  inversion H1 as [|? ? Hc H1']; subst.
  pose proof Hc as Hc'. apply is_ascii_digit_spec in Hc'.
  unfold parse_float_literal. simpl app. cbn [split_sign].
  destruct (c =? 45) eqn:E1; nbool; [lia|].
  destruct (c =? 43) eqn:E2; nbool; [lia|].
  rewrite !bool_decide_eq_false_2; cycle 1.
  { simpl. rewrite lower_ascii_digit by done. intros [= ->]. lia. }
  { simpl. rewrite lower_ascii_digit by done. intros [= ->]. lia. }
  { simpl. rewrite lower_ascii_digit by done. intros [= ->]. lia. }
  simpl orb. cbv iota.
  change (c :: ds1 ++ 46 :: ds2) with ((c :: ds1) ++ 46 :: ds2).
  rewrite span_digits_app by done.
  rewrite N.eqb_refl.
  rewrite <- (app_nil_r ds2) at 1. rewrite span_digits_app by done.
  simpl app at 1.
  destruct (digits_within_limit (c :: ds1) ds2); [|done].
  cbn [parse_exponent]. simpl mbind. done.
Qed.

Lemma strip_digit_point ds1 ds2 :
  ds1 ≠ [] → ds2 ≠ [] →
  Forall (λ c, is_ascii_digit c = true) ds1 →
  Forall (λ c, is_ascii_digit c = true) ds2 →
  strip (ds1 ++ 46 :: ds2) = ds1 ++ 46 :: ds2.
Proof.
  intros Hne1 Hne2 Hd1 Hd2.
  destruct ds1 as [|c ds1]; [done|].
  destruct (exists_last Hne2) as (l & d & ->).
  inversion Hd1; subst. apply Forall_app in Hd2 as [_ Hd]. inversion Hd; subst.
  replace ((c :: ds1) ++ 46 :: l ++ [d]) with (c :: (ds1 ++ 46 :: l) ++ [d])
    by (simpl; by rewrite <- app_assoc).
  by apply strip_digits.
Qed.

(** [float] on a text that the translation to ASCII turns into digits, a
    point and digits. *)
Lemma py_float_of_digits s ds1 ds2 :
  transform_decimal_and_space s = ds1 ++ 46 :: ds2 →
  ds1 ≠ [] → ds2 ≠ [] →
  Forall (λ c, is_ascii_digit c = true) ds1 →
  Forall (λ c, is_ascii_digit c = true) ds2 →
  py_float s =
    if digits_within_limit ds1 ds2
    then Some (decimal_to_float false (digits_value 0 (ds1 ++ ds2)) (0 - Z.of_nat (length ds2)))
    else None.
Proof.
  intros Ht Hne1 Hne2 Hd1 Hd2. unfold py_float. rewrite Ht.
  rewrite remove_underscores_none; [|done|].
  2:{ apply Forall_app. split; [|constructor; [done|]];
      (eapply Forall_impl; [eassumption|]); intros c Hc; apply is_ascii_digit_spec in Hc; lia. }
  simpl mbind. rewrite strip_digit_point by done.
  by apply parse_float_literal_decimal.
Qed.

(** What [float] does with a capture: the ASCII digits [ds1] and [ds2] it
    reads have the lengths of the two digit runs of the capture. *)
Lemma py_float_capture ds1 ds2 :
  ds1 ≠ [] → ds2 ≠ [] →
  Forall (λ c, is_decimal c = true) ds1 →
  Forall (λ c, is_decimal c = true) ds2 →
  ∃ ds1' ds2',
    length ds1' = length ds1 ∧ length ds2' = length ds2 ∧
    Forall (λ c, is_ascii_digit c = true) ds1' ∧
    Forall (λ c, is_ascii_digit c = true) ds2' ∧
    py_float (ds1 ++ 46 :: ds2) =
      if digits_within_limit ds1' ds2'
      then Some (decimal_to_float false (digits_value 0 (ds1' ++ ds2'))
                   (0 - Z.of_nat (length ds2')))
      else None.
Proof.
  intros Hne1 Hne2 H1 H2.
  destruct (transform_decimals ds1 (46 :: ds2) H1) as (ds1' & E1 & Hl1 & Hd1).
  destruct (transform_decimals ds2 [] H2) as (ds2' & E2 & Hl2 & Hd2).
  simpl in E2. rewrite !app_nil_r in E2.
  assert (transform_decimal_and_space (ds1 ++ 46 :: ds2) = ds1' ++ 46 :: ds2') as Ht.
  { rewrite E1. f_equal. change (transform_decimal_and_space (46 :: ds2))
      with (46 :: transform_decimal_and_space ds2). by rewrite E2. }
  assert (ds1' ≠ []) as Hne1' by (destruct ds1', ds1; done).
  assert (ds2' ≠ []) as Hne2' by (destruct ds2', ds2; done).
  exists ds1', ds2'. split_and!; [done..|].
  by apply py_float_of_digits.
Qed.

Lemma drop_zeros_length ds : (length (drop_zeros ds) ≤ length ds)%nat.
Proof.
  induction ds as [|c ds IH]; simpl; [done|]. destruct (c =? 48); simpl; lia.
Qed.

Lemma digits_within_limit_short ds1 ds2 :
  (Z.of_nat (length ds1 + length ds2) ≤ max_float_digits)%Z →
  digits_within_limit ds1 ds2 = true.
Proof.
  intros H. unfold digits_within_limit. apply andb_true_iff. split; apply Z.leb_le.
  - pose proof (drop_zeros_length ds1). pose proof (drop_zeros_length ds2).
    destruct (drop_zeros ds1) as [|c l] eqn:E; [lia|].
    rewrite length_app. lia.
  - lia.
Qed.

Lemma digits_within_limit_long c ds1 ds2 :
  c ≠ 48 →
  (max_float_digits < Z.of_nat (S (length ds1) + length ds2))%Z →
  digits_within_limit (c :: ds1) ds2 = false.
Proof.
  intros Hc H. unfold digits_within_limit. cbn [drop_zeros].
  apply N.eqb_neq in Hc. rewrite Hc. apply andb_false_iff. left.
  apply Z.leb_gt. rewrite length_app. simpl. lia.
Qed.

(** A number read from a capture is not negative. *)
Lemma py_float_capture_nonneg cap x :
  decimal_capture cap → py_float cap = Some x → float_nonneg x = true.
Proof.
  intros (ds1 & ds2 & -> & Hne1 & Hne2 & H1 & H2).
  destruct (py_float_capture ds1 ds2 Hne1 Hne2 H1 H2)
    as (ds1' & ds2' & _ & _ & Hd1 & Hd2 & ->).
  destruct (digits_within_limit ds1' ds2'); [|done]. intros [= <-].
  apply decimal_to_float_nonneg.
  apply digits_value_nonneg; [done|]. by apply Forall_app.
Qed.

(** [float] reads every capture of no more characters than the limit on
    the digits. *)
Lemma py_float_accepts cap :
  decimal_capture cap →
  (Z.of_nat (length cap) ≤ max_float_digits)%Z →
  is_Some (py_float cap).
Proof.
  intros (ds1 & ds2 & -> & Hne1 & Hne2 & H1 & H2) Hlen.
  destruct (py_float_capture ds1 ds2 Hne1 Hne2 H1 H2)
    as (ds1' & ds2' & Hl1 & Hl2 & _ & _ & ->).
  rewrite digits_within_limit_short; [eauto|].
  rewrite length_app in Hlen. simpl in Hlen. lia.
Qed.

Lemma transform_ascii s :
  Forall (λ c, c < 127) s → transform_decimal_and_space s = s.
Proof.
  induction 1 as [|c s Hc _ IH]; simpl; [done|].
  apply N.ltb_lt in Hc. by rewrite Hc, IH.
Qed.

(** ** Rounding stays in range *)

Local Open Scope Z_scope.

















(** ** The loops of the parsers *)

Local Open Scope N_scope.

Lemma hosted_patterns_ok name :
  name ∈ player_names → forallb (pattern_ok name) (Hosted.patterns name) = true.
Proof.
  intros Hin.
  assert (forallb (λ n, forallb (pattern_ok n) (Hosted.patterns n)) player_names = true)
    as Hall by by vm_compute.
  rewrite forallb_forall in Hall. apply Hall. by apply list_elem_of_In.
Qed.

Lemma base_patterns_ok name :
  name ∈ player_names → forallb (pattern_ok name) (Base.patterns name) = true.
Proof.
  intros Hin.
  assert (forallb (λ n, forallb (pattern_ok n) (Base.patterns n)) player_names = true)
    as Hall by by vm_compute.
  rewrite forallb_forall in Hall. apply Hall. by apply list_elem_of_In.
Qed.

Lemma pattern_ok_search name pattern s :
  pattern_ok name pattern = true →
  ∃ ns, re_search pattern s = Some (search_from ns s) ∧
        ends_with_time_group ns = true ∧
        take (String.length name) ns = name_nodes name.
Proof.
  unfold pattern_ok, re_search. destruct (re_compile pattern) as [ns|]; [|done].
  intros H. apply andb_true_iff in H as [H1 H2]. apply bool_decide_eq_true in H2.
  exists ns. done.
Qed.

Lemma pattern_ok_capture name pattern s m :
  pattern_ok name pattern = true →
  re_search pattern s = Some (Some m) →
  ∃ cap, group1 m = Some cap ∧ decimal_capture cap.
Proof.
  intros Hok Hs. destruct (pattern_ok_search _ _ s Hok) as (ns & E & Hns & _).
  rewrite E in Hs. injection Hs as Hs. by eapply search_from_capture.
Qed.

Lemma pattern_ok_piece name pattern s m :
  pattern_ok name pattern = true →
  re_search pattern s = Some (Some m) →
  ∃ pre cap rest, s = pre ++ cap ++ rest ∧ group1 m = Some cap ∧ decimal_capture cap.
Proof.
  intros Hok Hs. destruct (pattern_ok_search _ _ s Hok) as (ns & E & Hns & _).
  rewrite E in Hs. injection Hs as Hs. by eapply search_from_piece.
Qed.

Section Loops.
Variable to_float : text → option spec_float.

Lemma first_hit_cons s p pats :
  first_hit to_float s (p :: pats) =
    match pattern_hit to_float s p with
    | Some x => Some x
    | None => first_hit to_float s pats
    end.
Proof. unfold first_hit. simpl. by destruct (pattern_hit to_float s p). Qed.

Lemma hosted_try_patterns_spec n pats s name data :
  forallb (pattern_ok n) pats = true →
  Hosted.try_patterns to_float pats s name data =
    Ok (entry data name (first_hit to_float s pats)).
Proof.
  induction pats as [|p pats IH]; [done|]. cbn [forallb]. intros H.
  apply andb_true_iff in H as [Hp Hps]. specialize (IH Hps).
  cbn [Hosted.try_patterns]. rewrite first_hit_cons. unfold pattern_hit.
  destruct (pattern_ok_search _ _ s Hp) as (ns & E & _).
  destruct (re_search p s) as [[m|]|] eqn:Hs; [|done|done].
  destruct (pattern_ok_capture _ _ _ _ Hp Hs) as (cap & -> & _). cbn.
  by destruct (to_float cap) as [x|].
Qed.

Lemma first_match_cons s p pats :
  first_match s (p :: pats) =
    match re_search p s with
    | Some (Some m) => Some m
    | _ => first_match s pats
    end.
Proof. unfold first_match. simpl. by destruct (re_search p s) as [[m|]|]. Qed.

Lemma first_match_origin s pats m :
  first_match s pats = Some m → ∃ p, p ∈ pats ∧ re_search p s = Some (Some m).
Proof.
  induction pats as [|p pats IH]; [done|]. rewrite first_match_cons.
  destruct (re_search p s) as [[m'|]|] eqn:E.
  - intros [= ->]. exists p. split; [left|done].
  - intros H. destruct (IH H) as (q & Hq & Hs). exists q. split; [by right|done].
  - intros H. destruct (IH H) as (q & Hq & Hs). exists q. split; [by right|done].
Qed.

(** The unguarded loop: the first pattern that matches decides, and a
    capture the conversion refuses leaves the function. *)
Lemma base_try_patterns_spec n pats s name data :
  forallb (pattern_ok n) pats = true →
  Base.try_patterns to_float pats s name data =
    match first_match s pats with
    | None => Ok data
    | Some m =>
        match group1 m ≫= to_float with
        | Some x => Ok (<[name := py_str_float x]> data)
        | None => Raise ValueError
        end
    end.
Proof.
  induction pats as [|p pats IH]; [done|]. cbn [forallb]. intros H.
  apply andb_true_iff in H as [Hp Hps]. specialize (IH Hps).
  cbn [Base.try_patterns]. rewrite first_match_cons.
  destruct (pattern_ok_search _ _ s Hp) as (ns & E & _).
  destruct (re_search p s) as [[m|]|] eqn:Hs; [|done|done].
  destruct (pattern_ok_capture _ _ _ _ Hp Hs) as (cap & -> & Hcap). cbn.
  by destruct (to_float cap) as [x|].
Qed.

Lemma first_match_None_hit s pats :
  first_match s pats = None → first_hit to_float s pats = None.
Proof.
  induction pats as [|p pats IH]; [done|].
  rewrite first_match_cons, first_hit_cons. unfold pattern_hit.
  destruct (re_search p s) as [[m|]|]; [done|exact IH|exact IH].
Qed.

Lemma first_match_Some_hit s pats m x :
  first_match s pats = Some m → group1 m ≫= to_float = Some x →
  first_hit to_float s pats = Some x.
Proof.
  induction pats as [|p pats IH]; [done|].
  rewrite first_match_cons, first_hit_cons. unfold pattern_hit.
  destruct (re_search p s) as [[m'|]|]; [|exact IH|exact IH].
  intros [= ->] Hx. by rewrite Hx.
Qed.

Lemma base_try_patterns_entry n pats s name data d :
  forallb (pattern_ok n) pats = true →
  Base.try_patterns to_float pats s name data = Ok d →
  d = entry data name (first_hit to_float s pats).
Proof.
  intros Hok. rewrite (base_try_patterns_spec n) by done.
  destruct (first_match s pats) as [m|] eqn:Hm.
  - destruct (group1 m ≫= to_float) as [x|] eqn:Hx; [|done]. intros [= <-].
    by rewrite (first_match_Some_hit s pats m x).
  - intros [= <-]. by rewrite first_match_None_hit.
Qed.

Lemma entry_lookup data name0 hit name :
  entry data name0 hit !! name =
    match (if decide (name = name0) then hit else None) with
    | Some x => Some (py_str_float x)
    | None => data !! name
    end.
Proof.
  destruct hit as [x|]; simpl.
  - rewrite lookup_insert. destruct (decide (name0 = name)), (decide (name = name0)); congruence.
  - by destruct (decide _).
Qed.

Lemma hosted_for_names_spec names s data :
  (∀ name, name ∈ names → name ∈ player_names) →
  ∃ d, Hosted.for_names to_float names s data = Ok d ∧
       ∀ name, d !! name = lookup_after to_float Hosted.patterns names s data name.
Proof.
  revert data. induction names as [|n names IH]; intros data Hin.
  - exists data. split; [done|]. intros name. unfold lookup_after.
    destruct (decide _) as [H|]; [by apply elem_of_nil in H|done].
  - cbn [Hosted.for_names].
    rewrite (hosted_try_patterns_spec n) by (apply hosted_patterns_ok, Hin; left).
    simpl mbind.
    destruct (IH (entry data n (first_hit to_float s (Hosted.patterns n))))
      as (d & -> & Hd); [intros; apply Hin; by right|].
    exists d. split; [done|]. intros name. rewrite Hd. unfold lookup_after.
    rewrite entry_lookup.
    destruct (decide (name = n)) as [->|Hne].
    + rewrite (decide_True (P := n ∈ n :: names)) by left.
      destruct (decide (n ∈ names)); [|done].
      by destruct (first_hit _ _ _).
    + destruct (decide (name ∈ names)) as [Hn|Hn].
      * by rewrite (decide_True (P := name ∈ n :: names)) by by right.
      * rewrite (decide_False (P := name ∈ n :: names)); [done|].
        intros [?|?]%elem_of_cons; done.
Qed.

Lemma base_for_names_ok names s data d :
  (∀ name, name ∈ names → name ∈ player_names) →
  Base.for_names to_float names s data = Ok d →
  ∀ name, d !! name = lookup_after to_float Base.patterns names s data name.
Proof.
  revert data. induction names as [|n names IH]; intros data Hin.
  - intros [= <-] name. unfold lookup_after.
    destruct (decide _) as [H|]; [by apply elem_of_nil in H|done].
  - cbn [Base.for_names].
    destruct (Base.try_patterns to_float (Base.patterns n) s n data) as [data'|x] eqn:Ht;
      [|done].
    apply (base_try_patterns_entry n) in Ht; [|apply base_patterns_ok, Hin; left].
    subst data'. simpl mbind. intros Hd name.
    assert (∀ name, name ∈ names → name ∈ player_names) as Hin'
      by (intros; apply Hin; by right).
    rewrite (IH _ Hin' Hd name).
    unfold lookup_after. rewrite entry_lookup.
    destruct (decide (name = n)) as [->|Hne].
    + rewrite (decide_True (P := n ∈ n :: names)) by left.
      destruct (decide (n ∈ names)); [|done].
      by destruct (first_hit _ _ _).
    + destruct (decide (name ∈ names)) as [Hn|Hn].
      * by rewrite (decide_True (P := name ∈ n :: names)) by by right.
      * rewrite (decide_False (P := name ∈ n :: names)); [done|].
        intros [?|?]%elem_of_cons; done.
Qed.

Lemma base_for_names_total names s data :
  (∀ name, name ∈ names → name ∈ player_names) →
  (∀ name m, name ∈ names → first_match s (Base.patterns name) = Some m →
             is_Some (group1 m ≫= to_float)) →
  ∃ d, Base.for_names to_float names s data = Ok d.
Proof.
  revert data. induction names as [|n names IH]; intros data Hin Hconv; [by eexists|].
  cbn [Base.for_names].
  rewrite (base_try_patterns_spec n) by (apply base_patterns_ok, Hin; left).
  destruct (first_match s (Base.patterns n)) as [m|] eqn:Hm.
  - destruct (Hconv n m) as [x ->]; [left|done|]. simpl mbind.
    apply IH; intros; [apply Hin|eapply Hconv]; by try right.
  - simpl mbind. apply IH; intros; [apply Hin|eapply Hconv]; by try right.
Qed.

(** The first roster name whose first match is refused stops the loop. *)
Lemma base_for_names_raise names s data name m :
  (∀ name, name ∈ names → name ∈ player_names) →
  name ∈ names → first_match s (Base.patterns name) = Some m →
  group1 m ≫= to_float = None →
  Base.for_names to_float names s data = Raise ValueError.
Proof.
  revert data. induction names as [|n names IH]; intros data Hin Hname Hm Hx.
  { by apply elem_of_nil in Hname. }
  cbn [Base.for_names].
  rewrite (base_try_patterns_spec n) by (apply base_patterns_ok, Hin; left).
  destruct (first_match s (Base.patterns n)) as [m'|] eqn:Hm'.
  - destruct (group1 m' ≫= to_float) as [x|] eqn:Hx'; [|done]. simpl mbind.
    apply elem_of_cons in Hname as [->|Hname]; [congruence|].
    apply IH; [intros; apply Hin; by right|done..].
  - simpl mbind.
    apply elem_of_cons in Hname as [->|Hname]; [congruence|].
    apply IH; [intros; apply Hin; by right|done..].
Qed.
End Loops.

(** ** The first pattern that yields a number *)

Section Hits.
Variable to_float : text → option spec_float.

Lemma first_hit_None s pats :
  first_hit to_float s pats = None ↔
  ∀ p, p ∈ pats → pattern_hit to_float s p = None.
Proof.
  induction pats as [|p pats IH].
  - split; [|done]. intros _ p Hp. by apply elem_of_nil in Hp.
  - rewrite first_hit_cons. split.
    + intros H q Hq. destruct (pattern_hit to_float s p) eqn:E; [done|].
      apply elem_of_cons in Hq as [->|Hq]; [done|]. by apply IH.
    + intros H. rewrite (H p) by left. apply IH. intros q Hq. apply H. by right.
Qed.

Lemma first_hit_at s pats i p x :
  pats !! i = Some p →
  pattern_hit to_float s p = Some x →
  (∀ j q, (j < i)%nat → pats !! j = Some q → pattern_hit to_float s q = None) →
  first_hit to_float s pats = Some x.
Proof.
  revert i. induction pats as [|q pats IH]; intros i Hi Hx Hbefore; [done|].
  rewrite first_hit_cons. destruct i as [|i]; simpl in Hi.
  - injection Hi as ->. by rewrite Hx.
  - rewrite (Hbefore 0%nat q) by (lia || done).
    apply (IH i); [done..|]. intros j r Hj Hr. apply (Hbefore (S j) r); [lia|done].
Qed.

Lemma first_hit_Some s pats x :
  first_hit to_float s pats = Some x →
  ∃ i p, pats !! i = Some p ∧ pattern_hit to_float s p = Some x ∧
         ∀ j q, (j < i)%nat → pats !! j = Some q → pattern_hit to_float s q = None.
Proof.
  induction pats as [|q pats IH]; [done|]. rewrite first_hit_cons.
  destruct (pattern_hit to_float s q) as [y|] eqn:E.
  - intros [= ->]. exists 0%nat, q. split_and!; [done..|]. intros; lia.
  - intros H. destruct (IH H) as (i & p & Hi & Hp & Hbefore).
    exists (S i), p. split_and!; [done..|].
    intros [|j] r Hj Hr; simpl in Hr; [by injection Hr as <-|].
    apply (Hbefore j); [lia|done].
Qed.

Lemma pattern_hit_Some s p x :
  pattern_hit to_float s p = Some x ↔
  ∃ m cap, re_search p s = Some (Some m) ∧ group1 m = Some cap ∧ to_float cap = Some x.
Proof.
  unfold pattern_hit. split.
  - destruct (re_search p s) as [[m|]|]; [|done..].
    destruct (group1 m) as [cap|] eqn:E; [|done]. simpl. intros H. by exists m, cap.
  - intros (m & cap & -> & Hc & Hx). by rewrite Hc.
Qed.

Lemma hosted_parse_spec s :
  ∃ d, Hosted.parse_leaderboard_data_with to_float s = Ok d ∧
       ∀ name, d !! name =
         if decide (name ∈ player_names)
         then py_str_float <$> first_hit to_float s (Hosted.patterns name)
         else None.
Proof.
  destruct (hosted_for_names_spec to_float player_names s ∅) as (d & Hd & Hl); [done|].
  exists d. split; [done|]. intros name. rewrite Hl. unfold lookup_after.
  destruct (decide _); [|done]. by destruct (first_hit _ _ _).
Qed.

Lemma base_parse_ok s d :
  Base.parse_leaderboard_data_with to_float s = Ok d →
  ∀ name, d !! name =
    if decide (name ∈ player_names)
    then py_str_float <$> first_hit to_float s (Base.patterns name)
    else None.
Proof.
  intros Hd name.
  rewrite (base_for_names_ok to_float player_names s ∅ d) by done.
  unfold lookup_after. destruct (decide _); [|done]. by destruct (first_hit _ _ _).
Qed.

Lemma base_parse_returns s :
  (∀ name m, name ∈ player_names → first_match s (Base.patterns name) = Some m →
             is_Some (group1 m ≫= to_float)) →
  ∃ d, Base.parse_leaderboard_data_with to_float s = Ok d.
Proof. intros H. by apply base_for_names_total. Qed.

Lemma base_parse_raise s name m :
  name ∈ player_names → first_match s (Base.patterns name) = Some m →
  group1 m ≫= to_float = None →
  Base.parse_leaderboard_data_with to_float s = Raise ValueError.
Proof. intros Hin Hm Hx. by apply (base_for_names_raise to_float _ _ _ name m). Qed.
End Hits.

Lemma patterns_ok_elem name patterns p :
  forallb (pattern_ok name) (patterns name) = true → p ∈ patterns name → pattern_ok name p = true.
Proof. rewrite forallb_forall. intros H Hp. apply H. by apply list_elem_of_In. Qed.

(** What the first match of a roster name captured is a piece of the text
    made of digits, a full stop and digits. *)
Lemma first_match_capture name s m :
  name ∈ player_names → first_match s (Base.patterns name) = Some m →
  ∃ pre cap rest, s = pre ++ cap ++ rest ∧ group1 m = Some cap ∧ decimal_capture cap.
Proof.
  intros Hin Hm. apply first_match_origin in Hm as (p & Hp & Hs).
  apply (pattern_ok_piece name p s m); [|done].
  eapply patterns_ok_elem; [by apply base_patterns_ok|done].
Qed.

(** A text of no more characters than [float] takes digits: every capture
    converts, and the unguarded parser returns. *)
Lemma base_parse_short s :
  (Z.of_nat (length s) ≤ max_float_digits)%Z →
  ∃ d, Base.parse_leaderboard_data s = Ok d.
Proof.
  intros Hlen. apply base_parse_returns. intros name m Hin Hm.
  destruct (first_match_capture name s m Hin Hm) as (pre & cap & rest & -> & -> & Hcap).
  simpl. apply py_float_accepts; [done|].
  rewrite !length_app in Hlen. lia.
Qed.

(** Exactly one template matches and its capture converts: the number is
    the first hit. *)
Lemma only_match_hit (name : string) (patterns : string → list string) s i m cap x :
  only_match (patterns name) s i m →
  group1 m = Some cap → py_float cap = Some x →
  first_hit py_float s (patterns name) = Some x.
Proof.
  intros [(p & Hi & Hs) Hothers] Hc Hx.
  apply (first_hit_at _ _ _ i p); [done| |].
  - apply pattern_hit_Some. by exists m, cap.
  - intros j q Hj Hq. unfold pattern_hit. rewrite (Hothers j q) by (lia || done). done.
Qed.

(** ** Entries and occurrences of names *)

Lemma name_nodes_match name rest mk s r :
  re_match_here (name_nodes name ++ rest) mk s = Some r → name_at name s = true.
Proof.
  revert s. induction name as [|a name IH]; intros s; [done|].
  unfold name_nodes. simpl. fold (name_nodes name).
  destruct s as [|c s]; [done|].
  destruct (literal_matches (cp a) c); [|done]. simpl. apply IH.
Qed.

Lemma search_from_contains name rest s m :
  search_from (name_nodes name ++ rest) s = Some m → contains_name name s = true.
Proof.
  induction s as [|c s IH]; cbn [search_from contains_name].
  - destruct (re_match_here _ _ _) eqn:E; [|done]. intros _.
    apply name_nodes_match in E. by rewrite E.
  - destruct (re_match_here _ _ _) eqn:E.
    + intros _. apply name_nodes_match in E. by rewrite E.
    + intros H. rewrite (IH H). by rewrite orb_true_r.
Qed.

Lemma pattern_ok_contains name pattern s m :
  pattern_ok name pattern = true →
  re_search pattern s = Some (Some m) →
  contains_name name s = true.
Proof.
  intros Hok Hs. destruct (pattern_ok_search _ _ s Hok) as (ns & E & _ & Hname).
  rewrite E in Hs. injection Hs as Hs.
  rewrite <- (take_drop (String.length name) ns), Hname in Hs.
  by eapply search_from_contains.
Qed.

(** What an entry of the result says about the text. *)
Lemma entry_origin patterns (d : gmap string string) s name v :
  (∀ n, n ∈ player_names → forallb (pattern_ok n) (patterns n) = true) →
  (∀ n, d !! n = if decide (n ∈ player_names)
                 then py_str_float <$> first_hit py_float s (patterns n) else None) →
  d !! name = Some v →
  name ∈ player_names ∧
  ∃ p m cap x, p ∈ patterns name ∧ re_search p s = Some (Some m) ∧
               group1 m = Some cap ∧ decimal_capture cap ∧ py_float cap = Some x ∧
               v = py_str_float x ∧ float_nonneg x = true.
Proof.
  intros Hok Hd Hv. rewrite Hd in Hv. destruct (decide _) as [Hin|]; [|done].
  split; [done|].
  destruct (first_hit py_float s (patterns name)) as [x|] eqn:Hf; [|done].
  injection Hv as <-.
  apply first_hit_Some in Hf as (i & p & Hi & Hp & _).
  apply pattern_hit_Some in Hp as (m & cap & Hs & Hc & Hx).
  assert (p ∈ patterns name) as Hp by by eapply list_elem_of_lookup_2.
  destruct (pattern_ok_capture name p s m) as (cap' & Hc' & Hdec);
    [by eapply patterns_ok_elem; eauto|done|].
  assert (cap' = cap) as -> by congruence.
  pose proof (py_float_capture_nonneg cap x Hdec Hx) as Hnn.
  exists p, m, cap, x. done.
Qed.

Lemma no_name_no_entry patterns (d : gmap string string) s :
  (∀ n, n ∈ player_names → forallb (pattern_ok n) (patterns n) = true) →
  (∀ n, d !! n = if decide (n ∈ player_names)
                 then py_str_float <$> first_hit py_float s (patterns n) else None) →
  (∀ n, n ∈ player_names → contains_name n s = false) →
  d = ∅.
Proof.
  intros Hok Hd Hno. apply map_empty. intros name.
  destruct (d !! name) as [v|] eqn:Hv; [|done].
  destruct (entry_origin patterns d s name v Hok Hd Hv)
    as (Hin & p & m & cap & x & Hp & Hs & _).
  specialize (Hno name Hin).
  rewrite (pattern_ok_contains name p s m) in Hno; [done| |done].
  eapply patterns_ok_elem; eauto.
Qed.

(** ** Letter case *)

Lemma same_letter_cases c c' :
  same_letter c c' →
  c = c' ∨ (is_upper_ascii c = true ∧ c' = c + 32) ∨ (is_upper_ascii c' = true ∧ c = c' + 32).
Proof.
  unfold same_letter, lower_ascii.
  destruct (is_upper_ascii c) eqn:E, (is_upper_ascii c') eqn:E'; intros H.
  - left. lia.
  - right. left. split; [done|]. by symmetry.
  - right. right. done.
  - by left.
Qed.

(** An ASCII letter is neither a decimal digit nor white space, and is not
    one of the extra code points of a letter. *)
Lemma letter_class c :
  (65 ≤ c ≤ 90 ∨ 97 ≤ c ≤ 122) →
  is_decimal c = false ∧ is_space c = false ∧
  ∀ lo, existsb (N.eqb c) (ignorecase_extra lo) = false.
Proof.
  intros Hc. split_and!.
  - unfold is_decimal. destruct (unicode_decimal c) as [d|] eqn:E; [|done].
    apply unicode_decimal_ascii in E; [|lia]. apply is_ascii_digit_spec in E. lia.
  - destruct (is_space c) eqn:E; [|done]. unfold is_space in E.
    apply existsb_exists in E as (x & Hin & Hx). apply N.eqb_eq in Hx. subst x.
    assert (forallb (λ x, (x <? 65) || (122 <? x)) unicode_spaces = true) as Hall
      by by vm_compute.
    rewrite forallb_forall in Hall. specialize (Hall c Hin).
    apply orb_true_iff in Hall as [H|H]; nbool; lia.
  - intros lo. unfold ignorecase_extra.
    repeat destruct (lo =? _); simpl; rewrite ?orb_false_r;
      try done; repeat (apply orb_false_iff; split); try apply N.eqb_neq; lia.
Qed.

Lemma upper_range c : is_upper_ascii c = true → 65 ≤ c ≤ 90.
Proof. unfold is_upper_ascii. intros H. nbool. lia. Qed.

Lemma atom_matches_same a c c' :
  same_letter c c' → atom_matches a c = atom_matches a c'.
Proof.
  intros H. pose proof H as Hl.
  apply same_letter_cases in H as [->|H]; [done|].
  assert ((65 ≤ c ≤ 90 ∨ 97 ≤ c ≤ 122) ∧ (65 ≤ c' ≤ 90 ∨ 97 ≤ c' ≤ 122)) as [Hc Hc'].
  { destruct H as [[H ->]|[H ->]]; apply upper_range in H; lia. }
  destruct (letter_class c Hc) as (Hd & Hs & He).
  destruct (letter_class c' Hc') as (Hd' & Hs' & He').
  destruct a as [p| |]; simpl; [|congruence..].
  unfold literal_matches. unfold same_letter in Hl. rewrite Hl, He, He'.
  destruct (is_lower_ascii (lower_ascii p)) eqn:Ep; [done|].
  assert (¬ (65 ≤ p ≤ 90 ∨ 97 ≤ p ≤ 122)) as Hp.
  { unfold lower_ascii, is_upper_ascii, is_lower_ascii in Ep.
    destruct ((65 <=? p) && (p <=? 90)) eqn:E1.
    - apply andb_true_iff in E1 as [? ?]. apply andb_false_iff in Ep as [?|?]; nbool; lia.
    - apply andb_false_iff in E1 as [?|?]; apply andb_false_iff in Ep as [?|?]; nbool; lia. }
  transitivity false; [|symmetry]; apply N.eqb_neq; lia.
Qed.

Lemma same_ignoring_case_refl s : same_ignoring_case s s.
Proof. induction s; constructor; done. Qed.

Lemma greedy_same a k k' s s' :
  (∀ t t', same_ignoring_case t t' → option_Forall2 marks_alike (k t) (k' t')) →
  same_ignoring_case s s' →
  option_Forall2 marks_alike (greedy a k s) (greedy a k' s').
Proof.
  intros Hk H. induction H as [|c c' s s' Hc Hs IH]; simpl.
  - apply Hk. constructor.
  - rewrite (atom_matches_same a c c' Hc).
    assert (option_Forall2 marks_alike (k (c :: s)) (k' (c' :: s'))) as Hhere
      by (apply Hk; by constructor).
    destruct (atom_matches a c'); [|done].
    destruct IH; [by constructor|done].
Qed.

Lemma re_match_here_same ns mk mk' s s' :
  same_ignoring_case s s' → marks_alike mk mk' →
  option_Forall2 marks_alike (re_match_here ns mk s) (re_match_here ns mk' s').
Proof.
  revert mk mk' s s'. induction ns as [|n ns IH]; intros mk mk' s s' Hs Hmk.
  - by constructor.
  - destruct n as [a|a|a| |]; cbn [re_match_here].
    + destruct Hs as [|c c' s s' Hc Hs]; [constructor|].
      rewrite (atom_matches_same a c c' Hc). destruct (atom_matches a c'); [|constructor].
      by apply IH.
    + apply greedy_same; [|done]. intros t t' Ht. by apply IH.
    + destruct Hs as [|c c' s s' Hc Hs]; [constructor|].
      rewrite (atom_matches_same a c c' Hc). destruct (atom_matches a c'); [|constructor].
      apply greedy_same; [|done]. intros t t' Ht. by apply IH.
    + apply IH; [done|]. destruct Hmk as [_ Hclose]. split; [by constructor|done].
    + apply IH; [done|]. destruct Hmk as [Hopen _]. split; [done|by constructor].
Qed.

Lemma match_of_marks_same mk mk' :
  marks_alike mk mk' → groups_alike (match_of_marks mk) (match_of_marks mk').
Proof.
  intros [Ho Hc]. unfold groups_alike, match_of_marks. simpl.
  destruct Ho as [a a' Ha|]; [|constructor].
  destruct Hc as [b b' Hb|]; [|constructor].
  constructor.
  apply Forall2_length in Ha as Hla. apply Forall2_length in Hb as Hlb.
  rewrite <- Hla, <- Hlb. by apply Forall2_take.
Qed.

Lemma search_step_same r r' rest rest' :
  option_Forall2 marks_alike r r' →
  option_Forall2 groups_alike rest rest' →
  option_Forall2 groups_alike
    (match r with Some mk => Some (match_of_marks mk) | None => rest end)
    (match r' with Some mk => Some (match_of_marks mk) | None => rest' end).
Proof.
  intros [mk mk' Hmk|] Hrest; [|done]. constructor. by apply match_of_marks_same.
Qed.

Lemma search_from_same ns s s' :
  same_ignoring_case s s' →
  option_Forall2 groups_alike (search_from ns s) (search_from ns s').
Proof.
  assert (marks_alike no_marks no_marks) as H0 by (split; constructor).
  intros H. induction H as [|c c' s s' Hc Hs IH]; cbn [search_from].
  - apply search_step_same; [|constructor]. apply re_match_here_same; [constructor|done].
  - apply search_step_same; [|done]. apply re_match_here_same; [by constructor|done].
Qed.

Lemma no_letters_same cap cap' :
  Forall (λ c, is_decimal c = true ∨ c = 46) cap →
  same_ignoring_case cap cap' → cap' = cap.
Proof.
  intros Hall Hs. induction Hs as [|c c' cap cap' Hc _ IH]; [done|].
  inversion Hall as [|? ? Hd Hrest]; subst. f_equal; [|by apply IH].
  apply same_letter_cases in Hc as [->|Hc]; [done|].
  assert (65 ≤ c ≤ 90 ∨ 97 ≤ c ≤ 122) as Hrange.
  { destruct Hc as [[H ->]|[H ->]]; apply upper_range in H; lia. }
  destruct (letter_class c Hrange) as (Hnd & _). destruct Hd as [Hd| ->]; [congruence|lia].
Qed.

Lemma decimal_capture_same cap cap' :
  decimal_capture cap → same_ignoring_case cap cap' → cap' = cap.
Proof.
  intros (ds1 & ds2 & -> & _ & _ & H1 & H2). apply no_letters_same.
  apply Forall_app. split; [|constructor; [by right|]];
    (eapply Forall_impl; [eassumption|]); by left.
Qed.

(** A pattern of the program finds the same thing in two texts that differ
    only in the case of letters. *)
Lemma re_search_same name p s s' :
  pattern_ok name p = true → same_ignoring_case s s' →
  re_search p s' = re_search p s.
Proof.
  intros Hok Hs. unfold pattern_ok in Hok. unfold re_search.
  destruct (re_compile p) as [ns|]; [|done]. simpl.
  apply andb_true_iff in Hok as [Hns _]. f_equal.
  pose proof (search_from_same ns s s' Hs) as Hrel.
  destruct (search_from ns s) as [m|] eqn:Em, (search_from ns s') as [m'|] eqn:Em';
    inversion Hrel as [? ? Hm|]; subst; [|done].
  destruct (search_from_capture ns s m Hns Em) as (cap & Hc & Hdec).
  unfold groups_alike in Hm. rewrite Hc in Hm. inversion Hm as [? cap' Hcap Heq Heq'|]; subst.
  rewrite (decimal_capture_same cap cap' Hdec Hcap) in Heq'.
  destruct m as [g], m' as [g']. simpl in *. congruence.
Qed.

Lemma first_hit_same to_float name pats s s' :
  forallb (pattern_ok name) pats = true → same_ignoring_case s s' →
  first_hit to_float s' pats = first_hit to_float s pats.
Proof.
  intros Hok Hs. induction pats as [|p pats IH]; [done|].
  cbn [forallb] in Hok. apply andb_true_iff in Hok as [Hp Hps].
  rewrite !first_hit_cons, (IH Hps). unfold pattern_hit.
  by rewrite (re_search_same name p s s' Hp Hs).
Qed.

Lemma hosted_parse_same s s' :
  same_ignoring_case s s' →
  Hosted.parse_leaderboard_data s' = Hosted.parse_leaderboard_data s.
Proof.
  intros Hs. unfold Hosted.parse_leaderboard_data.
  destruct (hosted_parse_spec py_float s) as (d & -> & Hl).
  destruct (hosted_parse_spec py_float s') as (d' & -> & Hl').
  f_equal. apply map_eq. intros name. rewrite Hl, Hl'.
  destruct (decide _) as [Hin|]; [|done].
  by rewrite (first_hit_same py_float name _ s s' (hosted_patterns_ok name Hin) Hs).
Qed.

Lemma first_match_same name pats s s' :
  forallb (pattern_ok name) pats = true → same_ignoring_case s s' →
  first_match s' pats = first_match s pats.
Proof.
  intros Hok Hs. induction pats as [|p pats IH]; [done|].
  cbn [forallb] in Hok. apply andb_true_iff in Hok as [Hp Hps].
  rewrite !first_match_cons, (IH Hps).
  by rewrite (re_search_same name p s s' Hp Hs).
Qed.

Lemma base_for_names_same to_float names s s' data :
  (∀ name, name ∈ names → name ∈ player_names) →
  same_ignoring_case s s' →
  Base.for_names to_float names s' data = Base.for_names to_float names s data.
Proof.
  intros Hin Hs. revert data. induction names as [|n names IH]; intros data; [done|].
  cbn [Base.for_names].
  rewrite !(base_try_patterns_spec to_float n) by (apply base_patterns_ok, Hin; left).
  rewrite (first_match_same n _ s s') by (done || apply base_patterns_ok, Hin; left).
  destruct (first_match s (Base.patterns n)) as [m|].
  - destruct (group1 m ≫= to_float); [|done]. simpl mbind.
    apply IH. intros; apply Hin; by right.
  - simpl mbind. apply IH. intros; apply Hin; by right.
Qed.

Lemma base_parse_same s s' :
  same_ignoring_case s s' →
  Base.parse_leaderboard_data s' = Base.parse_leaderboard_data s.
Proof. intros Hs. by apply base_for_names_same. Qed.

(** ** A capture with more digits than [float] accepts *)

Lemma match_one a ns mk c s :
  atom_matches a c = true →
  re_match_here (NOne a :: ns) mk (c :: s) = re_match_here ns mk s.
Proof. intros H. cbn [re_match_here]. by rewrite H. Qed.

Lemma match_plus a ns mk c s :
  atom_matches a c = true →
  re_match_here (NPlus a :: ns) mk (c :: s) = greedy a (re_match_here ns mk) s.
Proof. intros H. cbn [re_match_here]. by rewrite H. Qed.

Lemma match_open ns mk s :
  re_match_here (NOpen :: ns) mk s =
    re_match_here ns {| m_open := Some s; m_close := m_close mk |} s.
Proof. reflexivity. Qed.

Lemma greedy_stop a k c s :
  atom_matches a c = false → greedy a k (c :: s) = k (c :: s).
Proof. intros H. cbn [greedy]. by rewrite H. Qed.

Lemma greedy_run a k ds rest r :
  Forall (λ c, atom_matches a c = true) ds →
  greedy a k rest = Some r → greedy a k (ds ++ rest) = Some r.
Proof.
  intros Hds Hr. induction Hds as [|c ds Hc _ IH]; [done|].
  simpl. by rewrite Hc, IH.
Qed.

(** The group on digits, a full stop, digits and nothing more: it takes
    them all. *)
Lemma time_group_match mk ds1 ds2 :
  ds1 ≠ [] → ds2 ≠ [] →
  Forall (λ c, is_decimal c = true) ds1 →
  Forall (λ c, is_decimal c = true) ds2 →
  re_match_here time_group mk (ds1 ++ 46 :: ds2) =
    Some {| m_open := Some (ds1 ++ 46 :: ds2); m_close := Some [] |}.
Proof.
  intros Hne1 Hne2 H1 H2. unfold time_group.
  destruct ds1 as [|c1 ds1]; [done|]. destruct ds2 as [|c2 ds2]; [done|].
  inversion H1 as [|? ? Hc1 H1']; subst. inversion H2 as [|? ? Hc2 H2']; subst.
  simpl app. rewrite match_open. rewrite match_plus by done.
  apply greedy_run; [done|].
  rewrite greedy_stop by (by vm_compute).
  rewrite match_one by (by vm_compute).
  rewrite match_plus by done.
  rewrite <- (app_nil_r ds2). apply greedy_run; [done|]. reflexivity.
Qed.

Lemma search_from_here ns s mk :
  re_match_here ns no_marks s = Some mk → search_from ns s = Some (match_of_marks mk).
Proof. intros H. destruct s; simpl; by rewrite H. Qed.

Lemma search_from_skip ns c s :
  re_match_here ns no_marks (c :: s) = None → search_from ns (c :: s) = search_from ns s.
Proof. intros H. simpl. by rewrite H. Qed.

(** A pattern that starts with a letter finds nothing in a text without
    that letter. *)
Lemma search_from_no_start p ns s :
  Forall (λ c, literal_matches p c = false) s →
  search_from (NOne (ALit p) :: ns) s = None.
Proof.
  induction 1 as [|c s Hc _ IH]; [done|].
  rewrite search_from_skip; [done|]. cbn [re_match_here atom_matches]. by rewrite Hc.
Qed.

Lemma Forall_repeat {A} (P : A → Prop) x n : P x → Forall P (repeat x n).
Proof. intros H. induction n; simpl; by constructor. Qed.

Lemma re_search_compiled p ns s :
  re_compile p = Some ns → re_search p s = Some (search_from ns s).
Proof. intros H. unfold re_search. by rewrite H. Qed.

Section Run.
Variable n : nat.

(** The text ["Vy 1"], [n] ones, [".0"]. *)

Lemma run_no_letter p :
  literal_matches p 121 = false → literal_matches p 32 = false →
  literal_matches p 49 = false → literal_matches p 46 = false →
  literal_matches p 48 = false →
  Forall (λ c, literal_matches p c = false) (121 :: 32 :: ones_capture n).
Proof.
  intros. unfold ones_capture. repeat (constructor; [done|]).
  apply Forall_app. split; [by apply Forall_repeat|]. by repeat constructor.
Qed.

Lemma run_third_template :
  re_search "Vy\s+(\d+\.\d+)" (ones_time n) = Some (Some {| group1 := Some (ones_capture n) |}).
Proof.
  rewrite (re_search_compiled _
             (NOne (ALit 86) :: NOne (ALit 121) :: NPlus ASpace :: time_group))
    by (vm_compute; reflexivity).
  f_equal. unfold ones_time.
  rewrite (search_from_here _ _ {| m_open := Some (ones_capture n); m_close := Some [] |}).
  - assert (group1 (match_of_marks {| m_open := Some (ones_capture n); m_close := Some [] |})
              = Some (ones_capture n)) as Hg.
    { apply (match_of_marks_capture _ (ones_capture n) []); [|done]. cbn [m_open]. by rewrite app_nil_r. }
    destruct (match_of_marks _) as [g]. simpl in Hg. by subst g.
  - rewrite !match_one by (by vm_compute).
    rewrite match_plus by (by vm_compute).
    unfold ones_capture. rewrite greedy_stop by (by vm_compute).
    change (49 :: repeat 49 n ++ [46; 48]) with ((49 :: repeat 49 n) ++ 46 :: [48]).
    apply time_group_match; [done|done| |].
    + constructor; [by vm_compute|]. apply Forall_repeat. by vm_compute.
    + by repeat constructor.
Qed.

Lemma run_other_template p ns :
  re_compile p = Some (NOne (ALit 86) :: ns) →
  (∀ t, re_match_here (NOne (ALit 86) :: ns) no_marks (86 :: 121 :: 32 :: 49 :: t) = None) →
  re_search p (ones_time n) = Some None.
Proof.
  intros Hp Hhere. rewrite (re_search_compiled _ _ _ Hp). f_equal.
  unfold ones_time, ones_capture. rewrite search_from_skip by apply Hhere.
  apply search_from_no_start. by apply run_no_letter.
Qed.

Lemma run_first_template : re_search "Vy:\s*(\d+\.\d+)" (ones_time n) = Some None.
Proof.
  eapply run_other_template; [vm_compute; reflexivity|].
  intros t. vm_compute. reflexivity.
Qed.

Lemma run_second_template : re_search "Vy\s*-\s*(\d+\.\d+)" (ones_time n) = Some None.
Proof.
  eapply run_other_template; [vm_compute; reflexivity|].
  intros t. vm_compute. reflexivity.
Qed.

Lemma run_fourth_template : re_search "Vy's time:\s*(\d+\.\d+)" (ones_time n) = Some None.
Proof.
  eapply run_other_template; [vm_compute; reflexivity|].
  intros t. vm_compute. reflexivity.
Qed.

Lemma run_fifth_template : re_search "Vy\s*=\s*(\d+\.\d+)" (ones_time n) = Some None.
Proof.
  eapply run_other_template; [vm_compute; reflexivity|].
  intros t. vm_compute. reflexivity.
Qed.

Lemma run_only_match :
  only_match (Hosted.patterns "Vy") (ones_time n) 2 {| group1 := Some (ones_capture n) |} ∧
  only_match (Base.patterns "Vy") (ones_time n) 2 {| group1 := Some (ones_capture n) |}.
Proof.
  split; (split; [exists "Vy\s+(\d+\.\d+)"%string; split; [reflexivity|apply run_third_template]|]).
  - intros [|[|[|[|[|j]]]]] p Hj Hp; try done; injection Hp as <-.
    + apply run_first_template.
    + apply run_second_template.
    + apply run_fourth_template.
    + apply run_fifth_template.
  - intros [|[|[|j]]] p Hj Hp; try done; injection Hp as <-.
    + apply run_first_template.
    + apply run_second_template.
Qed.

Lemma run_first_match :
  first_match (ones_time n) (Base.patterns "Vy") = Some {| group1 := Some (ones_capture n) |}.
Proof.
  unfold Base.patterns. rewrite !first_match_cons.
  change ("Vy" +:+ ":\s*(\d+\.\d+)") with "Vy:\s*(\d+\.\d+)"%string.
  change ("Vy" +:+ "\s*-\s*(\d+\.\d+)") with "Vy\s*-\s*(\d+\.\d+)"%string.
  change ("Vy" +:+ "\s+(\d+\.\d+)") with "Vy\s+(\d+\.\d+)"%string.
  by rewrite run_first_template, run_second_template, run_third_template.
Qed.

(** [float] on the capture: refused when there are more digits than the
    limit. *)
Lemma run_float :
  (max_float_digits ≤ Z.of_nat n)%Z → py_float (ones_capture n) = None.
Proof.
  intros Hn.
  rewrite (py_float_of_digits (ones_capture n) (49 :: repeat 49 n) [48]).
  - rewrite digits_within_limit_long; [done|done|].
    rewrite repeat_length. simpl length. lia.
  - apply transform_ascii. unfold ones_capture. constructor; [done|].
    apply Forall_app. split; [by apply Forall_repeat|]. by repeat constructor.
  - done.
  - done.
  - constructor; [by vm_compute|]. apply Forall_repeat. by vm_compute.
  - by repeat constructor.
Qed.

(** No other roster name occurs in the text. *)
Lemma run_contains_name name :
  name ∈ player_names → name ≠ "Vy"%string → contains_name name (ones_time n) = false.
Proof.
  assert (∀ a rest s, Forall (λ c, literal_matches (cp a) c = false) s →
            contains_name (String a rest) s = false) as Hfirst.
  { intros a rest s Hs. induction Hs as [|c s Hc _ IH]; [done|].
    cbn [contains_name name_at]. by rewrite Hc, IH. }
  assert (∀ p, literal_matches p 86 = false → literal_matches p 121 = false →
            literal_matches p 32 = false → literal_matches p 49 = false →
            literal_matches p 46 = false → literal_matches p 48 = false →
            Forall (λ c, literal_matches p c = false) (ones_time n)) as Hline.
  { intros p ? ? ? ? ? ?. unfold ones_time. constructor; [done|]. by apply run_no_letter. }
  intros Hin Hne. apply list_elem_of_In in Hin. simpl in Hin.
  repeat (destruct Hin as [<-|Hin];
          [first [done | apply Hfirst, Hline; vm_compute; reflexivity]|]).
  destruct Hin.
Qed.

Lemma run_hosted :
  (max_float_digits ≤ Z.of_nat n)%Z → Hosted.parse_leaderboard_data (ones_time n) = Ok ∅.
Proof.
  intros Hn. destruct (hosted_parse_spec py_float (ones_time n)) as (d & Hd & Hl).
  unfold Hosted.parse_leaderboard_data. rewrite Hd. f_equal.
  apply map_empty. intros name. rewrite Hl.
  destruct (decide (name ∈ player_names)) as [Hin|]; [|done].
  replace (first_hit py_float (ones_time n) (Hosted.patterns name)) with (@None spec_float); [done|].
  symmetry. apply first_hit_None. intros p Hp.
  destruct (pattern_hit py_float (ones_time n) p) as [x|] eqn:Hx; [|done].
  apply pattern_hit_Some in Hx as (m & cap & Hs & Hc & Hf).
  destruct (decide (name = "Vy"%string)) as [->|Hne].
  - destruct run_only_match as [[(q & Hq & Hsq) Hothers] _].
    apply list_elem_of_lookup_1 in Hp as [j Hj].
    destruct (decide (j = 2%nat)) as [->|Hj2].
    + assert (q = p) as -> by congruence.
      rewrite Hsq in Hs. injection Hs as <-. injection Hc as <-.
      rewrite run_float in Hf by done. done.
    + rewrite (Hothers j p Hj2 Hj) in Hs. done.
  - pose proof (pattern_ok_contains name p (ones_time n) m
                  (patterns_ok_elem name Hosted.patterns p (hosted_patterns_ok name Hin) Hp) Hs)
      as Hc'.
    by rewrite run_contains_name in Hc'.
Qed.

Lemma run_base :
  (max_float_digits ≤ Z.of_nat n)%Z → Base.parse_leaderboard_data (ones_time n) = Raise ValueError.
Proof.
  intros Hn.
  apply (base_parse_raise py_float (ones_time n) "Vy" {| group1 := Some (ones_capture n) |}).
  - apply list_elem_of_In. simpl. tauto.
  - apply run_first_match.
  - simpl. by apply run_float.
Qed.
End Run.

Lemma overlimit_time_line :
  overlimit_time = 86 :: 121 :: 32 :: 49 :: repeat 49 (Z.to_nat max_float_digits) ++ [46; 48].
Proof. reflexivity. Qed.

Lemma overlimit_length : (max_float_digits ≤ Z.of_nat (Z.to_nat max_float_digits))%Z.
Proof. rewrite Z2Nat.id; [lia|]. unfold max_float_digits. lia. Qed.

(** ** Statements about the parsers *)

(** C1, as stated, does not hold: in the text ["Vy 1"], a thousand million
    further ones, [".0"], exactly one template matches for [Vy], but
    [float] refuses a literal with more digits than its limit, so the
    hosted-OCR parser has no entry for the name. *)
Lemma unique_match_not_extracted :
  "Vy" ∈ player_names ∧
  only_match (Hosted.patterns "Vy") overlimit_time 2 {| group1 := Some overlimit_capture |} ∧
  py_float overlimit_capture = None ∧
  Hosted.parse_leaderboard_data overlimit_time = Ok ∅ ∧
  ¬ ∀ name s i m,
      name ∈ player_names → only_match (Hosted.patterns name) s i m →
      ∃ cap x d, group1 m = Some cap ∧ py_float cap = Some x ∧
                 Hosted.parse_leaderboard_data s = Ok d ∧
                 d !! name = Some (py_str_float x).
Proof.
  assert ("Vy" ∈ player_names) as Hin by roster_elem.
  pose proof (proj1 (run_only_match (Z.to_nat max_float_digits))) as Honly.
  assert (py_float overlimit_capture = None) as Hfloat
    by exact (run_float (Z.to_nat max_float_digits) overlimit_length).
  pose proof (run_hosted (Z.to_nat max_float_digits) overlimit_length) as Hparse.
  split_and!; [exact Hin|exact Honly|exact Hfloat|exact Hparse|].
  intros H.
  destruct (H "Vy" overlimit_time 2%nat {| group1 := Some overlimit_capture |} Hin Honly)
    as (cap & x & d & Hc & Hx & _).
  injection Hc as <-. rewrite Hfloat in Hx. discriminate Hx.
Qed.

(** C1, amended.  When exactly one template matches for a roster name, the
    template captured digits, a full stop and digits, which [float]
    accepts when they are no more than its limit.  When [float] accepts
    the capture, the hosted-OCR parser returns a mapping that binds the name
    to the string of the float read ([str(float(capture))], so ["3.50"]
    gives ["3.5"]), and the local-OCR parser binds it so whenever it
    returns a mapping.  Matching ignores letter case: every text that
    differs from the input only in the case of ASCII letters yields the
    same mapping. *)
Theorem parse_extracts_unique_match (name : string) (s : text) (i : nat) (m : re_match) :
  name ∈ player_names →
  (only_match (Hosted.patterns name) s i m →
     ∃ cap, group1 m = Some cap ∧ decimal_capture cap ∧
       ((Z.of_nat (length cap) ≤ max_float_digits)%Z → is_Some (py_float cap)) ∧
       ∀ x, py_float cap = Some x →
         ∃ d, Hosted.parse_leaderboard_data s = Ok d ∧
              d !! name = Some (py_str_float x) ∧
              ∀ s', same_ignoring_case s s' → Hosted.parse_leaderboard_data s' = Ok d) ∧
  (only_match (Base.patterns name) s i m →
     ∃ cap, group1 m = Some cap ∧ decimal_capture cap ∧
       ((Z.of_nat (length cap) ≤ max_float_digits)%Z → is_Some (py_float cap)) ∧
       ∀ x d, py_float cap = Some x → Base.parse_leaderboard_data s = Ok d →
              d !! name = Some (py_str_float x) ∧
              ∀ s', same_ignoring_case s s' → Base.parse_leaderboard_data s' = Ok d).
Proof.
  intros Hin. split; intros Honly.
  - pose proof Honly as [(p & Hi & Hs) _].
    destruct (pattern_ok_capture name p s m) as (cap & Hc & Hdec); [|done|].
    { eapply patterns_ok_elem; [by apply hosted_patterns_ok|by eapply list_elem_of_lookup_2]. }
    exists cap. split_and!; [done|done|by apply py_float_accepts|].
    intros x Hx.
    pose proof (only_match_hit name Hosted.patterns s i m cap x Honly Hc Hx) as Hf.
    destruct (hosted_parse_spec py_float s) as (d & Hd & Hl).
    exists d. split_and!; [done| |].
    + rewrite Hl, decide_True, Hf by done. done.
    + intros s' Hs'. by rewrite (hosted_parse_same s s' Hs').
  - pose proof Honly as [(p & Hi & Hs) _].
    destruct (pattern_ok_capture name p s m) as (cap & Hc & Hdec); [|done|].
    { eapply patterns_ok_elem; [by apply base_patterns_ok|by eapply list_elem_of_lookup_2]. }
    exists cap. split_and!; [done|done|by apply py_float_accepts|].
    intros x d Hx Hd.
    pose proof (only_match_hit name Base.patterns s i m cap x Honly Hc Hx) as Hf.
    split.
    + rewrite (base_parse_ok py_float s d Hd), decide_True, Hf by done. done.
    + intros s' Hs'. by rewrite (base_parse_same s s' Hs').
Qed.

Lemma parse_extracts_unique_match_witness :
  "Merrick" ∈ player_names ∧
  only_match (Hosted.patterns "Merrick") (text_of "Merrick: 3.50") 0
    {| group1 := Some (text_of "3.50") |} ∧
  same_ignoring_case (text_of "Merrick: 3.50") (text_of "mERRICK: 3.50") ∧
  ∃ d, Hosted.parse_leaderboard_data (text_of "Merrick: 3.50") = Ok d ∧
       Hosted.parse_leaderboard_data (text_of "mERRICK: 3.50") = Ok d ∧
       d !! "Merrick" = Some "3.5".
Proof.
  assert ("Merrick" ∈ player_names) as Hin by roster_elem.
  assert (only_match (Hosted.patterns "Merrick") (text_of "Merrick: 3.50") 0
            {| group1 := Some (text_of "3.50") |}) as Honly.
  { split.
    - eexists. split; [reflexivity|]. vm_compute. reflexivity.
    - intros [|[|[|[|[|j]]]]] p Hj Hp; try done; injection Hp as <-; vm_compute; reflexivity. }
  assert (same_ignoring_case (text_of "Merrick: 3.50") (text_of "mERRICK: 3.50")) as Hcase
    by (repeat constructor).
  split_and!; [exact Hin|exact Honly|exact Hcase|].
  destruct (proj1 (parse_extracts_unique_match "Merrick" (text_of "Merrick: 3.50") 0
                     {| group1 := Some (text_of "3.50") |} Hin) Honly)
    as (cap & Hc & _ & _ & Hentry).
  injection Hc as <-.
  destruct (Hentry (S754_finite false 7881299347898368 (-51))) as (d & Hd & Hl & Hsame).
  { vm_compute. reflexivity. }
  exists d. split_and!; [exact Hd|exact (Hsame _ Hcase)|].
  rewrite Hl. vm_compute. reflexivity.
Defined.

(** C2, at the failing input.  In the text ["Vy 1"], a thousand million
    further ones, [".0"], the first template that matches for [Vy] is the
    third, and [float] refuses what it captured.  The parser of the
    hosted-OCR script goes on and returns a mapping, without an entry for
    the name; the parser of the local-OCR script, which has no guard, is
    left by [ValueError]: the whole roster is aborted. *)
Theorem refused_capture_aborts_local_parser :
  first_match overlimit_time (Base.patterns "Vy")
    = Some {| group1 := Some overlimit_capture |} ∧
  py_float overlimit_capture = None ∧
  Hosted.parse_leaderboard_data overlimit_time = Ok ∅ ∧
  Base.parse_leaderboard_data overlimit_time = Raise ValueError.
Proof.
  split_and!.
  - apply (run_first_match (Z.to_nat max_float_digits)).
  - apply (run_float (Z.to_nat max_float_digits) overlimit_length).
  - apply (run_hosted (Z.to_nat max_float_digits) overlimit_length).
  - apply (run_base (Z.to_nat max_float_digits) overlimit_length).
Qed.




(** C4.  The roster has nine names.  A name outside the roster has no
    entry in the mapping the parser returns, whatever the text says about
    that name; a name that has an entry occurs in the text (letter case
    ignored); and the mapping is empty when no roster name occurs in the
    text.  The parser of the hosted-OCR script returns a mapping for every
    text; for the parser of the local-OCR script the statements are about
    the mapping it returns, and it does return the empty mapping when no
    roster name occurs in the text. *)
Theorem parse_keys_in_roster (s : text) :
  length player_names = 9%nat ∧
  (∃ d, Hosted.parse_leaderboard_data s = Ok d ∧
     (∀ name, name ∉ player_names → d !! name = None) ∧
     (∀ name, is_Some (d !! name) → contains_name name s = true) ∧
     ((∀ name, name ∈ player_names → contains_name name s = false) → d = ∅)) ∧
  (∀ d, Base.parse_leaderboard_data s = Ok d →
     (∀ name, name ∉ player_names → d !! name = None) ∧
     (∀ name, is_Some (d !! name) → contains_name name s = true)) ∧
  ((∀ name, name ∈ player_names → contains_name name s = false) →
   Base.parse_leaderboard_data s = Ok ∅).
Proof.
  split; [done|]. split_and!.
  - destruct (hosted_parse_spec py_float s) as (d & Hd & Hl).
    exists d. split_and!; [done| | |].
    + intros name Hout. by rewrite Hl, decide_False.
    + intros name [v Hv].
      destruct (entry_origin Hosted.patterns d s name v hosted_patterns_ok Hl Hv)
        as (Hin & p & m & _ & _ & Hp & Hs & _).
      apply (pattern_ok_contains name p s m); [|done].
      eapply patterns_ok_elem; [by apply hosted_patterns_ok|done].
    + by apply (no_name_no_entry Hosted.patterns d s hosted_patterns_ok).
  - intros d Hd. pose proof (base_parse_ok py_float s d Hd) as Hl. split.
    + intros name Hout. by rewrite Hl, decide_False.
    + intros name [v Hv].
      destruct (entry_origin Base.patterns d s name v base_patterns_ok Hl Hv)
        as (Hin & p & m & _ & _ & Hp & Hs & _).
      apply (pattern_ok_contains name p s m); [|done].
      eapply patterns_ok_elem; [by apply base_patterns_ok|done].
  - intros Hno.
    destruct (base_parse_returns py_float s) as (d & Hd).
    { intros name m Hin Hm. apply first_match_origin in Hm as (p & Hp & Hs).
      specialize (Hno name Hin).
      rewrite (pattern_ok_contains name p s m) in Hno; [done| |done].
      eapply patterns_ok_elem; [by apply base_patterns_ok|done]. }
    unfold Base.parse_leaderboard_data. rewrite Hd. f_equal.
    apply (no_name_no_entry Base.patterns d s base_patterns_ok); [|done].
    by apply base_parse_ok.
Qed.

Lemma parse_keys_in_roster_witness :
  (∀ name, name ∈ player_names →
     contains_name name (text_of "Alice: 1.23 and Bob - 4.56") = false) ∧
  Hosted.parse_leaderboard_data (text_of "Alice: 1.23 and Bob - 4.56") = Ok ∅.
Proof.
  assert (∀ name, name ∈ player_names →
            contains_name name (text_of "Alice: 1.23 and Bob - 4.56") = false) as Hno.
  { intros name Hin. apply list_elem_of_In in Hin. simpl in Hin.
    repeat (destruct Hin as [<-|Hin]; [vm_compute; reflexivity|]). destruct Hin. }
  split; [done|].
  destruct (proj1 (proj2 (parse_keys_in_roster (text_of "Alice: 1.23 and Bob - 4.56"))))
    as (d & Hd & _ & _ & Hempty).
  rewrite Hd. f_equal. by apply Hempty.
Defined.

(** C10, at the failing input.  The capture of the text ["Vy 1"], a
    thousand million further ones, [".0"], is digits, a full stop and
    digits, and [float] refuses it, because it has more digits than the
    conversion accepts: the unguarded conversion of the local-OCR script
    raises [ValueError] out of the parser.  Texts of no more characters
    than that limit are parsed without an exception. *)
Theorem unguarded_conversion_raises :
  decimal_capture overlimit_capture ∧
  py_float overlimit_capture = None ∧
  Base.parse_leaderboard_data overlimit_time = Raise ValueError ∧
  ∀ s, (Z.of_nat (length s) ≤ max_float_digits)%Z →
       ∃ d, Base.parse_leaderboard_data s = Ok d.
Proof.
  split_and!.
  - exists (49 :: repeat 49 (Z.to_nat max_float_digits)), [48].
    split_and!; [reflexivity|done|done| |].
    + constructor; [by vm_compute|]. apply Forall_repeat. by vm_compute.
    + by repeat constructor.
  - apply (run_float (Z.to_nat max_float_digits) overlimit_length).
  - apply (run_base (Z.to_nat max_float_digits) overlimit_length).
  - apply base_parse_short.
Qed.

(** With a conversion that refuses a capture the unguarded loop does leave
    the function, where the guarded one goes on to the next template. *)
Example base_unguarded_conversion :
  Base.parse_leaderboard_data_with (float_refusing (text_of "1.5"))
    (text_of "Merrick: 1.5 Merrick - 2.5") = Raise ValueError.
Proof. vm_compute. reflexivity. Qed.

Local Open Scope Z_scope.

(** ** Decimal numerals *)

Lemma text_of_app s t : text_of (s +:+ t) = (text_of s ++ text_of t)%list.
Proof. induction s as [|a s IH]; simpl; [done|]. by rewrite IH. Qed.

Lemma digits_value_app acc ds ds' :
  digits_value acc (ds ++ ds') = digits_value (digits_value acc ds) ds'.
Proof. revert acc. induction ds as [|c ds IH]; intros acc; simpl; [done|]. apply IH. Qed.

Lemma cp_digit_char d : 0 ≤ d < 10 → cp (digit_char d) = (48 + Z.to_N d)%N.
Proof.
  intros Hd. unfold cp, digit_char. apply N_ascii_embedding. lia.
Qed.

Lemma append_snoc ds a acc : ds +:+ String a acc = (ds +:+ String a "") +:+ acc.
Proof.
  induction ds as [|b ds IH]; [done|].
  change (String b (ds +:+ String a acc) = String b ((ds +:+ String a "") +:+ acc)).
  by rewrite IH.
Qed.

Lemma append_empty ds : ds +:+ "" = ds.
Proof.
  induction ds as [|b ds IH]; [done|].
  change (String b (ds +:+ "") = String b ds). by rewrite IH.
Qed.

Lemma length_append s t :
  String.length (s +:+ t) = (String.length s + String.length t)%nat.
Proof.
  induction s as [|a s IH]; [done|].
  change (S (String.length (s +:+ t)) = S (String.length s + String.length t)).
  by rewrite IH.
Qed.

Lemma decimal_digits_S fuel n acc :
  decimal_digits (S fuel) n acc =
    if n <? 10 then String (digit_char (n mod 10)) acc
    else decimal_digits fuel (n / 10) (String (digit_char (n mod 10)) acc).
Proof. reflexivity. Qed.

(** The digits [decimal_digits] puts before the accumulator: ASCII digits,
    at least one and at most [fuel], whose value is the number. *)
Lemma decimal_digits_spec fuel n acc :
  0 ≤ n < 2 ^ Z.of_nat (S fuel) →
  ∃ ds, decimal_digits (S fuel) n acc = ds +:+ acc ∧
        ds ≠ ""%string ∧ (String.length ds ≤ S fuel)%nat ∧
        Forall (λ c, is_ascii_digit c = true) (text_of ds) ∧
        ∀ a, digits_value a (text_of ds) = a * 10 ^ Z.of_nat (String.length ds) + n.
Proof.
  revert n acc. induction fuel as [|fuel IH]; intros n acc Hn.
  - change (2 ^ Z.of_nat 1) with 2 in Hn. rewrite decimal_digits_S.
    assert ((n <? 10) = true) as -> by (apply Z.ltb_lt; lia).
    exists (String (digit_char (n mod 10)) ""). split_and!; [done|done|(simpl; lia)| |].
    + constructor; [|done]. apply is_ascii_digit_spec.
      rewrite cp_digit_char by (apply Z.mod_pos_bound; lia).
      pose proof (Z.mod_pos_bound n 10 ltac:(lia)). lia.
    + intros a. cbn [text_of digits_value String.length].
      rewrite cp_digit_char by (apply Z.mod_pos_bound; lia).
      rewrite Z.mod_small by lia. change (10 ^ Z.of_nat 1) with 10.
      rewrite N2Z.inj_add, Z2N.id by lia. change (Z.of_N 48) with 48. lia.
  - rewrite (decimal_digits_S (S fuel)). destruct (n <? 10) eqn:E.
    + apply Z.ltb_lt in E.
      exists (String (digit_char (n mod 10)) ""). split_and!; [done|done|(simpl; lia)| |].
      * constructor; [|done]. apply is_ascii_digit_spec.
        rewrite cp_digit_char by (apply Z.mod_pos_bound; lia).
        pose proof (Z.mod_pos_bound n 10 ltac:(lia)). lia.
      * intros a. cbn [text_of digits_value String.length].
        rewrite cp_digit_char by (apply Z.mod_pos_bound; lia).
        rewrite Z.mod_small by lia. change (10 ^ Z.of_nat 1) with 10.
        rewrite N2Z.inj_add, Z2N.id by lia. change (Z.of_N 48) with 48. lia.
    + apply Z.ltb_ge in E.
      assert (0 ≤ n / 10 < 2 ^ Z.of_nat (S fuel)) as Hq.
      { split; [apply Z.div_pos; lia|].
        apply Z.div_lt_upper_bound; [lia|].
        rewrite (Nat2Z.inj_succ (S fuel)), Z.pow_succ_r in Hn by lia. lia. }
      destruct (IH (n / 10) (String (digit_char (n mod 10)) acc) Hq)
        as (ds & Hds & Hne & Hlen & Hdig & Hval).
      pose proof (Z.mod_pos_bound n 10 ltac:(lia)) as Hmod.
      exists (ds +:+ String (digit_char (n mod 10)) ""). split_and!.
      * rewrite Hds. apply append_snoc.
      * destruct ds; done.
      * rewrite length_append. simpl. lia.
      * rewrite text_of_app. apply Forall_app. split; [done|].
        constructor; [|done]. apply is_ascii_digit_spec.
        rewrite cp_digit_char by done. lia.
      * intros a. rewrite text_of_app, digits_value_app, Hval.
        cbn [text_of digits_value]. rewrite cp_digit_char by done.
        rewrite length_append. cbn [String.length].
        rewrite Nat2Z.inj_add. change (Z.of_nat 1) with 1.
        rewrite Z.pow_add_r by lia. change (10 ^ 1) with 10.
        rewrite N2Z.inj_add, Z2N.id by lia. change (Z.of_N 48) with 48.
        pose proof (Z.div_mod n 10 ltac:(lia)). lia.
Qed.

Lemma decimal_of_spec n :
  0 ≤ n →
  ∃ ds, decimal_of n = ds ∧ ds ≠ ""%string ∧
        (String.length ds ≤ S (Z.to_nat (Z.log2 n)))%nat ∧
        Forall (λ c, is_ascii_digit c = true) (text_of ds) ∧
        digits_value 0 (text_of ds) = n.
Proof.
  intros Hn. unfold decimal_of.
  destruct (decimal_digits_spec (Z.to_nat (Z.log2 n)) n "") as (ds & Hds & Hne & Hlen & Hdig & Hval).
  { split; [done|]. rewrite Nat2Z.inj_succ, Z2Nat.id by apply Z.log2_nonneg.
    destruct (decide (n = 0)) as [->|Hn0]; [done|].
    apply Z.log2_spec. lia. }
  exists ds. split_and!; [|done..|].
  - rewrite Hds. apply append_empty.
  - rewrite Hval. lia.
Qed.

(** The numeral has as many digits as the number needs. *)
Lemma decimal_digits_length fuel n acc :
  0 ≤ n < 2 ^ Z.of_nat (S fuel) →
  ∃ ds, decimal_digits (S fuel) n acc = ds +:+ acc ∧
        n < 10 ^ Z.of_nat (String.length ds) ∧
        (10 ^ Z.of_nat (String.length ds) ≤ 10 * n ∨ String.length ds = 1%nat).
Proof.
  revert n acc. induction fuel as [|fuel IH]; intros n acc Hn.
  - change (2 ^ Z.of_nat 1) with 2 in Hn. rewrite decimal_digits_S.
    assert ((n <? 10) = true) as -> by (apply Z.ltb_lt; lia).
    exists (String (digit_char (n mod 10)) ""). split_and!; [done| |by right].
    change (10 ^ Z.of_nat (String.length (String (digit_char (n mod 10)) ""))) with 10. lia.
  - rewrite (decimal_digits_S (S fuel)). destruct (n <? 10) eqn:E.
    + apply Z.ltb_lt in E.
      exists (String (digit_char (n mod 10)) ""). split_and!; [done| |by right].
      change (10 ^ Z.of_nat (String.length (String (digit_char (n mod 10)) ""))) with 10. lia.
    + apply Z.ltb_ge in E.
      assert (0 ≤ n / 10 < 2 ^ Z.of_nat (S fuel)) as Hq.
      { split; [apply Z.div_pos; lia|].
        apply Z.div_lt_upper_bound; [lia|].
        rewrite (Nat2Z.inj_succ (S fuel)), Z.pow_succ_r in Hn by lia. lia. }
      destruct (IH (n / 10) (String (digit_char (n mod 10)) acc) Hq)
        as (ds & Hds & Hlt & Hge).
      pose proof (Z.mod_pos_bound n 10 ltac:(lia)) as Hmod.
      pose proof (Z.div_mod n 10 ltac:(lia)) as Hdiv.
      exists (ds +:+ String (digit_char (n mod 10)) "").
      rewrite length_append. cbn [String.length].
      rewrite Nat2Z.inj_add. change (Z.of_nat 1) with 1.
      rewrite Z.pow_add_r by lia. change (10 ^ 1) with 10.
      split_and!.
      * rewrite Hds. apply append_snoc.
      * lia.
      * left. destruct Hge as [Hge| ->]; [lia|].
        change (10 ^ Z.of_nat 1) with 10. lia.
Qed.

Lemma decimal_of_length n :
  0 ≤ n →
  n < 10 ^ Z.of_nat (String.length (decimal_of n)) ∧
  (10 ^ Z.of_nat (String.length (decimal_of n)) ≤ 10 * n
   ∨ String.length (decimal_of n) = 1%nat).
Proof.
  intros Hn. unfold decimal_of.
  destruct (decimal_digits_length (Z.to_nat (Z.log2 n)) n "") as (ds & Hds & Hlen).
  { split; [done|]. rewrite Nat2Z.inj_succ, Z2Nat.id by apply Z.log2_nonneg.
    destruct (decide (n = 0)) as [->|Hn0]; [done|].
    apply Z.log2_spec. lia. }
  rewrite Hds, append_empty. exact Hlen.
Qed.

(** The numerals [str] writes are those of the integers below the limit
    of the interpreter. *)
Lemma decimal_of_within_limit n :
  0 ≤ n →
  (String.length (decimal_of n) <=? int_max_str_digits)%nat
    = (n <? 10 ^ Z.of_nat int_max_str_digits).
Proof.
  intros Hn. destruct (decimal_of_length n Hn) as [Hlt Hge].
  set (k := String.length (decimal_of n)) in *.
  destruct (Nat.leb_spec k int_max_str_digits) as [Hk|Hk]; symmetry.
  - apply Z.ltb_lt. eapply Z.lt_le_trans; [exact Hlt|].
    apply Z.pow_le_mono_r; lia.
  - apply Z.ltb_ge. destruct Hge as [Hge|Hge]; [|unfold int_max_str_digits in Hk; lia].
    assert (10 * 10 ^ Z.of_nat int_max_str_digits ≤ 10 ^ Z.of_nat k); [|lia].
    rewrite <- Z.pow_succ_r by lia. apply Z.pow_le_mono_r; lia.
Qed.

Lemma py_str_int_within n :
  Z.abs n < 10 ^ Z.of_nat int_max_str_digits → py_str_int n = Ok (decimal_repr n).
Proof.
  intros Hn. unfold py_str_int. rewrite decimal_of_within_limit by lia.
  by apply Z.ltb_lt in Hn as ->.
Qed.

Lemma py_str_int_beyond n :
  10 ^ Z.of_nat int_max_str_digits ≤ Z.abs n → py_str_int n = Raise ValueError.
Proof.
  intros Hn. unfold py_str_int. rewrite decimal_of_within_limit by lia.
  by apply Z.ltb_ge in Hn as ->.
Qed.

Lemma py_str_int_Ok n s : py_str_int n = Ok s → s = decimal_repr n.
Proof. unfold py_str_int. destruct (_ <=? _)%nat; congruence. Qed.

Lemma py_str_int_inv n s :
  py_str_int n = Ok s →
  Z.abs n < 10 ^ Z.of_nat int_max_str_digits ∧ s = decimal_repr n.
Proof.
  unfold py_str_int. rewrite decimal_of_within_limit by lia.
  destruct (Z.ltb_spec (Z.abs n) (10 ^ Z.of_nat int_max_str_digits)) as [Hlt|Hge];
    [|intros E; discriminate E].
  intros [= <-]. done.
Qed.

Lemma one_within_limit : Z.abs 1 < 10 ^ Z.of_nat int_max_str_digits.
Proof. change (Z.abs 1) with (10 ^ 0). apply Z.pow_lt_mono_r; done. Qed.

(** ** The store gateway *)

Lemma get_next_id_row supabase e log row rest v max :
  max_id_query supabase = Ok {| response_data := row :: rest |} →
  py_getitem row "id" = Ok v → py_int v = Ok max →
  get_next_id supabase e log = (Ok (max + 1), log).
Proof.
  intros Hq Hv Hn. unfold get_next_id, try_except, mbind, ui_mbind, ui_bind, lift.
  rewrite Hq. simpl. by rewrite Hv, Hn.
Qed.

Lemma get_next_id_empty supabase e log :
  max_id_query supabase = Ok {| response_data := [] |} →
  get_next_id supabase e log = (Ok 1, log).
Proof.
  intros Hq. unfold get_next_id, try_except, mbind, ui_mbind, ui_bind, lift.
  by rewrite Hq.
Qed.

Lemma get_next_id_raise supabase e log x :
  max_id_query supabase = Raise x →
  get_next_id supabase e log =
    (Ok 1, (log ++ [StError "Error getting next ID: " (ExnDetail x)])%list).
Proof.
  intros Hq. unfold get_next_id, try_except, mbind, ui_mbind, ui_bind, lift.
  by rewrite Hq.
Qed.

(** The next identifier is always computed, and it is 1 or one more than
    the identifier read from the first row. *)
Lemma get_next_id_total supabase e log :
  ∃ n log', get_next_id supabase e log = (Ok n, log') ∧
    (n = 1 ∨
     ∃ row rest v max, max_id_query supabase = Ok {| response_data := row :: rest |} ∧
        py_getitem row "id" = Ok v ∧ py_int v = Ok max ∧ n = max + 1).
Proof.
  destruct (max_id_query supabase) as [[[|row rest]]|x] eqn:Hq.
  - eexists _, _. split; [by apply get_next_id_empty|by left].
  - destruct (py_getitem row "id") as [v|y] eqn:Hv.
    + destruct (py_int v) as [max|y] eqn:Hn.
      * eexists _, _. split; [by eapply get_next_id_row|]. right. by exists row, rest, v, max.
      * eexists _, _. split; [|by left].
        unfold get_next_id, try_except, mbind, ui_mbind, ui_bind, lift.
        rewrite Hq. simpl. rewrite Hv, Hn. reflexivity.
    + eexists _, _. split; [|by left].
      unfold get_next_id, try_except, mbind, ui_mbind, ui_bind, lift.
      rewrite Hq. simpl. rewrite Hv. reflexivity.
  - eexists _, _. split; [by apply get_next_id_raise|by left].
Qed.

Lemma get_next_id_unreadable supabase e log row rest x :
  max_id_query supabase = Ok {| response_data := row :: rest |} →
  py_getitem row "id" ≫= py_int = Raise x →
  get_next_id supabase e log =
    (Ok 1, (log ++ [StError "Error getting next ID: " (ExnDetail x)])%list).
Proof.
  intros Hq Hx. unfold get_next_id, try_except, mbind at 1 2 3, ui_mbind, ui_bind, lift.
  rewrite Hq. simpl. destruct (py_getitem row "id") as [v|y]; simpl in Hx.
  - destruct (py_int v) as [n|y]; [done|]. by injection Hx as ->.
  - by injection Hx as ->.
Qed.

Lemma head_insert_desc x l :
  head (insert_desc x l) = Some (match head l with Some y => Z.max x y | None => x end).
Proof.
  destruct l as [|y l]; [done|]. simpl. destruct (y <=? x) eqn:E; simpl; f_equal.
  - apply Z.leb_le in E. lia.
  - apply Z.leb_gt in E. lia.
Qed.

Lemma head_sort_desc ids : head (sort_desc ids) = greatest ids.
Proof.
  induction ids as [|x ids IH]; [done|]. simpl. by rewrite head_insert_desc, IH.
Qed.

(** With the reference table the next identifier is one more than the
    greatest identifier of the table. *)
Lemma get_next_id_table ids e log :
  get_next_id (table_client ids) e log =
    (Ok (match greatest ids with Some max => max + 1 | None => 1 end), log).
Proof.
  rewrite <- head_sort_desc.
  destruct (sort_desc ids) as [|max rest] eqn:E.
  - apply get_next_id_empty. simpl. by rewrite E.
  - apply (get_next_id_row _ _ _ (row_of_id max) [] (JInt max)); [|done..].
    simpl. rewrite E. change (Z.to_nat 1) with 1%nat. by destruct rest.
Qed.

(** C5.  [get_next_id] always returns a number.  When the query answers
    with a row whose [id] converts to the integer [max], the result is
    [max + 1]; when it answers with no row the result is 1; when the query
    raises, or the [id] of the row cannot be read, the result is 1 and the
    error is shown on the page.  Against a table that answers the query as
    asked, the result is one more than the greatest identifier of the
    table, and 1 for the empty table. *)
Theorem get_next_id_spec (supabase : Client) (e : env) (log : list message) :
  (∃ n log', get_next_id supabase e log = (Ok n, log')) ∧
  (∀ row rest v max,
     max_id_query supabase = Ok {| response_data := row :: rest |} →
     py_getitem row "id" = Ok v → py_int v = Ok max →
     get_next_id supabase e log = (Ok (max + 1), log)) ∧
  (max_id_query supabase = Ok {| response_data := [] |} →
     get_next_id supabase e log = (Ok 1, log)) ∧
  (∀ x, max_id_query supabase = Raise x →
     get_next_id supabase e log =
       (Ok 1, (log ++ [StError "Error getting next ID: " (ExnDetail x)])%list)) ∧
  (∀ row rest x,
     max_id_query supabase = Ok {| response_data := row :: rest |} →
     py_getitem row "id" ≫= py_int = Raise x →
     get_next_id supabase e log =
       (Ok 1, (log ++ [StError "Error getting next ID: " (ExnDetail x)])%list)) ∧
  (∀ ids,
     get_next_id (table_client ids) e log =
       (Ok (match greatest ids with Some max => max + 1 | None => 1 end), log)).
Proof.
  split_and!.
  - destruct (get_next_id_total supabase e log) as (n & log' & Hn & _). eauto.
  - intros row rest v max. apply get_next_id_row.
  - apply get_next_id_empty.
  - intros x. apply get_next_id_raise.
  - intros row rest x. apply get_next_id_unreadable.
  - intros ids. apply get_next_id_table.
Qed.

Lemma get_next_id_spec_witness :
  max_id_query (table_client [3; 41; 7]) = Ok {| response_data := [row_of_id 41] |} ∧
  py_getitem (row_of_id 41) "id" = Ok (JInt 41) ∧ py_int (JInt 41) = Ok 41 ∧
  get_next_id (table_client [3; 41; 7]) offline_env [] = (Ok 42, []).
Proof.
  split_and!; [reflexivity|reflexivity|reflexivity|].
  apply (proj1 (proj2 (get_next_id_spec (table_client [3; 41; 7]) offline_env []))
           (row_of_id 41) [] (JInt 41) 41); reflexivity.
Defined.

Lemma record_with_lookup id date now (data : gmap string string) k :
  record_with id date now data !! k =
    match data !! k with
    | Some time => Some time
    | None =>
        (<["created_at" := now]>
           (<["date" := date]> ({["id" := id]} : gmap string string))) !! k
    end.
Proof.
  unfold record_with.
  apply (map_fold_weak_ind
    (λ r (m : gmap string string), r !! k = match m !! k with Some t => Some t | None => _ end)).
  - by rewrite lookup_empty.
  - intros i x m r Hi IH. destruct (decide (i = k)) as [->|Hne].
    + by rewrite !lookup_insert_eq.
    + rewrite (lookup_insert_ne r i k x), (lookup_insert_ne m i k x) by done. apply IH.
Qed.

Lemma insertion_record_Ok n date now data record :
  insertion_record n date now data = Ok record →
  py_str_int n = Ok (decimal_repr n) ∧ record = record_with (decimal_repr n) date now data.
Proof.
  unfold insertion_record. destruct (py_str_int n) as [id|x] eqn:E; [|done].
  apply py_str_int_Ok in E as ->. simpl. intros [= <-]. done.
Qed.

Lemma insertion_record_within n date now data :
  Z.abs n < 10 ^ Z.of_nat int_max_str_digits →
  insertion_record n date now data = Ok (record_with (decimal_repr n) date now data).
Proof. intros Hn. unfold insertion_record. by rewrite py_str_int_within. Qed.

Lemma insertion_record_beyond n date now data :
  10 ^ Z.of_nat int_max_str_digits ≤ Z.abs n →
  insertion_record n date now data = Raise ValueError.
Proof. intros Hn. unfold insertion_record. by rewrite py_str_int_beyond. Qed.

Lemma insertion_record_cases n date now data :
  (Z.abs n < 10 ^ Z.of_nat int_max_str_digits ∧
   insertion_record n date now data = Ok (record_with (decimal_repr n) date now data)) ∨
  (10 ^ Z.of_nat int_max_str_digits ≤ Z.abs n ∧
   insertion_record n date now data = Raise ValueError).
Proof.
  destruct (Z.lt_ge_cases (Z.abs n) (10 ^ Z.of_nat int_max_str_digits)) as [H|H].
  - left. split; [done|]. by apply insertion_record_within.
  - right. split; [done|]. by apply insertion_record_beyond.
Qed.

Lemma update_database_unfold supabase data date e log n log1 :
  get_next_id supabase e log = (Ok n, log1) →
  update_database supabase data date e log =
    match insertion_record n date (now_isoformat e) data with
    | Ok record =>
        match insert_execute supabase "crossword_times" record with
        | Ok response =>
            (Ok (match response_data response with
                 | [] => (false, None)
                 | _ :: _ => (true, Some n)
                 end), log1)
        | Raise x =>
            (Ok (false, None),
             (log1 ++ [StError "Error updating database: " (ExnDetail x)])%list)
        end
    | Raise x =>
        (Ok (false, None), (log1 ++ [StError "Error updating database: " (ExnDetail x)])%list)
    end.
Proof.
  intros Hn. unfold update_database, try_except, mbind, ui_mbind, ui_bind, lift, ask.
  rewrite Hn. destruct (insertion_record _ _ _ _) as [record|x]; [|reflexivity].
  destruct (insert_execute _ _ _) as [[[|row rows]]|x]; reflexivity.
Qed.

Lemma update_database_beyond supabase data date e log n log1 :
  get_next_id supabase e log = (Ok n, log1) →
  10 ^ Z.of_nat int_max_str_digits ≤ Z.abs n →
  update_database supabase data date e log =
    (Ok (false, None),
     (log1 ++ [StError "Error updating database: " (ExnDetail ValueError)])%list).
Proof.
  intros Hn Hge.
  by rewrite (update_database_unfold _ _ _ _ _ _ _ Hn), insertion_record_beyond.
Qed.

Lemma widest_id_next : 10 ^ Z.of_nat int_max_str_digits ≤ Z.abs (widest_id + 1).
Proof.
  unfold widest_id. change (Z.of_nat int_max_str_digits) with 4300.
  rewrite Z.sub_add, Z.abs_eq by (apply Z.pow_nonneg; done). apply Z.le_refl.
Qed.

(** The fields of the record. *)
Lemma record_with_fields id date now (data : gmap string string) :
  (∀ player, is_Some (data !! player) → player ∈ player_names) →
  let record := record_with id date now data in
  (∀ k, is_Some (record !! k) ↔
        k = "id"%string ∨ k = "date"%string ∨ k = "created_at"%string ∨ is_Some (data !! k)) ∧
  record !! "id" = Some id ∧
  record !! "date" = Some date ∧
  record !! "created_at" = Some now ∧
  (∀ player time, data !! player = Some time → record !! player = Some time).
Proof.
  intros Hplayers.
  assert (∀ k, k ∉ player_names → data !! k = None) as Hfixed.
  { intros k Hk. destruct (data !! k) eqn:E; [|done]. destruct Hk. apply Hplayers. eauto. }
  assert (∀ k : string, k ∈ ["id"; "date"; "created_at"]%string → k ∉ player_names) as Hnot.
  { intros k Hk Hin. apply list_elem_of_In in Hk, Hin. simpl in Hk, Hin.
    repeat (destruct Hk as [<-|Hk]; [repeat (destruct Hin as [Hin|Hin]; [discriminate Hin|]); destruct Hin|]).
    destruct Hk. }
  cbv zeta. split_and!.
  - intros k. rewrite record_with_lookup. destruct (data !! k) as [t|] eqn:E.
    + split; [intros _; right; right; right; eauto|eauto].
    + destruct (decide (k = "created_at"%string)) as [->|H1];
        [rewrite lookup_insert_eq; split; eauto|].
      rewrite lookup_insert_ne by done.
      destruct (decide (k = "date"%string)) as [->|H2];
        [rewrite lookup_insert_eq; split; eauto|].
      rewrite lookup_insert_ne by done.
      destruct (decide (k = "id"%string)) as [->|H3];
        [rewrite lookup_singleton_eq; split; eauto|].
      rewrite lookup_singleton_ne by done.
      split; [by intros [? ?]|intros [?|[?|[?|[? ?]]]]; done].
  - rewrite record_with_lookup, Hfixed by (apply Hnot, list_elem_of_In; simpl; tauto). done.
  - rewrite record_with_lookup, Hfixed by (apply Hnot, list_elem_of_In; simpl; tauto). done.
  - rewrite record_with_lookup, Hfixed by (apply Hnot, list_elem_of_In; simpl; tauto). done.
  - intros player time Hp. by rewrite record_with_lookup, Hp.
Qed.

(** C6, as stated, does not hold: when the greatest identifier in the
    store is -5 the next identifier is -4, which is not positive. *)
Lemma record_identifier_not_positive :
  get_next_id (client_answering [row_of_id (-5)]) offline_env [] = (Ok (-4), []) ∧
  (∃ record,
     insertion_record (-4) "2024-01-01" (now_isoformat offline_env) ∅ = Ok record ∧
     record !! "id" = Some "-4"%string) ∧
  ¬ ∀ supabase e log date (data : gmap string string),
      (∀ player, is_Some (data !! player) → player ∈ player_names) →
      ∃ n log' record,
        get_next_id supabase e log = (Ok n, log') ∧ 0 < n ∧
        insertion_record n date (now_isoformat e) data = Ok record ∧
        record !! "id" = Some (decimal_repr n).
Proof.
  assert (get_next_id (client_answering [row_of_id (-5)]) offline_env [] = (Ok (-4), []))
    as Hnext by reflexivity.
  split_and!; [exact Hnext| |].
  { eexists. split; reflexivity. }
  intros H.
  destruct (H (client_answering [row_of_id (-5)]) offline_env [] "2024-01-01" ∅)
    as (n & log' & record & Hn & Hpos & _).
  - intros player [v Hv]. by rewrite lookup_empty in Hv.
  - rewrite Hnext in Hn. injection Hn as <- _. lia.
Qed.

(** C6, amended.  For times keyed by roster names, the record handed to
    the insertion has exactly the fields [id], [date] and [created_at] and
    one field per player of the times mapping, with that player's time; a
    player absent from the mapping has no field.  The [id] field is the
    decimal numeral [str] writes for the identifier [get_next_id]
    returned, which is positive whenever the identifier read from the
    store is not negative (or there is none).  The record is built
    whenever the identifier has no more digits than [str] writes; beyond
    that no record is built and nothing is inserted. *)
Theorem insertion_record_fields (supabase : Client) (e : env) (log : list message)
    (date : string) (data : gmap string string) :
  (∀ player, is_Some (data !! player) → player ∈ player_names) →
  ∃ n log1,
    get_next_id supabase e log = (Ok n, log1) ∧
    ((∀ row rest v max,
        max_id_query supabase = Ok {| response_data := row :: rest |} →
        py_getitem row "id" = Ok v → py_int v = Ok max → 0 ≤ max) → 0 < n) ∧
    (Z.abs n < 10 ^ Z.of_nat int_max_str_digits →
     ∃ record, insertion_record n date (now_isoformat e) data = Ok record) ∧
    (10 ^ Z.of_nat int_max_str_digits ≤ Z.abs n →
     insertion_record n date (now_isoformat e) data = Raise ValueError ∧
     update_database supabase data date e log =
       (Ok (false, None),
        (log1 ++ [StError "Error updating database: " (ExnDetail ValueError)])%list)) ∧
    ∀ record, insertion_record n date (now_isoformat e) data = Ok record →
      (∀ k, is_Some (record !! k) ↔
            k = "id"%string ∨ k = "date"%string ∨ k = "created_at"%string ∨ is_Some (data !! k)) ∧
      py_str_int n = Ok (decimal_repr n) ∧
      record !! "id" = Some (decimal_repr n) ∧
      record !! "date" = Some date ∧
      record !! "created_at" = Some (now_isoformat e) ∧
      (∀ player time, data !! player = Some time → record !! player = Some time) ∧
      update_database supabase data date e log =
        match insert_execute supabase "crossword_times" record with
        | Ok response =>
            (Ok (match response_data response with
                 | [] => (false, None)
                 | _ :: _ => (true, Some n)
                 end), log1)
        | Raise x =>
            (Ok (false, None),
             (log1 ++ [StError "Error updating database: " (ExnDetail x)])%list)
        end.
Proof.
  intros Hplayers.
  destruct (get_next_id_total supabase e log) as (n & log1 & Hn & Hcase).
  exists n, log1. split; [done|]. split_and!.
  - intros Hmax. destruct Hcase as [->|(row & rest & v & max & Hq & Hv & Hi & ->)]; [lia|].
    specialize (Hmax row rest v max Hq Hv Hi). lia.
  - intros Hlt. eexists. by apply insertion_record_within.
  - intros Hge. split; [by apply insertion_record_beyond|by apply (update_database_beyond _ _ _ _ _ n)].
  - intros record Hrec.
    pose proof (update_database_unfold _ data date _ _ _ _ Hn) as Hu. rewrite Hrec in Hu.
    apply insertion_record_Ok in Hrec as [Hstr ->].
    destruct (record_with_fields (decimal_repr n) date (now_isoformat e) data Hplayers)
      as (Hk & Hid & Hdate & Hnow & Hdata).
    split_and!; done.
Qed.

Lemma insertion_record_fields_witness :
  (∀ player, is_Some (({["Vy" := "4.56"]} : gmap string string) !! player) →
             player ∈ player_names) ∧
  ∃ n log1 record,
    get_next_id (client_answering [row_of_id 41]) offline_env [] = (Ok n, log1) ∧
    0 < n ∧
    insertion_record n "2024-01-01" (now_isoformat offline_env) {["Vy" := "4.56"]}
      = Ok record ∧
    record !! "id" = Some (decimal_repr n) ∧
    record !! "Vy" = Some "4.56"%string.
Proof.
  assert (∀ player, is_Some (({["Vy" := "4.56"]} : gmap string string) !! player) →
                    player ∈ player_names) as Hplayers.
  { intros player [v Hv]. apply lookup_singleton_Some in Hv as [<- _].
    apply list_elem_of_In; simpl; tauto. }
  split; [exact Hplayers|].
  destruct (insertion_record_fields (client_answering [row_of_id 41]) offline_env []
              "2024-01-01" {["Vy" := "4.56"]} Hplayers)
    as (n & log1 & Hn & Hpos & Hbuilt & _ & Hfields).
  assert (n = 42) as Hn42 by (injection Hn as <- _; reflexivity).
  destruct Hbuilt as (record & Hrec); [subst n; by vm_compute|].
  destruct (Hfields record Hrec) as (_ & _ & Hid & _ & _ & Hdata & _).
  exists n, log1, record. split_and!; [exact Hn| |exact Hrec|exact Hid|].
  - apply Hpos. intros row rest v max Hq Hv Hm.
    injection Hq as <- _. vm_compute in Hv. injection Hv as <-.
    injection Hm as <-. lia.
  - apply Hdata. apply lookup_singleton_eq.
Defined.

(** C7, as stated, does not hold: against a store whose greatest
    identifier is 4300 nines and which answers every insertion with a row,
    the next identifier has 4301 digits, [str] refuses it, and
    [update_database] returns [(False, None)] although no insertion raised
    or came back empty: none was made. *)
Lemma update_database_fails_before_insertion :
  get_next_id (client_answering [row_of_id widest_id]) offline_env []
    = (Ok (widest_id + 1), []) ∧
  (∀ record, insert_execute (client_answering [row_of_id widest_id]) "crossword_times" record
             = Ok {| response_data := [JDict []] |}) ∧
  update_database (client_answering [row_of_id widest_id]) ∅ "2024-01-01" offline_env []
    = (Ok (false, None), [StError "Error updating database: " (ExnDetail ValueError)]) ∧
  ¬ ∀ supabase data date e log out log',
      update_database supabase data date e log = (Ok out, log') →
      out = (false, None) →
      ∃ record,
        (∃ x, insert_execute supabase "crossword_times" record = Raise x) ∨
        insert_execute supabase "crossword_times" record = Ok {| response_data := [] |}.
Proof.
  assert (get_next_id (client_answering [row_of_id widest_id]) offline_env []
            = (Ok (widest_id + 1), [])) as Hnext.
  { by apply (get_next_id_row _ _ _ (row_of_id widest_id) [] (JInt widest_id)). }
  pose proof (update_database_beyond _ ∅ "2024-01-01" _ _ _ _ Hnext widest_id_next) as Hrun.
  split_and!; [exact Hnext|reflexivity|exact Hrun|].
  intros H.
  destruct (H _ _ _ _ _ _ _ Hrun eq_refl) as (record & [[x Hx]|Hx]); discriminate.
Qed.

(** C7, amended.  [update_database] never raises.  It returns
    [(False, None)] exactly when the identifier has more digits than [str]
    writes (no record is built and nothing is inserted), or the insertion
    raises, or the insertion answers with no row; and it returns
    [(True, next_id)], with the identifier [get_next_id] computed, exactly
    when the record is built and the insertion answers with at least one
    row. *)
Theorem update_database_result (supabase : Client) (data : gmap string string)
    (date : string) (e : env) (log : list message) :
  ∃ n log1 out log2,
    get_next_id supabase e log = (Ok n, log1) ∧
    update_database supabase data date e log = (Ok out, log2) ∧
    let built := insertion_record n date (now_isoformat e) data in
    (built = Raise ValueError ↔ 10 ^ Z.of_nat int_max_str_digits ≤ Z.abs n) ∧
    (out = (false, None) ↔
       built = Raise ValueError ∨
       ∃ record, built = Ok record ∧
         ((∃ x, insert_execute supabase "crossword_times" record = Raise x) ∨
          insert_execute supabase "crossword_times" record = Ok {| response_data := [] |})) ∧
    (out = (true, Some n) ↔
       ∃ record row rows, built = Ok record ∧
         insert_execute supabase "crossword_times" record
           = Ok {| response_data := row :: rows |}).
Proof.
  destruct (get_next_id_total supabase e log) as (n & log1 & Hn & _).
  rewrite (update_database_unfold _ _ _ _ _ _ _ Hn).
  exists n, log1. cbv zeta.
  destruct (insertion_record_cases n date (now_isoformat e) data) as [[Hlt ->]|[Hge ->]].
  - set (record := record_with _ _ _ _).
    destruct (insert_execute supabase "crossword_times" record) as [[[|row rows]]|x] eqn:Hins.
    + eexists _, _. split_and!; [done..| | |].
      * split; [intros E; discriminate E|]. intros Hge. destruct (proj1 (Z.lt_nge _ _) Hlt Hge).
      * split; [|done]. intros _. right. exists record. rewrite Hins. eauto.
      * split; [done|]. intros (r & row & rows & [= <-] & Hr). congruence.
    + eexists _, _. split_and!; [done..| | |].
      * split; [intros E; discriminate E|]. intros Hge. destruct (proj1 (Z.lt_nge _ _) Hlt Hge).
      * split; [done|]. intros [?|(r & [= <-] & [[x Hx]|Hx])]; congruence.
      * split; [|done]. intros _. exists record, row, rows. by rewrite Hins.
    + eexists _, _. split_and!; [done..| | |].
      * split; [intros E; discriminate E|]. intros Hge. destruct (proj1 (Z.lt_nge _ _) Hlt Hge).
      * split; [|done]. intros _. right. exists record. rewrite Hins. eauto.
      * split; [done|]. intros (r & row & rows & [= <-] & Hr). congruence.
  - eexists _, _. split_and!; [done..| | |].
    + done.
    + split; [|done]. intros _. by left.
    + split; [done|]. intros (r & row & rows & ? & _). done.
Qed.

(** ** The hosted text extractor *)

Lemma concat_pages_texts pages texts acc :
  Forall2 (λ page t, page_text page t) pages texts →
  concat_pages pages acc = Ok (acc ++ concat texts)%list.
Proof.
  intros H. revert acc. induction H as [|page t pages texts Hp _ IH]; intros acc; simpl.
  - by rewrite app_nil_r.
  - rewrite Hp. simpl. rewrite IH. by rewrite <- app_assoc.
Qed.

Lemma extract_no_key image_bytes e log :
  ocr_api_key e = ""%string →
  extract_text_from_image_ocrspace image_bytes e log =
    (Ok [], (log ++ [StError "OCR.space API Key is required" NoDetail])%list).
Proof.
  intros Hk. unfold extract_text_from_image_ocrspace, mbind, ui_mbind, ui_bind, ask.
  by rewrite bool_decide_eq_true_2.
Qed.

Lemma extract_with_key image_bytes e log :
  ocr_api_key e ≠ ""%string →
  extract_text_from_image_ocrspace image_bytes e log =
    match ocr_attempt image_bytes e log with
    | (Ok t, log') => (Ok t, log')
    | (Raise x, log') =>
        (Ok [], (log' ++ [StError "Error extracting text from image: " (ExnDetail x)])%list)
    end.
Proof.
  intros Hk. unfold extract_text_from_image_ocrspace, mbind, ui_mbind, ui_bind, ask.
  rewrite bool_decide_eq_false_2 by done. unfold try_except.
  by destruct (ocr_attempt image_bytes e log) as [[t|x] log'].
Qed.

Lemma ocr_attempt_post_raises image_bytes e log x :
  ocr_post e image_bytes = Raise x → ocr_attempt image_bytes e log = (Raise x, log).
Proof.
  intros H. unfold ocr_attempt, mbind, ui_mbind, ui_bind, ask, lift. by rewrite H.
Qed.

Lemma ocr_attempt_bad_status image_bytes e log response :
  ocr_post e image_bytes = Ok response → status_code response ≠ 200 →
  ocr_attempt image_bytes e log =
    (Ok [], (log ++ [StError "OCR.space API error: " (TextDetail (response_text response))])%list).
Proof.
  intros H Hs. unfold ocr_attempt, mbind, ui_mbind, ui_bind, ask, lift. rewrite H.
  apply Z.eqb_neq in Hs. by rewrite Hs.
Qed.

Lemma ocr_attempt_bad_exit image_bytes e log response result code :
  ocr_post e image_bytes = Ok response → status_code response = 200 →
  response_json response = Ok result →
  py_getitem result "OCRExitCode" = Ok code → py_ne_one code = true →
  ∃ log', ocr_attempt image_bytes e log = (Ok [], log').
Proof.
  intros H Hs Hj Hc Hne. unfold ocr_attempt, mbind, ui_mbind, ui_bind, ask, lift. rewrite H.
  apply Z.eqb_eq in Hs. rewrite Hs. simpl. rewrite Hj, Hc, Hne.
  destruct result; try done. simpl. destruct (dict_lookup _ d); eauto.
Qed.

Lemma ocr_attempt_success image_bytes e log response result code pages texts :
  ocr_post e image_bytes = Ok response → status_code response = 200 →
  response_json response = Ok result →
  py_getitem result "OCRExitCode" = Ok code → py_ne_one code = false →
  py_get result "ParsedResults" (JList []) = Ok (JList pages) →
  Forall2 (λ page t, page_text page t) pages texts →
  ocr_attempt image_bytes e log = (Ok (concat texts), log).
Proof.
  intros H Hs Hj Hc Hne Hp Ht. unfold ocr_attempt, mbind, ui_mbind, ui_bind, ask, lift. rewrite H.
  apply Z.eqb_eq in Hs. rewrite Hs. simpl. rewrite Hj, Hc, Hne, Hp. simpl.
  by rewrite (concat_pages_texts pages texts []).
Qed.

(** C8.  The hosted text extractor never raises.  It returns the empty
    string when the key is missing, when the request raises, when the HTTP
    status is not 200, when the exit code of the provider differs from 1 and
    when anything else in the attempt raises.  On success it returns the
    texts of the parsed results concatenated in the order of the answer,
    with nothing between them. *)
Theorem extract_text_never_raises (image_bytes : list byte) (e : env) (log : list message) :
  ∃ t log',
    extract_text_from_image_ocrspace image_bytes e log = (Ok t, log') ∧
    (ocr_api_key e = ""%string → t = []) ∧
    (∀ x log1, ocr_attempt image_bytes e log = (Raise x, log1) → t = []) ∧
    (∀ x, ocr_post e image_bytes = Raise x → t = []) ∧
    (∀ response, ocr_post e image_bytes = Ok response →
       status_code response ≠ 200 → t = []) ∧
    (∀ response result code,
       ocr_post e image_bytes = Ok response → status_code response = 200 →
       response_json response = Ok result →
       py_getitem result "OCRExitCode" = Ok code → py_ne_one code = true → t = []) ∧
    (∀ response result code pages texts,
       ocr_api_key e ≠ ""%string →
       ocr_post e image_bytes = Ok response → status_code response = 200 →
       response_json response = Ok result →
       py_getitem result "OCRExitCode" = Ok code → py_ne_one code = false →
       py_get result "ParsedResults" (JList []) = Ok (JList pages) →
       Forall2 (λ page t, page_text page t) pages texts →
       t = concat texts).
Proof.
  destruct (decide (ocr_api_key e = ""%string)) as [Hk|Hk].
  { rewrite extract_no_key by done. eexists _, _. split; [done|].
    split_and!; try done. }
  rewrite extract_with_key by done.
  destruct (ocr_attempt image_bytes e log) as [[t|x] log'] eqn:Ha.
  - exists t, log'. split; [done|]. split_and!.
    + done.
    + done.
    + intros x H. rewrite (ocr_attempt_post_raises _ _ _ _ H) in Ha. done.
    + intros response H Hs. rewrite (ocr_attempt_bad_status _ _ _ _ H Hs) in Ha. congruence.
    + intros response result code H Hs Hj Hc Hne.
      destruct (ocr_attempt_bad_exit _ _ log _ _ _ H Hs Hj Hc Hne) as (? & E). congruence.
    + intros response result code pages texts _ H Hs Hj Hc Hne Hp Ht.
      rewrite (ocr_attempt_success _ _ _ _ _ _ _ _ H Hs Hj Hc Hne Hp Ht) in Ha. congruence.
  - eexists _, _. split; [done|]. split_and!; try done.
    intros response result code pages texts _ H Hs Hj Hc Hne Hp Ht.
    rewrite (ocr_attempt_success _ _ _ _ _ _ _ _ H Hs Hj Hc Hne Hp Ht) in Ha. congruence.
Qed.

Lemma extract_text_never_raises_witness :
  extract_text_from_image_ocrspace [x66; x6f; x6f] (env_answering "K" ok_response) []
    = (Ok (text_of "Merrick: 3.50 Vy 4.56"), []).
Proof.
  destruct (extract_text_never_raises [x66; x6f; x6f] (env_answering "K" ok_response) [])
    as (t & log' & Ht & _ & _ & _ & _ & _ & Hok).
  rewrite (Hok ok_response two_pages (JInt 1) _
             [text_of "Merrick: 3.50 "; text_of "Vy 4.56"]
             ltac:(discriminate) eq_refl eq_refl eq_refl eq_refl eq_refl eq_refl) in Ht.
  - vm_compute in Ht. injection Ht as <-. reflexivity.
  - repeat constructor.
Defined.

(** * Properties of the further functions *)

Local Open Scope N_scope.

(** ** Text around a match *)

Lemma greedy_skip a k s : is_Some (k s) → is_Some (greedy a k s).
Proof.
  intros Hk. destruct s as [|c s]; [done|]. simpl.
  destruct (atom_matches a c); [|done]. by destruct (greedy a k s).
Qed.

Lemma greedy_app a k pre rest :
  Forall (λ c, atom_matches a c = true) pre →
  is_Some (greedy a k rest) → is_Some (greedy a k (pre ++ rest)).
Proof.
  intros Hpre Hk. induction Hpre as [|c pre Hc _ IH]; [done|].
  simpl. rewrite Hc. destruct IH as [r ->]. eauto.
Qed.

(** A match at the head of a text is a match at the head of every
    extension of the text. *)
Lemma re_match_here_extend ns mk mk' s post :
  is_Some (re_match_here ns mk s) → is_Some (re_match_here ns mk' (s ++ post)).
Proof.
  revert mk mk' s. induction ns as [|n ns IH]; intros mk mk' s; [by eauto|].
  destruct n as [a|a|a| |]; cbn [re_match_here].
  - destruct s as [|c s]; [by intros []|]. simpl.
    destruct (atom_matches a c); [apply IH|by intros []].
  - intros [r H]. apply greedy_inv in H as (pre & rest & -> & Hpre & H).
    rewrite <- app_assoc. apply greedy_app; [done|]. apply greedy_skip.
    apply (IH mk). by rewrite H.
  - destruct s as [|c s]; [by intros []|]. simpl.
    destruct (atom_matches a c); [|by intros []].
    intros [r H]. apply greedy_inv in H as (pre & rest & -> & Hpre & H).
    rewrite <- app_assoc. apply greedy_app; [done|]. apply greedy_skip.
    apply (IH mk). by rewrite H.
  - apply IH.
  - apply IH.
Qed.

Lemma search_from_extend_right ns s post :
  is_Some (search_from ns s) → is_Some (search_from ns (s ++ post)).
Proof.
  induction s as [|c s IH]; cbn [search_from].
  - destruct (re_match_here ns no_marks []) as [mk|] eqn:E; [|by intros []].
    intros _. destruct (re_match_here_extend ns no_marks no_marks [] post) as [r Hr];
      [by rewrite E|].
    simpl in Hr. destruct post; simpl; by rewrite Hr.
  - destruct (re_match_here ns no_marks (c :: s)) as [mk|] eqn:E.
    + intros _. destruct (re_match_here_extend ns no_marks no_marks (c :: s) post) as [r Hr];
        [by rewrite E|].
      simpl in Hr. simpl. by rewrite Hr.
    + intros H. simpl. destruct (re_match_here ns no_marks (c :: s ++ post)); [done|].
      by apply IH.
Qed.

Lemma search_from_extend_left ns pre s :
  is_Some (search_from ns s) → is_Some (search_from ns (pre ++ s)).
Proof.
  intros H. induction pre as [|c pre IH]; [done|].
  simpl. by destruct (re_match_here ns no_marks (c :: pre ++ s)).
Qed.

Lemma search_from_extend ns pre s post :
  is_Some (search_from ns s) → is_Some (search_from ns (pre ++ s ++ post)).
Proof. intros H. by apply search_from_extend_left, search_from_extend_right. Qed.

(** A pattern that yields a number on a text yields one on the text with
    anything before and after it, as long as the whole has no more
    characters than [float] takes digits. *)
Lemma pattern_hit_extend name p pre s post :
  pattern_ok name p = true →
  (Z.of_nat (length (pre ++ s ++ post)) ≤ max_float_digits)%Z →
  is_Some (pattern_hit py_float s p) →
  is_Some (pattern_hit py_float (pre ++ s ++ post) p).
Proof.
  intros Hok Hlen [x Hx]. apply pattern_hit_Some in Hx as (m & cap & Hs & _ & _).
  assert (∃ m', re_search p (pre ++ s ++ post) = Some (Some m')) as [m' Hm'].
  { unfold pattern_ok in Hok. unfold re_search in *.
    destruct (re_compile p) as [ns|]; [|done]. simpl in *. injection Hs as Hs.
    destruct (search_from_extend ns pre s post) as [m' Hm']; [by rewrite Hs|].
    exists m'. by rewrite Hm'. }
  destruct (pattern_ok_piece name p (pre ++ s ++ post) m' Hok Hm')
    as (before & cap' & after & Hpiece & Hc' & Hdec).
  destruct (py_float_accepts cap' Hdec) as [x' Hx'].
  { rewrite Hpiece, !length_app in Hlen. lia. }
  exists x'. apply pattern_hit_Some. exists m', cap'. split_and!; done.
Qed.

Lemma first_hit_extend name pats pre s post :
  forallb (pattern_ok name) pats = true →
  (Z.of_nat (length (pre ++ s ++ post)) ≤ max_float_digits)%Z →
  is_Some (first_hit py_float s pats) →
  is_Some (first_hit py_float (pre ++ s ++ post) pats).
Proof.
  intros Hok Hlen [x Hx].
  apply first_hit_Some in Hx as (i & p & Hi & Hp & _).
  assert (p ∈ pats) as Hin by by eapply list_elem_of_lookup_2.
  assert (pattern_ok name p = true) as Hp_ok.
  { rewrite forallb_forall in Hok. apply Hok. by apply list_elem_of_In. }
  destruct (first_hit py_float (pre ++ s ++ post) pats) as [y|] eqn:E; [done|].
  rewrite first_hit_None in E. specialize (E p Hin).
  destruct (pattern_hit_extend name p pre s post Hp_ok Hlen) as [y Hy]; [by rewrite Hp|].
  congruence.
Qed.

(** ** The capture is a piece of the text *)

(** An entry of the result is the string of the number read from a piece
    of the text that is digits, a full stop, digits. *)
Lemma entry_piece patterns (d : gmap string string) s name v :
  (∀ n, n ∈ player_names → forallb (pattern_ok n) (patterns n) = true) →
  (∀ n, d !! n = if decide (n ∈ player_names)
                 then py_str_float <$> first_hit py_float s (patterns n) else None) →
  d !! name = Some v →
  ∃ pre cap rest x, s = pre ++ cap ++ rest ∧ decimal_capture cap ∧
                    py_float cap = Some x ∧ v = py_str_float x.
Proof.
  intros Hok Hd Hv.
  destruct (entry_origin patterns d s name v Hok Hd Hv)
    as (Hin & p & m & cap & x & Hp & Hs & Hc & _ & Hx & -> & _).
  destruct (pattern_ok_piece name p s m) as (pre & cap' & rest & -> & Hc' & Hdec);
    [by eapply patterns_ok_elem; eauto|done|].
  assert (cap' = cap) as -> by congruence.
  exists pre, cap, rest, x. split_and!; done.
Qed.

Lemma decimal_capture_stop cap : decimal_capture cap → 0x2e ∈ cap.
Proof.
  intros (ds1 & ds2 & -> & _). apply elem_of_app. right. left.
Qed.

(** ** The patterns of the two scripts *)

Lemma hosted_patterns_base name :
  Hosted.patterns name =
    Base.patterns name ++ [name +:+ "'s time:\s*(\d+\.\d+)"; name +:+ "\s*=\s*(\d+\.\d+)"]%string.
Proof. reflexivity. Qed.

Lemma first_hit_app to_float s pats pats' :
  first_hit to_float s (pats ++ pats') =
    match first_hit to_float s pats with
    | Some x => Some x
    | None => first_hit to_float s pats'
    end.
Proof.
  induction pats as [|p pats IH]; [done|].
  simpl. rewrite !first_hit_cons. by destruct (pattern_hit to_float s p).
Qed.

Local Open Scope Z_scope.

(** ** The identifier, written and read back *)

Lemma lstrip_no_space s :
  Forall (λ c, is_ascii_space c = false) s → lstrip s = s.
Proof. intros H. destruct H as [|c s Hc _]; simpl; [done|]. by rewrite Hc. Qed.

Lemma strip_no_space s :
  Forall (λ c, is_ascii_space c = false) s → strip s = s.
Proof.
  intros H. unfold strip. rewrite (lstrip_no_space s H).
  rewrite lstrip_no_space; [apply rev_involutive|]. by apply Forall_rev.
Qed.

(** [int(str(n))] is [n]. *)
Lemma py_int_str_of_int n :
  Z.abs n < 10 ^ Z.of_nat int_max_str_digits →
  py_int_str (text_of (decimal_repr n)) = Some n.
Proof.
  intros Hn. unfold decimal_repr.
  destruct (n <? 0) eqn:Hsign.
  - apply Z.ltb_lt in Hsign.
    pose proof (decimal_of_within_limit (- n) ltac:(lia)) as Hmax.
    rewrite (proj2 (Z.ltb_lt _ _)) in Hmax by lia. apply Nat.leb_le in Hmax.
    destruct (decimal_of_spec (- n) ltac:(lia)) as (ds & Hds & Hne & Hlen & Hdig & Hval).
    rewrite Hds in Hmax |- *. clear Hds.
    change (text_of ("-" +:+ ds)) with (0x2d%N :: text_of ds).
    assert (Forall (λ c, (c < 127)%N ∧ c ≠ 0x5f%N ∧ is_ascii_space c = false)
              (0x2d%N :: text_of ds)) as Hall.
    { constructor; [by vm_compute|].
      eapply Forall_impl; [exact Hdig|]. intros c Hc. split_and!.
      - apply is_ascii_digit_spec in Hc. lia.
      - apply is_ascii_digit_spec in Hc. lia.
      - by apply digit_not_space. }
    unfold py_int_str.
    rewrite transform_ascii by (eapply Forall_impl; [exact Hall|]; by intros c (? & _)).
    rewrite strip_no_space by (eapply Forall_impl; [exact Hall|]; by intros c (_ & _ & ?)).
    rewrite remove_underscores_none;
      [|done|eapply Forall_impl; [exact Hall|]; by intros c (_ & ? & _)].
    simpl. rewrite <- (app_nil_r (text_of ds)) at 1.
    rewrite span_digits_app by done.
    destruct (text_of ds) as [|c t] eqn:Et; [by destruct ds|].
    assert ((length (c :: t) <=? int_max_str_digits)%nat = true) as ->.
    { apply Nat.leb_le. rewrite <- Et.
      assert (length (text_of ds) = String.length ds) as ->
        by (clear; induction ds; simpl; congruence).
      lia. }
    f_equal. lia.
  - apply Z.ltb_ge in Hsign.
    pose proof (decimal_of_within_limit n ltac:(lia)) as Hmax.
    rewrite (proj2 (Z.ltb_lt _ _)) in Hmax by lia. apply Nat.leb_le in Hmax.
    destruct (decimal_of_spec n ltac:(lia)) as (ds & Hds & Hne & Hlen & Hdig & Hval).
    rewrite Hds in Hmax |- *. clear Hds.
    assert (Forall (λ c, (c < 127)%N ∧ c ≠ 0x5f%N ∧ is_ascii_space c = false)
              (text_of ds)) as Hall.
    { eapply Forall_impl; [exact Hdig|]. intros c Hc. split_and!.
      - apply is_ascii_digit_spec in Hc. lia.
      - apply is_ascii_digit_spec in Hc. lia.
      - by apply digit_not_space. }
    unfold py_int_str.
    rewrite transform_ascii by (eapply Forall_impl; [exact Hall|]; by intros c (? & _)).
    rewrite strip_no_space by (eapply Forall_impl; [exact Hall|]; by intros c (_ & _ & ?)).
    rewrite remove_underscores_none;
      [|done|eapply Forall_impl; [exact Hall|]; by intros c (_ & ? & _)].
    simpl.
    destruct (text_of ds) as [|c t] eqn:Et; [by destruct ds|].
    inversion Hdig as [|? ? Hc Ht]; subst.
    assert (split_sign (c :: t) = (false, c :: t)) as ->.
    { simpl. apply is_ascii_digit_spec in Hc.
      destruct (c =? 45)%N eqn:E1; [apply N.eqb_eq in E1; lia|].
      destruct (c =? 43)%N eqn:E2; [apply N.eqb_eq in E2; lia|]. done. }
    rewrite <- (app_nil_r (c :: t)) at 1.
    rewrite span_digits_app by done.
    assert ((length (c :: t) <=? int_max_str_digits)%nat = true) as ->.
    { apply Nat.leb_le. rewrite <- Et.
      assert (length (text_of ds) = String.length ds) as ->
        by (clear; induction ds; simpl; congruence).
      lia. }
    done.
Qed.

(** ** Further properties of the parsers *)

Lemma hosted_parse_lookup s d :
  Hosted.parse_leaderboard_data s = Ok d →
  ∀ n, d !! n = if decide (n ∈ player_names)
                then py_str_float <$> first_hit py_float s (Hosted.patterns n) else None.
Proof.
  intros Hd. destruct (hosted_parse_spec py_float s) as (d0 & Hd0 & Hl).
  unfold Hosted.parse_leaderboard_data in Hd. rewrite Hd0 in Hd. by injection Hd as <-.
Qed.

Lemma base_parse_lookup s d :
  Base.parse_leaderboard_data s = Ok d →
  ∀ n, d !! n = if decide (n ∈ player_names)
                then py_str_float <$> first_hit py_float s (Base.patterns n) else None.
Proof. apply (base_parse_ok py_float). Qed.

Lemma lookup_extend patterns (d d' : gmap string string) pre s post name :
  (∀ n, n ∈ player_names → forallb (pattern_ok n) (patterns n) = true) →
  (∀ n, d !! n = if decide (n ∈ player_names)
                 then py_str_float <$> first_hit py_float s (patterns n) else None) →
  (∀ n, d' !! n = if decide (n ∈ player_names)
                  then py_str_float <$> first_hit py_float (pre ++ s ++ post) (patterns n)
                  else None) →
  Z.of_nat (length (pre ++ s ++ post)) ≤ max_float_digits →
  is_Some (d !! name) → is_Some (d' !! name).
Proof.
  intros Hok Hd Hd' Hlen. rewrite Hd, Hd'. destruct (decide _) as [Hin|]; [|done].
  intros H. apply fmap_is_Some in H. apply fmap_is_Some.
  by apply (first_hit_extend name); [apply Hok|done|].
Qed.

(** X1.  Text before and after never costs an entry: a player who has an
    entry in the result for a text has one in the result for the text with
    anything put before and after it, as long as the whole text has no
    more characters than [float] takes digits (a thousand million).  This
    holds for the parser of each of the two scripts. *)
Theorem parse_keeps_entries (parse : text → result (gmap string string))
    (pre s post : text) (d : gmap string string) (name : string) :
  parse = Hosted.parse_leaderboard_data ∨ parse = Base.parse_leaderboard_data →
  Z.of_nat (length (pre ++ s ++ post)%list) ≤ max_float_digits →
  parse s = Ok d → is_Some (d !! name) →
  ∃ d', parse (pre ++ s ++ post)%list = Ok d' ∧ is_Some (d' !! name).
Proof.
  intros [->| ->] Hlen Hd Hname.
  - destruct (hosted_parse_spec py_float (pre ++ s ++ post)%list) as (d' & Hd' & Hl').
    exists d'. split; [done|].
    apply (lookup_extend Hosted.patterns d d' pre s post name);
      [apply hosted_patterns_ok|by apply hosted_parse_lookup|done|done|done].
  - destruct (base_parse_short (pre ++ s ++ post)%list Hlen) as (d' & Hd').
    exists d'. split; [done|].
    apply (lookup_extend Base.patterns d d' pre s post name);
      [apply base_patterns_ok|by apply base_parse_lookup|by apply base_parse_lookup|done|done].
Qed.

Lemma parse_keeps_entries_witness :
  (∃ d', Hosted.parse_leaderboard_data
           (text_of "Times: " ++ text_of "Vy 4.56" ++ text_of " (today)")%list = Ok d' ∧
         is_Some (d' !! "Vy")) ∧
  (∃ d', Base.parse_leaderboard_data
           (text_of "Times: " ++ text_of "Vy 4.56" ++ text_of " (today)")%list = Ok d' ∧
         is_Some (d' !! "Vy")).
Proof.
  split.
  - apply (parse_keeps_entries Hosted.parse_leaderboard_data (text_of "Times: ")
             (text_of "Vy 4.56") (text_of " (today)") {["Vy" := "4.56"]} "Vy").
    + by left.
    + by vm_compute.
    + vm_compute. reflexivity.
    + rewrite lookup_singleton_eq. eauto.
  - apply (parse_keeps_entries Base.parse_leaderboard_data (text_of "Times: ")
             (text_of "Vy 4.56") (text_of " (today)") {["Vy" := "4.56"]} "Vy").
    + by right.
    + by vm_compute.
    + vm_compute. reflexivity.
    + rewrite lookup_singleton_eq. eauto.
Defined.

(** X2.  Every entry comes from the text: its value is the string of the
    number read from a contiguous piece of the text that consists of
    decimal digits, a full stop and decimal digits.  (Both scripts.) *)
Theorem parse_entry_is_piece (s : text) (d : gmap string string) (name v : string) :
  Hosted.parse_leaderboard_data s = Ok d ∨ Base.parse_leaderboard_data s = Ok d →
  d !! name = Some v →
  ∃ pre cap rest x, s = (pre ++ cap ++ rest)%list ∧ decimal_capture cap ∧
                    py_float cap = Some x ∧ v = py_str_float x.
Proof.
  intros [Hd|Hd] Hv.
  - apply (entry_piece Hosted.patterns d s name v);
      [apply hosted_patterns_ok|by apply hosted_parse_lookup|done].
  - apply (entry_piece Base.patterns d s name v);
      [apply base_patterns_ok|by apply base_parse_lookup|done].
Qed.

Lemma parse_entry_is_piece_witness :
  ∃ pre cap rest x,
    text_of "Moi - 12.5s" = (pre ++ cap ++ rest)%list ∧ decimal_capture cap ∧
    py_float cap = Some x ∧ "12.5"%string = py_str_float x.
Proof.
  apply (parse_entry_is_piece (text_of "Moi - 12.5s") {["Moi" := "12.5"]} "Moi" "12.5").
  - left. vm_compute. reflexivity.
  - apply lookup_singleton_eq.
Defined.

(** X3.  A text without a full stop gives the empty mapping, in both
    scripts: a time written with a comma, or without decimals, is never
    read. *)
Theorem parse_without_full_stop (s : text) :
  0x2e%N ∉ s →
  Hosted.parse_leaderboard_data s = Ok ∅ ∧ Base.parse_leaderboard_data s = Ok ∅.
Proof.
  intros Hno.
  assert (∀ d, (Hosted.parse_leaderboard_data s = Ok d ∨ Base.parse_leaderboard_data s = Ok d) →
               d = ∅) as Hempty.
  { intros d Hd. apply map_empty. intros name.
    destruct (d !! name) as [v|] eqn:Hv; [|done].
    assert (∃ pre cap rest x, s = (pre ++ cap ++ rest)%list ∧ decimal_capture cap ∧
              py_float cap = Some x ∧ v = py_str_float x)
      as (pre & cap & rest & x & -> & Hcap & _).
    { destruct Hd as [Hd|Hd].
      - apply (entry_piece Hosted.patterns d s name v);
          [apply hosted_patterns_ok|by apply hosted_parse_lookup|done].
      - apply (entry_piece Base.patterns d s name v);
          [apply base_patterns_ok|by apply base_parse_lookup|done]. }
    destruct Hno. apply elem_of_app. right. apply elem_of_app. left.
    by apply decimal_capture_stop. }
  split.
  - destruct (hosted_parse_spec py_float s) as (d & Hd & _).
    rewrite (Hempty d) in Hd by by left. exact Hd.
  - destruct (base_parse_returns py_float s) as (d & Hd).
    { intros name m Hin Hm.
      destruct (first_match_capture name s m Hin Hm) as (pre & cap & rest & -> & _ & Hcap).
      destruct Hno. apply elem_of_app. right. apply elem_of_app. left.
      by apply decimal_capture_stop. }
    change (Base.parse_leaderboard_data s = Ok d) in Hd.
    rewrite (Hempty d) in Hd by by right. exact Hd.
Qed.

Lemma parse_without_full_stop_witness :
  Hosted.parse_leaderboard_data (text_of "Vy 4,56 Moi: 12") = Ok ∅ ∧
  Base.parse_leaderboard_data (text_of "Vy 4,56 Moi: 12") = Ok ∅.
Proof.
  apply (parse_without_full_stop (text_of "Vy 4,56 Moi: 12")).
  intros Hin. apply list_elem_of_In in Hin. vm_compute in Hin.
  repeat (destruct Hin as [Hin|Hin]; [discriminate Hin|]). destruct Hin.
Defined.

(** X4.  Whatever the local-OCR script reads from a text, the hosted-OCR
    script reads too, with the same value: its two additional patterns only
    add entries.  The hosted parser returns for every text; the local one
    returns for every text of no more characters than [float] takes
    digits. *)
Theorem base_entries_in_hosted (s : text) :
  ∃ d', Hosted.parse_leaderboard_data s = Ok d' ∧
        (∀ d, Base.parse_leaderboard_data s = Ok d → d ⊆ d') ∧
        (Z.of_nat (length s) ≤ max_float_digits →
         ∃ d, Base.parse_leaderboard_data s = Ok d ∧ d ⊆ d').
Proof.
  destruct (hosted_parse_spec py_float s) as (d' & Hd' & Hl').
  assert (∀ d, Base.parse_leaderboard_data s = Ok d → d ⊆ d') as Hsub.
  { intros d Hd. pose proof (base_parse_lookup s d Hd) as Hl.
    apply map_subseteq_spec. intros name v. rewrite Hl, Hl'.
    destruct (decide _); [|done].
    rewrite hosted_patterns_base, first_hit_app.
    by destruct (first_hit py_float s (Base.patterns name)). }
  exists d'. split_and!; [done|done|].
  intros Hlen. destruct (base_parse_short s Hlen) as (d & Hd).
  exists d. split; [done|by apply Hsub].
Qed.

(** X5.  The record built from a parsed text keeps the three fixed fields:
    the parsers only produce roster names as keys, so the [id] field is the
    numeral of the identifier, [date] and [created_at] are the date and the
    time stamp, and every other field is a roster name.  (Both scripts;
    the record is built when [str] writes the identifier.) *)
Theorem parsed_record_fields (s : text) (d record : gmap string string)
    (next_id : Z) (date now : string) :
  Hosted.parse_leaderboard_data s = Ok d ∨ Base.parse_leaderboard_data s = Ok d →
  insertion_record next_id date now d = Ok record →
  py_str_int next_id = Ok (decimal_repr next_id) ∧
  record !! "id" = Some (decimal_repr next_id) ∧
  record !! "date" = Some date ∧
  record !! "created_at" = Some now ∧
  ∀ k, is_Some (record !! k) →
       k ∈ ["id"; "date"; "created_at"]%string ∨ k ∈ player_names.
Proof.
  intros Hd Hrec. apply insertion_record_Ok in Hrec as [Hstr ->].
  assert (∀ k, is_Some (d !! k) → k ∈ player_names) as Hkeys.
  { intros k [v Hv]. destruct (decide (k ∈ player_names)) as [|Hout]; [done|].
    destruct Hd as [Hd|Hd].
    - rewrite (hosted_parse_lookup s d Hd), decide_False in Hv by done. done.
    - rewrite (base_parse_lookup s d Hd), decide_False in Hv by done. done. }
  destruct (record_with_fields (decimal_repr next_id) date now d Hkeys)
    as (Hk & Hid & Hdate & Hnow & _).
  split_and!; [done..|].
  intros k Hsome. apply Hk in Hsome as [->|[->|[->|Hsome]]].
  - left. apply list_elem_of_In; simpl; tauto.
  - left. apply list_elem_of_In; simpl; tauto.
  - left. apply list_elem_of_In; simpl; tauto.
  - right. by apply Hkeys.
Qed.

Lemma parsed_record_fields_witness :
  Hosted.parse_leaderboard_data (text_of "Vy 4.56") = Ok {["Vy" := "4.56"]} ∧
  insertion_record 42 "2024-01-01" "2024-01-01T09:00:00" {["Vy" := "4.56"]}
    = Ok (record_with "42" "2024-01-01" "2024-01-01T09:00:00" {["Vy" := "4.56"]}) ∧
  record_with "42" "2024-01-01" "2024-01-01T09:00:00" {["Vy" := "4.56"]} !! "id"
    = Some "42"%string.
Proof.
  assert (Hosted.parse_leaderboard_data (text_of "Vy 4.56") = Ok {["Vy" := "4.56"]}) as Hp
    by (vm_compute; reflexivity).
  assert (insertion_record 42 "2024-01-01" "2024-01-01T09:00:00" {["Vy" := "4.56"]}
    = Ok (record_with "42" "2024-01-01" "2024-01-01T09:00:00" {["Vy" := "4.56"]})) as Hr
    by reflexivity.
  split_and!; [exact Hp|exact Hr|].
  apply (parsed_record_fields (text_of "Vy 4.56") {["Vy" := "4.56"]} _ 42
           "2024-01-01" "2024-01-01T09:00:00" (or_introl Hp) Hr).
Defined.

Lemma hit_none_of_failures to_float name patterns s q :
  forallb (pattern_ok name) (patterns name) = true →
  q ∈ patterns name →
  (∀ m cap, re_search q s = Some (Some m) → group1 m = Some cap → to_float cap = None) →
  pattern_hit to_float s q = None.
Proof.
  intros Hok Hq Hfail. unfold pattern_hit.
  destruct (re_search q s) as [[m|]|] eqn:Hs; [|done..].
  destruct (pattern_ok_capture name q s m) as (cap & Hc & _);
    [by eapply patterns_ok_elem|done|].
  rewrite Hc. simpl. by eapply Hfail.
Qed.

(** X14.  The guarded loop of the hosted-OCR script, for every behaviour
    of the conversion to float: the parser returns a mapping (it never
    aborts), the entry of a roster name comes from the first template, in
    the order listed, that matches and whose capture converts, templates
    before it whose capture does not convert being skipped, and the name
    has no entry when no capture converts.
    ([Hosted.parse_leaderboard_data] is the instance at [py_float].) *)
Theorem hosted_first_convertible_template
    (to_float : text → option spec_float) (s : text) (name : string) :
  name ∈ player_names →
  ∃ d, Hosted.parse_leaderboard_data_with to_float s = Ok d ∧
     (∀ i p m cap x,
        Hosted.patterns name !! i = Some p →
        re_search p s = Some (Some m) → group1 m = Some cap → to_float cap = Some x →
        (∀ j q m' cap', (j < i)%nat → Hosted.patterns name !! j = Some q →
           re_search q s = Some (Some m') → group1 m' = Some cap' →
           to_float cap' = None) →
        d !! name = Some (py_str_float x)) ∧
     ((∀ q m' cap', q ∈ Hosted.patterns name →
         re_search q s = Some (Some m') → group1 m' = Some cap' →
         to_float cap' = None) →
      d !! name = None).
Proof.
  intros Hin.
  pose proof (hosted_patterns_ok name Hin) as Hok.
  destruct (hosted_parse_spec to_float s) as (d & Hd & Hl).
  exists d. split; [done|]. split.
  - intros i p m cap x Hi Hs Hc Hx Hbefore.
    rewrite Hl, decide_True by done.
    rewrite (first_hit_at to_float s _ i p x); [done|done| |].
    + apply pattern_hit_Some. by exists m, cap.
    + intros j q Hj Hq. apply (hit_none_of_failures _ name Hosted.patterns); [done| |].
      * by eapply list_elem_of_lookup_2.
      * intros m' cap'. by apply (Hbefore j q).
  - intros Hnone. rewrite Hl, decide_True by done.
    replace (first_hit to_float s (Hosted.patterns name)) with (@None spec_float); [done|].
    symmetry. apply first_hit_None. intros q Hq.
    apply (hit_none_of_failures _ name Hosted.patterns); [done..|].
    intros m' cap'. by apply Hnone.
Qed.

Lemma hosted_first_convertible_template_witness :
  "Merrick" ∈ player_names ∧
  ∃ d, Hosted.parse_leaderboard_data_with (float_refusing (text_of "1.5"))
         (text_of "Merrick: 1.5 Merrick - 2.5") = Ok d ∧
       d !! "Merrick" = Some "2.5".
Proof.
  assert ("Merrick" ∈ player_names) as Hin by roster_elem.
  split; [done|].
  destruct (hosted_first_convertible_template (float_refusing (text_of "1.5"))
              (text_of "Merrick: 1.5 Merrick - 2.5") "Merrick" Hin)
    as (d & Hd & Hfirst & _).
  exists d. split; [done|].
  rewrite (Hfirst 1%nat _ {| group1 := Some (text_of "2.5") |} (text_of "2.5")
             (S754_finite false 5629499534213120 (-51)) eq_refl).
  - vm_compute. reflexivity.
  - vm_compute. reflexivity.
  - reflexivity.
  - vm_compute. reflexivity.
  - intros [|j] q m' cap' Hj Hq Hs Hc; [|lia].
    injection Hq as <-. vm_compute in Hs. injection Hs as <-.
    injection Hc as <-. vm_compute. reflexivity.
Defined.

(** X15.  The outcome of the unguarded loop of the local-OCR script.
    Either [float] accepts the capture of the first matching template of
    every roster name, and the parser returns a mapping in which each
    roster name has the string of that number as its entry, and no entry
    when no template matches; or [float] refuses the capture of the first
    matching template of some roster name, and the parser is left by
    [ValueError]. *)
Theorem local_parser_outcome (s : text) :
  (∃ d, Base.parse_leaderboard_data s = Ok d ∧
        ∀ name, name ∈ player_names →
          d !! name = py_str_float <$>
                        (m ← first_match s (Base.patterns name); group1 m ≫= py_float)) ∨
  (Base.parse_leaderboard_data s = Raise ValueError ∧
   ∃ name m, name ∈ player_names ∧
             first_match s (Base.patterns name) = Some m ∧
             group1 m ≫= py_float = None).
Proof.
  set (refused := λ name : string,
         match first_match s (Base.patterns name) with
         | Some m => match group1 m ≫= py_float with None => true | Some _ => false end
         | None => false
         end).
  destruct (existsb refused player_names) eqn:E.
  - right. apply existsb_exists in E as (name & Hin & Hr). apply list_elem_of_In in Hin.
    unfold refused in Hr.
    destruct (first_match s (Base.patterns name)) as [m|] eqn:Hm; [|done].
    destruct (group1 m ≫= py_float) eqn:Hx; [done|].
    split; [by apply (base_parse_raise py_float s name m)|by exists name, m].
  - left.
    assert (∀ name, name ∈ player_names → refused name = false) as Hall.
    { intros name Hin. apply list_elem_of_In in Hin.
      destruct (refused name) eqn:Hr; [|done].
      assert (existsb refused player_names = true) as E'
        by (apply existsb_exists; by exists name).
      congruence. }
    destruct (base_parse_returns py_float s) as (d & Hd).
    { intros name m Hin Hm. specialize (Hall name Hin). unfold refused in Hall.
      rewrite Hm in Hall. by destruct (group1 m ≫= py_float). }
    exists d. split; [exact Hd|]. intros name Hin.
    rewrite (base_parse_ok py_float s d Hd), decide_True by done. f_equal.
    specialize (Hall name Hin). unfold refused in Hall.
    destruct (first_match s (Base.patterns name)) as [m|] eqn:Hm.
    + destruct (group1 m ≫= py_float) as [x|] eqn:Hx; [|done].
      rewrite (first_match_Some_hit py_float s _ m x Hm Hx). by rewrite <- Hx.
    + by apply first_match_None_hit.
Qed.

(** ** Further properties of the store gateway *)

Lemma insert_desc_perm x l : insert_desc x l ≡ₚ x :: l.
Proof.
  induction l as [|y l IH]; [done|]. simpl. destruct (y <=? x); [done|].
  rewrite IH. apply Permutation_swap.
Qed.

Lemma sort_desc_perm ids : sort_desc ids ≡ₚ ids.
Proof.
  induction ids as [|x ids IH]; [done|]. simpl. by rewrite insert_desc_perm, IH.
Qed.

Lemma descending_cons x l :
  descending (x :: l) = match head l with Some y => (y <=? x) && descending l | None => true end.
Proof. by destruct l. Qed.

Lemma insert_desc_descending x l :
  descending l = true → descending (insert_desc x l) = true.
Proof.
  induction l as [|y l IH]; [done|]. intros Hl.
  cbn [insert_desc]. destruct (y <=? x) eqn:E.
  - rewrite descending_cons. cbn [head]. by rewrite E, Hl.
  - rewrite descending_cons, head_insert_desc.
    rewrite descending_cons in Hl. apply Z.leb_gt in E.
    destruct (head l) as [z|] eqn:Hz.
    + apply andb_true_iff in Hl as [Hzy Hl]. apply Z.leb_le in Hzy.
      rewrite IH by done. rewrite andb_true_r. apply Z.leb_le. lia.
    + rewrite IH by (by destruct l). rewrite andb_true_r. apply Z.leb_le. lia.
Qed.

Lemma sort_desc_descending ids : descending (sort_desc ids) = true.
Proof.
  induction ids as [|x ids IH]; [done|]. simpl. by apply insert_desc_descending.
Qed.

Lemma greatest_ge ids x : x ∈ ids → ∃ max, greatest ids = Some max ∧ x ≤ max.
Proof.
  induction ids as [|y ids IH]; [by intros H; apply elem_of_nil in H|].
  intros H. apply elem_of_cons in H as [->|H]; simpl.
  - destruct (greatest ids) as [m|]; eexists; split; try done; lia.
  - destruct (IH H) as (m & -> & Hm). eexists. split; [done|]. lia.
Qed.

Lemma get_next_id_ordered ids e log :
  get_next_id (ordered_client ids) e log = get_next_id (table_client ids) e log.
Proof. reflexivity. Qed.

(** X6.  Against a table that answers the queries as asked and accepts
    the insertion, the next identifier is fresh: it is greater than every
    identifier of the table, and it is 1 for the empty table.
    [update_database] then reports success with that identifier and shows
    no message, as long as [str] writes the identifier; when the identifier
    has more digits than [str] writes, it reports failure and shows the
    error. *)
Theorem next_id_fresh (ids : list Z) (data : gmap string string) (date : string)
    (e : env) (log : list message) :
  ∃ n, get_next_id (ordered_client ids) e log = (Ok n, log) ∧
       (∀ x, x ∈ ids → x < n) ∧
       (ids = [] → n = 1) ∧
       (Z.abs n < 10 ^ Z.of_nat int_max_str_digits →
        update_database (ordered_client ids) data date e log = (Ok (true, Some n), log)) ∧
       (10 ^ Z.of_nat int_max_str_digits ≤ Z.abs n →
        update_database (ordered_client ids) data date e log =
          (Ok (false, None),
           (log ++ [StError "Error updating database: " (ExnDetail ValueError)])%list)).
Proof.
  assert (get_next_id (ordered_client ids) e log =
            (Ok (match greatest ids with Some max => max + 1 | None => 1 end), log)) as Hn
    by (rewrite get_next_id_ordered; apply get_next_id_table).
  eexists. split; [exact Hn|]. split_and!.
  - intros x Hx. destruct (greatest_ge ids x Hx) as (m & -> & Hm). lia.
  - by intros ->.
  - intros Hlt.
    by rewrite (update_database_unfold _ _ _ _ _ _ _ Hn), insertion_record_within.
  - intros Hge. by apply (update_database_beyond _ _ _ _ _ _ _ Hn).
Qed.

(** X7.  [fetch_recent_entries] never raises: when the query raises it
    shows the error and returns the empty list.  Against a table that
    answers the queries as asked it returns, with no message, the first
    [limit] rows of the table taken by descending identifier. *)
Theorem fetch_recent_entries_newest (limit : Z) (e : env) (log : list message) :
  (∀ supabase, ∃ rows log', fetch_recent_entries supabase limit e log = (Ok rows, log')) ∧
  (∀ supabase x,
     select_execute supabase "crossword_times" "*" "id.desc" limit = Raise x →
     fetch_recent_entries supabase limit e log =
       (Ok [], (log ++ [StError "Error fetching recent entries: " (ExnDetail x)])%list)) ∧
  (∀ ids, ∃ sorted,
     sorted ≡ₚ ids ∧ descending sorted = true ∧
     fetch_recent_entries (ordered_client ids) limit e log =
       (Ok (map row_of_id (take (Z.to_nat limit) sorted)), log)).
Proof.
  split_and!.
  - intros supabase.
    unfold fetch_recent_entries, try_except, mbind, ui_mbind, ui_bind, lift.
    destruct (select_execute supabase _ _ _ _) as [response|x]; by eexists _, _.
  - intros supabase x Hx.
    unfold fetch_recent_entries, try_except, mbind, ui_mbind, ui_bind, lift.
    by rewrite Hx.
  - intros ids. exists (sort_desc ids).
    split_and!; [apply sort_desc_perm|apply sort_desc_descending|reflexivity].
Qed.

(** X8.  The identifier survives the store: [update_database] writes it as
    the string [str(next_id)], and when the newest row comes back with that
    string in its [id] field, [get_next_id] reads the number back and
    returns its successor, with no message. *)
Theorem stored_id_reads_back (supabase : Client) (n : Z) (id : string) (row : json)
    (rest : list json) (e : env) (log : list message) :
  py_str_int n = Ok id →
  max_id_query supabase = Ok {| response_data := row :: rest |} →
  py_getitem row "id" = Ok (JStr (text_of id)) →
  get_next_id supabase e log = (Ok (n + 1), log).
Proof.
  intros Hid Hq Hrow. apply py_str_int_inv in Hid as [Hn ->].
  apply (get_next_id_row supabase e log row rest _ n Hq Hrow).
  simpl. by rewrite py_int_str_of_int.
Qed.

Lemma stored_id_reads_back_witness :
  py_str_int 41 = Ok "41"%string ∧
  get_next_id (client_answering [JDict [(text_of "id", JStr (text_of "41"))]])
    offline_env [] = (Ok 42, []).
Proof.
  split; [reflexivity|].
  apply (stored_id_reads_back
           (client_answering [JDict [(text_of "id", JStr (text_of "41"))]])
           41 "41" (JDict [(text_of "id", JStr (text_of "41"))]) [] offline_env []).
  - reflexivity.
  - reflexivity.
  - reflexivity.
Defined.

(** X9.  A failed identifier query does not stop the update: the error is
    shown, the record is inserted with the identifier 1, and the result is
    [(True, 1)] when the store answers the insertion with a row. *)
Theorem update_database_without_max_id (supabase : Client) (data : gmap string string)
    (date : string) (e : env) (log : list message) (x : exn) :
  max_id_query supabase = Raise x →
  update_database supabase data date e log =
    let log1 := (log ++ [StError "Error getting next ID: " (ExnDetail x)])%list in
    match insert_execute supabase "crossword_times"
            (record_with "1" date (now_isoformat e) data) with
    | Ok response =>
        (Ok (match response_data response with
             | [] => (false, None)
             | _ :: _ => (true, Some 1)
             end), log1)
    | Raise y =>
        (Ok (false, None), (log1 ++ [StError "Error updating database: " (ExnDetail y)])%list)
    end.
Proof.
  intros Hq.
  by rewrite (update_database_unfold _ _ _ _ _ 1 _ (get_next_id_raise _ e log x Hq)).
Qed.

Lemma update_database_without_max_id_witness :
  update_database client_not_answering {["Vy" := "4.56"]} "2024-01-01" offline_env [] =
    (Ok (true, Some 1),
     [StError "Error getting next ID: " (ExnDetail (ExternalError "timeout"))]).
Proof.
  apply (update_database_without_max_id client_not_answering {["Vy" := "4.56"]}
           "2024-01-01" offline_env [] (ExternalError "timeout")).
  reflexivity.
Defined.

(** X10.  A time entered under the key [id] replaces the identifier of
    the record: the record that is built has that text as its [id], and
    the row is inserted with it, while [update_database] still reports the
    identifier [get_next_id] computed.  (The record is built when [str]
    writes the identifier.) *)
Theorem record_identifier_overridden (supabase : Client) (data : gmap string string)
    (date : string) (e : env) (log : list message) (v : string) :
  data !! "id" = Some v →
  ∃ n log1,
    get_next_id supabase e log = (Ok n, log1) ∧
    (Z.abs n < 10 ^ Z.of_nat int_max_str_digits →
     ∃ record, insertion_record n date (now_isoformat e) data = Ok record) ∧
    ∀ record,
      insertion_record n date (now_isoformat e) data = Ok record →
      record !! "id" = Some v ∧
      ∀ row rows,
        insert_execute supabase "crossword_times" record
          = Ok {| response_data := row :: rows |} →
        update_database supabase data date e log = (Ok (true, Some n), log1).
Proof.
  intros Hv. destruct (get_next_id_total supabase e log) as (n & log1 & Hn & _).
  exists n, log1. split_and!; [done| |].
  - intros Hlt. eexists. by apply insertion_record_within.
  - intros record Hrec.
    pose proof (update_database_unfold _ data date _ _ _ _ Hn) as Hu. rewrite Hrec in Hu.
    apply insertion_record_Ok in Hrec as [_ ->]. split.
    + by rewrite record_with_lookup, Hv.
    + intros row rows Hins. by rewrite Hu, Hins.
Qed.

Lemma record_identifier_overridden_witness :
  ∃ n log1 record,
    get_next_id (client_answering [row_of_id 41]) offline_env [] = (Ok n, log1) ∧
    insertion_record n "2024-01-01" (now_isoformat offline_env)
      {["id" := "seven"; "Vy" := "4.56"]} = Ok record ∧
    record !! "id" = Some "seven"%string ∧
    update_database (client_answering [row_of_id 41]) {["id" := "seven"; "Vy" := "4.56"]}
      "2024-01-01" offline_env [] = (Ok (true, Some n), log1).
Proof.
  destruct (record_identifier_overridden (client_answering [row_of_id 41])
              {["id" := "seven"; "Vy" := "4.56"]} "2024-01-01" offline_env [] "seven")
    as (n & log1 & Hn & Hbuilt & Hrecord).
  - apply lookup_insert_eq.
  - assert (n = 42) as Hn42 by (injection Hn as <- _; reflexivity).
    destruct Hbuilt as (record & Hrec); [subst n; by vm_compute|].
    destruct (Hrecord record Hrec) as (Hid & Hup).
    exists n, log1, record. split_and!; [exact Hn|exact Hrec|exact Hid|].
    apply (Hup (JDict []) []). reflexivity.
Defined.

(** ** Further properties of the text extractors *)

Lemma ocr_attempt_log image_bytes e log r log' :
  ocr_attempt image_bytes e log = (r, log') →
  log' = log ∨ (r = Ok [] ∧ ∃ m, log' = (log ++ [m])%list).
Proof.
  unfold ocr_attempt, mbind, ui_mbind, ui_bind, ask, lift, st_error, mret, ui_mret, ui_ret.
  destruct (requests_post e _ _) as [response|x]; [|intros [= <- <-]; by left].
  destruct (negb _); [intros [= <- <-]; right; eauto|].
  destruct (response_json response) as [result|x]; [|intros [= <- <-]; by left].
  destruct (py_getitem result _) as [code|x]; [|intros [= <- <-]; by left].
  destruct (py_ne_one code).
  - destruct (py_get result _ _) as [msg|x]; intros [= <- <-]; [right; eauto|by left].
  - destruct (py_get result _ _) as [parsed|x]; [|intros [= <- <-]; by left].
    destruct (py_iter parsed) as [pages|x]; [|intros [= <- <-]; by left].
    intros [= <- <-]. by left.
Qed.

(** X11.  Processing an image in the hosted-OCR script, the extraction
    followed by the parser, never raises.  Either no message is shown, or
    exactly one message is shown and then the text is empty and so is the
    mapping: whenever times are found, nothing was reported. *)
Theorem hosted_processing_messages (image_bytes : list byte) (e : env) (log : list message) :
  ∃ t log' d,
    extract_text_from_image_ocrspace image_bytes e log = (Ok t, log') ∧
    Hosted.parse_leaderboard_data t = Ok d ∧
    (log' = log ∨ (t = [] ∧ d = ∅ ∧ ∃ m, log' = (log ++ [m])%list)).
Proof.
  assert (Hosted.parse_leaderboard_data [] = Ok ∅) as Hnil by (vm_compute; reflexivity).
  destruct (decide (ocr_api_key e = ""%string)) as [Hk|Hk].
  { rewrite extract_no_key by done. eexists _, _, _. split_and!; [done..|]. right. eauto. }
  rewrite extract_with_key by done.
  destruct (ocr_attempt image_bytes e log) as [[t|x] log'] eqn:Ha;
    apply ocr_attempt_log in Ha as [->|(Hr & m & ->)].
  - destruct (hosted_parse_spec py_float t) as (d & Hd & _).
    exists t, log, d. split_and!; [done..|by left].
  - injection Hr as ->. exists [], (log ++ [m])%list, ∅. split_and!; [done..|]. right. eauto.
  - eexists _, _, _. split_and!; [done..|]. right. eauto.
  - done.
Qed.

(** X12.  Processing an image in the local-OCR script, the extraction
    followed by the parser.  The extraction never raises: the text of the
    reader goes to the parser unchanged and nothing is shown; when the
    reader raises, the error is shown, the text is empty and so is the
    mapping.  The parser returns a mapping for every text of no more
    characters than [float] takes digits. *)
Theorem local_extraction_then_parse {Image : Type} (image_to_string : Image → result text)
    (image : Image) (e : env) (log : list message) :
  ∃ t log',
    extract_text_from_image image_to_string image e log = (Ok t, log') ∧
    (Z.of_nat (length t) ≤ max_float_digits → ∃ d, Base.parse_leaderboard_data t = Ok d) ∧
    match image_to_string image with
    | Ok t0 => t = t0 ∧ log' = log
    | Raise x =>
        t = [] ∧ Base.parse_leaderboard_data t = Ok ∅ ∧
        log' = (log ++ [StError "Error extracting text from image: " (ExnDetail x)])%list
    end.
Proof.
  assert (Base.parse_leaderboard_data [] = Ok ∅) as Hnil by (vm_compute; reflexivity).
  unfold extract_text_from_image, try_except, lift.
  destruct (image_to_string image) as [t0|x].
  - exists t0, log. split_and!; [reflexivity|apply base_parse_short|reflexivity..].
  - eexists _, _. split_and!; [reflexivity|apply base_parse_short|reflexivity|exact Hnil|reflexivity].
Qed.

(** ** The manual form *)

Lemma manual_entries_cons w n names (data : gmap string text) e log :
  manual_entries w (n :: names) data e log =
    manual_entries w names
      (match manual_kept w n with Some t => <[n := t]> data | None => data end) e
      (log ++ match manual_rejected w n with Some m => [m] | None => [] end)%list.
Proof.
  cbn [manual_entries]. unfold mbind, ui_mbind, ui_bind, manual_kept, manual_rejected.
  fold (manual_field w n). destruct (manual_field w n) as [|c t].
  - simpl. by rewrite app_nil_r.
  - destruct (py_float (c :: t)); simpl; [by rewrite app_nil_r|done].
Qed.

Lemma omap_cons_app {A B} (f : A → option B) x l :
  omap f (x :: l) = (match f x with Some y => [y] | None => [] end ++ omap f l)%list.
Proof. simpl. by destruct (f x). Qed.

Lemma manual_entries_spec w names (data : gmap string text) e log :
  ∃ d, manual_entries w names data e log =
         (Ok d, (log ++ omap (manual_rejected w) names)%list) ∧
       ∀ name, d !! name =
         match (if decide (name ∈ names) then manual_kept w name else None) with
         | Some t => Some t
         | None => data !! name
         end.
Proof.
  revert data log. induction names as [|n names IH]; intros data log.
  - exists data. split; [simpl; by rewrite app_nil_r|]. intros name.
    rewrite decide_False; [done|]. apply not_elem_of_nil.
  - rewrite manual_entries_cons.
    destruct (IH (match manual_kept w n with Some t => <[n := t]> data | None => data end)
                 (log ++ match manual_rejected w n with Some m => [m] | None => [] end)%list)
      as (d & Hd & Hl).
    exists d. split.
    + rewrite Hd, omap_cons_app. by rewrite <- app_assoc.
    + intros name. rewrite Hl.
      destruct (decide (name = n)) as [->|Hne].
      * rewrite (decide_True (P := n ∈ n :: names)) by left.
        destruct (decide (n ∈ names)).
        -- destruct (manual_kept w n); [done|]. done.
        -- destruct (manual_kept w n); [by rewrite lookup_insert_eq|done].
      * destruct (decide (name ∈ names)) as [Hin|Hin].
        -- rewrite (decide_True (P := name ∈ n :: names)) by by right.
           destruct (manual_kept w name); [done|].
           destruct (manual_kept w n); [by rewrite lookup_insert_ne|done].
        -- rewrite (decide_False (P := name ∈ n :: names))
             by (intros H; apply elem_of_cons in H as [?|?]; done).
           destruct (manual_kept w n); [by rewrite lookup_insert_ne|done].
Qed.

(** X13.  The manual form never raises.  Its result has an entry for a
    name exactly when the name is on the roster and its field holds a
    non-empty text that [float] accepts, and the entry is that text as
    typed.  One message is shown for each roster name, in roster order,
    whose field holds a non-empty text that [float] refuses. *)
Theorem manual_data_entry_spec (w : widgets) (e : env) (log : list message) :
  ∃ d, manual_data_entry w e log =
         (Ok d, (log ++ omap (manual_rejected w) player_names)%list) ∧
       ∀ name t, d !! name = Some t ↔
         name ∈ player_names ∧ manual_field w name = t ∧ t ≠ [] ∧ is_Some (py_float t).
Proof.
  destruct (manual_entries_spec w player_names ∅ e log) as (d & Hd & Hl).
  exists d. split; [done|]. intros name t. rewrite Hl, lookup_empty.
  destruct (decide (name ∈ player_names)) as [Hin|Hin].
  - unfold manual_kept. destruct (manual_field w name) as [|c f] eqn:Ef.
    + split; [done|]. intros (_ & <- & Hne & _). done.
    + destruct (py_float (c :: f)) as [x|] eqn:Ex.
      * split.
        -- intros [= <-]. split_and!; [done..|]. rewrite Ex. eauto.
        -- intros (_ & <- & _). done.
      * split; [done|]. intros (_ & <- & _ & [x Hx]). congruence.
  - split; [done|]. intros (? & _). done.
Qed.
